(** * AegisBridge seed subsystem: a shallow embedding of
      [UAegisSeedSubsystem] (AegisSeedSubsystem.h / AegisSeedSubsystem.cpp)

    The subsystem is an editor singleton holding three [TMap]s, a seed string
    and a counter.  Its member functions are embedded as functions that take
    the object ([this]) and return the result together with the updated
    object.  What the functions obtain from the engine (the SHA-1 primitive,
    the JSON writer, the file helper, the clock, the editor world) is passed
    in explicitly: the first three as interfaces, the clock and the editor as
    arguments. *)

From Stdlib Require Import ZArith NArith List String Ascii Lia.
From Stdlib.Strings Require Import Byte.
From stdpp Require Import gmap list sorting.

Local Open Scope N_scope.

(** ** Engine strings *)

(** A [TCHAR] is a 16-bit code unit; an [FString] is modelled by the code
    units it holds before its terminator. *)
Abbreviation TCHAR := N (only parsing).
Abbreviation FString := (list N) (only parsing).

(** [TEXT("...")] for a literal made of ASCII characters. *)
Definition TEXT (s : string) : FString :=
  N_of_ascii <$> list_ascii_of_string s.

(** A character literal ['c']. *)
Definition CHR (c : ascii) : TCHAR := N_of_ascii c.

Arguments TEXT : simpl never.
Arguments CHR : simpl never.

(** The engine folds case on ASCII letters only (the [LowerAscii] table used
    by [FPlatformString::Stricmp]; [TChar::ToUpper]). *)
Definition ToLowerAscii (c : TCHAR) : TCHAR :=
  if (65 <=? c) && (c <=? 90) then c + 32 else c.

Definition ToUpperAscii (c : TCHAR) : TCHAR :=
  if (97 <=? c) && (c <=? 122) then c - 32 else c.

(** [FString::ToUpper]. *)
Definition ToUpper (s : FString) : FString := ToUpperAscii <$> s.

(** The key under which two strings that differ only in ASCII letter case
    coincide. *)
Definition KeyFold (s : FString) : FString := ToLowerAscii <$> s.

(** [operator==] on [FString] (also against a [TEXT] literal) is
    [Equals(..., ESearchCase::IgnoreCase)]: equal lengths and [Stricmp] zero.
    UnrealString.h documents the operator with "@note case insensitive". *)
Definition FString_eq (a b : FString) : bool :=
  bool_decide (KeyFold a = KeyFold b).

Definition FString_ne (a b : FString) : bool := negb (FString_eq a b).

Infix "==" := FString_eq (at level 68, no associativity).
Infix "!=" := FString_ne (at level 68, no associativity).

(** [FMath::Clamp]. *)
Definition Clamp (x lo hi : Z) : Z :=
  if (x <? lo)%Z then lo else if (x <? hi)%Z then x else hi.

(** [FString::Mid(Start, Count)]: the start is clamped to the string, the end
    to what remains; a negative count gives the empty string. *)
Definition Mid (s : FString) (Start Count : Z) : FString :=
  if (Count <? 0)%Z then []
  else
    let Length := Z.of_nat (length s) in
    let Start' := Clamp Start 0 Length in
    let End := Clamp (Count + Start) Start' Length in
    firstn (Z.to_nat (End - Start')) (skipn (Z.to_nat Start') s).

(** [FString::Mid(Start)]: everything from [Start] on. *)
Definition MidFrom (s : FString) (Start : Z) : FString :=
  Mid s Start (Z.of_nat (length s)).

(** [FString::FindLastChar]: index of the last occurrence of an (exactly
    equal) character, if any. *)
Fixpoint FindLastChar_from (i : Z) (s : FString) (c : TCHAR) (found : option Z)
  : option Z :=
  match s with
  | [] => found
  | x :: r => FindLastChar_from (i + 1) r c (if x =? c then Some i else found)
  end.

Definition FindLastChar (s : FString) (c : TCHAR) : option Z :=
  FindLastChar_from 0 s c None.

(** ** [FString::Printf] for the conversions the subsystem uses *)

Definition DecDigit (d : N) : TCHAR := 48 + d.
Definition HexDigit (d : N) : TCHAR := if d <? 10 then 48 + d else 87 + d.

(** Digits of [n] in base [b] (with digit characters [dig]), least
    significant first; [fuel] bounds the number of digits. *)
Fixpoint DigitsRev (dig : N -> TCHAR) (b : N) (fuel : nat) (n : N)
  : list TCHAR :=
  match fuel with
  | O => []
  | S f =>
      dig (n mod b) :: (if n / b =? 0 then [] else DigitsRev dig b f (n / b))
  end.

Definition Digits (dig : N -> TCHAR) (b : N) (n : N) : FString :=
  rev (DigitsRev dig b (S (N.to_nat (N.log2 n))) n).

Definition ZeroPad (width : nat) (s : FString) : FString :=
  repeat (CHR "0") (width - length s)%nat ++ s.

(** [%d] *)
Definition FormatInt (d : Z) : FString :=
  if (d <? 0)%Z then CHR "-" :: Digits DecDigit 10 (Z.to_N (- d))
  else Digits DecDigit 10 (Z.to_N d).

(** [%02x] *)
Definition FormatHex02 (n : N) : FString := ZeroPad 2 (Digits HexDigit 16 n).

Inductive FmtArg :=
| ArgStr (s : FString)
| ArgInt (d : Z)
| ArgUInt (n : N).

(** The format is scanned left to right; [%s], [%d] and [%02x] consume the
    next argument, every other character is copied. *)
Fixpoint Printf (Fmt : FString) (Args : list FmtArg) : FString :=
  match Fmt with
  | [] => []
  | c :: Fmt1 =>
      if negb (c =? CHR "%") then c :: Printf Fmt1 Args
      else
        match Fmt1 with
        | [] => [c]
        | k :: Fmt2 =>
            if k =? CHR "s" then
              match Args with
              | ArgStr x :: Args' => x ++ Printf Fmt2 Args'
              | _ => Printf Fmt2 (tail Args)
              end
            else if k =? CHR "d" then
              match Args with
              | ArgInt d :: Args' => FormatInt d ++ Printf Fmt2 Args'
              | _ => Printf Fmt2 (tail Args)
              end
            else
              match Fmt2 with
              | k2 :: k3 :: Fmt4 =>
                  if (k =? CHR "0") && (k2 =? CHR "2") && (k3 =? CHR "x") then
                    match Args with
                    | ArgUInt n :: Args' => FormatHex02 n ++ Printf Fmt4 Args'
                    | _ => Printf Fmt4 (tail Args)
                    end
                  else c :: k :: Printf Fmt2 Args
              | _ => c :: k :: Printf Fmt2 Args
              end
        end
  end.

(** ** [TCHAR_TO_UTF8] *)

Definition uint8_of_N (n : N) : byte :=
  default x00 (Byte.of_N (n mod 256)).

Definition IsHighSurrogate (c : TCHAR) : bool := (0xD800 <=? c) && (c <=? 0xDBFF).
Definition IsLowSurrogate (c : TCHAR) : bool := (0xDC00 <=? c) && (c <=? 0xDFFF).

(** UTF-8 bytes of one code point. *)
Definition Utf8OfCodepoint (cp : N) : list byte :=
  if cp <? 0x80 then [uint8_of_N cp]
  else if cp <? 0x800 then
    [uint8_of_N (N.lor 0xC0 (N.shiftr cp 6));
     uint8_of_N (N.lor 0x80 (N.land cp 0x3F))]
  else if cp <? 0x10000 then
    [uint8_of_N (N.lor 0xE0 (N.shiftr cp 12));
     uint8_of_N (N.lor 0x80 (N.land (N.shiftr cp 6) 0x3F));
     uint8_of_N (N.lor 0x80 (N.land cp 0x3F))]
  else
    [uint8_of_N (N.lor 0xF0 (N.shiftr cp 18));
     uint8_of_N (N.lor 0x80 (N.land (N.shiftr cp 12) 0x3F));
     uint8_of_N (N.lor 0x80 (N.land (N.shiftr cp 6) 0x3F));
     uint8_of_N (N.lor 0x80 (N.land cp 0x3F))].

(** The conversion behind the [TCHAR_TO_UTF8] macro: a surrogate pair becomes
    one code point, an unpaired surrogate becomes ['?']. *)
Fixpoint TCHAR_TO_UTF8 (s : FString) : list byte :=
  match s with
  | [] => []
  | c :: r =>
      if IsHighSurrogate c then
        match r with
        | lo :: r' =>
            if IsLowSurrogate lo then
              Utf8OfCodepoint (0x10000 + (c - 0xD800) * 0x400 + (lo - 0xDC00))
                ++ TCHAR_TO_UTF8 r'
            else Utf8OfCodepoint 0x3F ++ TCHAR_TO_UTF8 r
        | [] => Utf8OfCodepoint 0x3F
        end
      else if IsLowSurrogate c then Utf8OfCodepoint 0x3F ++ TCHAR_TO_UTF8 r
      else Utf8OfCodepoint c ++ TCHAR_TO_UTF8 r
  end.

(** ** [TMap<FString, V>] *)

(** A [TMap] keyed by [FString] compares keys with [operator==] and hashes
    them with the case-insensitive [GetTypeHash(const FString&)], so keys that
    differ only in ASCII letter case are one key.  The map is modelled as a
    finite map from the folded key to the stored pair; [Add] on a present key
    replaces the stored pair, key included. *)
Abbreviation TMap V := (gmap (list N) (list N * V)) (only parsing).

Section TMap.
Context {V : Type}.

Definition TMap_Empty : TMap V := ∅.

Definition TMap_Find (m : TMap V) (Key : FString) : option V :=
  snd <$> m !! KeyFold Key.

Definition TMap_Contains (m : TMap V) (Key : FString) : bool :=
  bool_decide (is_Some (m !! KeyFold Key)).

Definition TMap_Add (m : TMap V) (Key : FString) (Value : V) : TMap V :=
  <[KeyFold Key := (Key, Value)]> m.

(** [Remove] returns the number of removed pairs. *)
Definition TMap_Remove (m : TMap V) (Key : FString) : Z * TMap V :=
  ((if m !! KeyFold Key is Some _ then 1 else 0)%Z, delete (KeyFold Key) m).

(** The stored pairs, listed by folded key: what the map holds, not the
    order in which a loop visits it. *)
Definition TMap_Pairs (m : TMap V) : list (FString * V) :=
  snd <$> map_to_list m.

(** A ranged-for over the map visits the stored pairs in the order of their
    slots in the map's element array.  Which slot a pair has depends on the
    additions and removals that led to the map (a new pair takes a free
    slot, a replaced pair keeps its slot); the model keeps the pairs only,
    and [Slot] gives the slot of each stored key at the time of the loop. *)
Definition TMap_Iterate (Slot : FString -> nat) (m : TMap V)
  : list (FString * V) :=
  @merge_sort _ (fun a b => (Slot a.1 <= Slot b.1)%nat)
    (fun a b => decide (Slot a.1 <= Slot b.1)%nat) (TMap_Pairs m).
End TMap.

(** ** JSON values built by the subsystem *)

(** [SetNumberField] takes a double; the operations embedded here only store
    integer literals. *)
Inductive FJsonValue :=
| FJsonValueBoolean (b : bool)
| FJsonValueNumber (n : Z)
| FJsonValueString (s : FString).

(** [FJsonObject::Values] is a [TMap<FString, TSharedPtr<FJsonValue>>]. *)
Abbreviation FJsonObject := (gmap (list N) (list N * FJsonValue)) (only parsing).

Definition MakeShareable_FJsonObject : FJsonObject := TMap_Empty.

Definition SetBoolField (obj : FJsonObject) (Name : FString) (b : bool)
  : FJsonObject := TMap_Add obj Name (FJsonValueBoolean b).

Definition SetNumberField (obj : FJsonObject) (Name : FString) (n : Z)
  : FJsonObject := TMap_Add obj Name (FJsonValueNumber n).

(** ** What the subsystem takes from the engine *)

(** Misc/SecureHash.h: [FSHA1], the 20-byte digest of a byte buffer. *)
Class SecureHash := {
  FSHA1_Digest : list byte -> list byte;
}.

(** Serialization/JsonSerializer.h: [FJsonSerializer::Serialize] through a
    default [TJsonWriter<>]. *)
Class JsonSerializer := {
  FJsonSerializer_Serialize : FJsonObject -> FString;
}.

(** Misc/FileHelper.h: the files [FFileHelper] works on, and
    [FFileHelper::SaveStringToFile(String, Filename)], which tells whether
    the write succeeded and leaves the files as they are afterwards. *)
Class FileHelper := {
  FileSystem : Type;
  FFileHelper_SaveStringToFile :
    FString -> FString -> FileSystem -> bool * FileSystem;
}.

(** [FSHA1::HashBuffer(Data, DataSize, OutHash)] digests the first [DataSize]
    bytes at [Data]. *)
Definition FSHA1_HashBuffer `{SecureHash} (Data : list byte) (DataSize : nat)
  : list byte := FSHA1_Digest (firstn DataSize Data).

(** The editor world as [VerifyGUIDEntity] sees it. *)
Record AActor := {
  GetName : FString;
  GetPathName : FString;
}.

Record UWorld := {
  (** [FindObject<AActor>(World->GetCurrentLevel(), Name)] *)
  CurrentLevel_FindObject_AActor : FString -> option AActor;
  (** the actors a [TActorIterator<AActor>] visits, in order *)
  ActorIterator : list AActor;
}.

Record UEditorEngine := {
  (** [GetEditorWorldContext().World()], possibly null *)
  EditorWorld : option UWorld;
}.

(** ** The subsystem object *)

Definition wrap_int32 (z : Z) : Z :=
  ((z + 2147483648) mod 4294967296 - 2147483648)%Z.

Module FAegisGUIDEntry.
Record t := mk {
  GUID : FString;
  EntityPath : FString;
  EntityType : FString;
  EntityName : FString;
  Metadata : FString;
  CreatedAt : Z;      (* FDateTime ticks *)
  Version : Z;        (* int32 *)
}.
End FAegisGUIDEntry.

Record UAegisSeedSubsystem := {
  GUIDRegistry : TMap FAegisGUIDEntry.t;
  PathToGUIDMap : TMap FString;
  SnapshotStorage : TMap FString;
  GlobalSeed : FString;
  SeedCounter : Z;      (* int32 *)
}.

(** A freshly constructed subsystem: empty maps, empty seed,
    [SeedCounter = 0]. *)
Definition NewSubsystem : UAegisSeedSubsystem :=
  {| GUIDRegistry := TMap_Empty;
     PathToGUIDMap := TMap_Empty;
     SnapshotStorage := TMap_Empty;
     GlobalSeed := [];
     SeedCounter := 0 |}.

(** ** Helper functions (AegisSeedSubsystem.cpp, "Helper Functions") *)

Definition GetNamespaceCode (Namespace : FString) : FString :=
  if Namespace == TEXT "actor" then TEXT "ACT"
  else if Namespace == TEXT "component" then TEXT "CMP"
  else if Namespace == TEXT "asset" then TEXT "AST"
  else if Namespace == TEXT "blueprint" then TEXT "BPT"
  else if Namespace == TEXT "material" then TEXT "MAT"
  else if Namespace == TEXT "landscape" then TEXT "LND"
  else if Namespace == TEXT "foliage" then TEXT "FOL"
  else if Namespace == TEXT "pcg" then TEXT "PCG"
  else if Namespace == TEXT "ai" then TEXT "AIN"
  else if Namespace == TEXT "custom" then TEXT "CUS"
  else TEXT "UNK".

(** [Hash.Hash[i]] of the zero-initialised [uint8 Hash[20]] after
    [HashBuffer] has written the digest into it. *)
Definition FSHAHash_at (Hash : list byte) (i : nat) : byte := nth i Hash x00.

(** The buffer is the UTF-8 conversion of [Input]; the size passed is
    [Input.Len()], the number of [TCHAR]s. *)
Definition ComputeSHA256 `{SecureHash} (Input : FString) : FString :=
  let Hash := FSHA1_HashBuffer (TCHAR_TO_UTF8 Input) (length Input) in
  fold_left
    (fun HashString i =>
       HashString ++ Printf (TEXT "%02x") [ArgUInt (Byte.to_N (FSHAHash_at Hash i))])
    (seq 0 20) [].

(** ** GUID operations *)

Definition GenerateGUID `{SecureHash}
    (Namespace EntityType Seed : FString) (Counter : Z) (EntityName : FString)
    (this : UAegisSeedSubsystem) : FString * UAegisSeedSubsystem :=
  let InputString :=
    Printf (TEXT "%s:%s:%s:%d:%s")
      [ArgStr Namespace; ArgStr EntityType; ArgStr Seed; ArgInt Counter;
       ArgStr EntityName] in
  let Hash := ComputeSHA256 InputString in
  let NamespaceCode := GetNamespaceCode Namespace in
  let GUID :=
    Printf (TEXT "%s-%s-%s-%s-%s")
      [ArgStr NamespaceCode;
       ArgStr (ToUpper (Mid Hash 0 8));
       ArgStr (ToUpper (Mid Hash 8 4));
       ArgStr (ToUpper (Mid Hash 12 4));
       ArgStr (ToUpper (Mid Hash 16 12))] in
  (GUID, this).

(** [UtcNow] is what [FDateTime::UtcNow()] returns at the call.  A
    [Contains] followed by [operator[]] on the same key is written as one
    [Find]. *)
Definition RegisterGUID
    (GUID EntityPath EntityType Metadata : FString) (UtcNow : Z)
    (this : UAegisSeedSubsystem) : bool * UAegisSeedSubsystem :=
  if match TMap_Find (GUIDRegistry this) GUID with
     | Some Existing => FAegisGUIDEntry.EntityPath Existing != EntityPath
     | None => false
     end
  then (false, this)
  else if match TMap_Find (PathToGUIDMap this) EntityPath with
          | Some ExistingGUID => ExistingGUID != GUID
          | None => false
          end
  then (false, this)
  else
    let Entry :=
      {| FAegisGUIDEntry.GUID := GUID;
         FAegisGUIDEntry.EntityPath := EntityPath;
         FAegisGUIDEntry.EntityType := EntityType;
         FAegisGUIDEntry.Metadata := Metadata;
         FAegisGUIDEntry.CreatedAt := UtcNow;
         FAegisGUIDEntry.Version :=
           match TMap_Find (GUIDRegistry this) GUID with
           | Some e => wrap_int32 (FAegisGUIDEntry.Version e + 1)
           | None => 1%Z
           end;
         FAegisGUIDEntry.EntityName :=
           match FindLastChar EntityPath (CHR "/") with
           | Some LastSlash => MidFrom EntityPath (LastSlash + 1)
           | None => EntityPath
           end |} in
    (true,
     {| GUIDRegistry := TMap_Add (GUIDRegistry this) GUID Entry;
        PathToGUIDMap := TMap_Add (PathToGUIDMap this) EntityPath GUID;
        SnapshotStorage := SnapshotStorage this;
        GlobalSeed := GlobalSeed this;
        SeedCounter := SeedCounter this |}).

Definition ResolveGUID (GUID : FString) (this : UAegisSeedSubsystem)
  : option FAegisGUIDEntry.t * UAegisSeedSubsystem :=
  (TMap_Find (GUIDRegistry this) GUID, this).

(** The name-based search of [VerifyGUIDEntity]. *)
Fixpoint VerifyGUIDEntity_search (It : list AActor) (EntityPath : FString)
  : bool :=
  match It with
  | [] => false
  | Actor :: It' =>
      if (GetPathName Actor == EntityPath) || (GetName Actor == EntityPath)
      then true
      else VerifyGUIDEntity_search It' EntityPath
  end.

Definition VerifyGUIDEntity (GEditor : option UEditorEngine)
    (GUID EntityPath : FString) (this : UAegisSeedSubsystem)
  : bool * UAegisSeedSubsystem :=
  let World :=
    match GEditor with
    | Some Editor => EditorWorld Editor
    | None => None
    end in
  match World with
  | None => (false, this)
  | Some World =>
      match CurrentLevel_FindObject_AActor World EntityPath with
      | None => (VerifyGUIDEntity_search (ActorIterator World) EntityPath, this)
      | Some _ => (true, this)
      end
  end.

Definition ClearGUIDRegistry (this : UAegisSeedSubsystem)
  : UAegisSeedSubsystem :=
  {| GUIDRegistry := TMap_Empty;
     PathToGUIDMap := TMap_Empty;
     SnapshotStorage := SnapshotStorage this;
     GlobalSeed := GlobalSeed this;
     SeedCounter := SeedCounter this |}.

Definition SetGlobalSeed (Seed : FString) (bResetCounter : bool)
    (this : UAegisSeedSubsystem) : UAegisSeedSubsystem :=
  let this1 :=
    {| GUIDRegistry := GUIDRegistry this;
       PathToGUIDMap := PathToGUIDMap this;
       SnapshotStorage := SnapshotStorage this;
       GlobalSeed := Seed;
       SeedCounter := SeedCounter this |} in
  if bResetCounter then
    {| GUIDRegistry := GUIDRegistry this1;
       PathToGUIDMap := PathToGUIDMap this1;
       SnapshotStorage := SnapshotStorage this1;
       GlobalSeed := GlobalSeed this1;
       SeedCounter := 0 |}
  else this1.

Definition GetGlobalSeed (this : UAegisSeedSubsystem) : FString :=
  GlobalSeed this.

Definition GetSeedCounter (this : UAegisSeedSubsystem) : Z :=
  SeedCounter this.

(** ** Snapshot store *)

Definition set_SnapshotStorage (m : TMap FString) (this : UAegisSeedSubsystem)
  : UAegisSeedSubsystem :=
  {| GUIDRegistry := GUIDRegistry this;
     PathToGUIDMap := PathToGUIDMap this;
     SnapshotStorage := m;
     GlobalSeed := GlobalSeed this;
     SeedCounter := SeedCounter this |}.

Definition StoreSnapshot (SnapshotId SnapshotData : FString)
    (this : UAegisSeedSubsystem) : bool * UAegisSeedSubsystem :=
  (true,
   set_SnapshotStorage (TMap_Add (SnapshotStorage this) SnapshotId SnapshotData)
     this).

Definition LoadSnapshot (SnapshotId : FString) (this : UAegisSeedSubsystem)
  : FString * UAegisSeedSubsystem :=
  match TMap_Find (SnapshotStorage this) SnapshotId with
  | Some Data => (Data, this)
  | None => (TEXT "", this)
  end.

Definition DeleteSnapshot (SnapshotId : FString) (this : UAegisSeedSubsystem)
  : bool * UAegisSeedSubsystem :=
  let '(Removed, m) := TMap_Remove (SnapshotStorage this) SnapshotId in
  let this' := set_SnapshotStorage m this in
  if (Removed >? 0)%Z then (true, this') else (false, this').

Definition ExportSnapshot `{FileHelper}
    (SnapshotId SnapshotData OutputPath : FString) (bCompress : bool)
    (Files : FileSystem) (this : UAegisSeedSubsystem)
  : bool * FileSystem * UAegisSeedSubsystem :=
  let DataToWrite := SnapshotData in
  let '(Saved, Files') :=
    FFileHelper_SaveStringToFile DataToWrite OutputPath Files in
  if Saved then (true, Files', this) else (false, Files', this).

(** ** State restoration stubs *)

Definition SyncWorldState `{JsonSerializer}
    (TargetSnapshotId TargetEntities : FString) (bCaptureCurrentFirst : bool)
    (ConflictResolution : FString) (bDryRun : bool)
    (this : UAegisSeedSubsystem) : FString * UAegisSeedSubsystem :=
  let Result := MakeShareable_FJsonObject in
  let Result := SetBoolField Result (TEXT "success") true in
  let Result := SetNumberField Result (TEXT "plannedChanges") 0 in
  (FJsonSerializer_Serialize Result, this).

Definition MergeWorldStates `{JsonSerializer}
    (SourceSnapshotId TargetSnapshotId Changes ConflictResolution : FString)
    (bPreserveSourceGUIDs : bool)
    (this : UAegisSeedSubsystem) : FString * UAegisSeedSubsystem :=
  let Result := MakeShareable_FJsonObject in
  let Result := SetBoolField Result (TEXT "success") true in
  let Result := SetNumberField Result (TEXT "appliedChanges") 0 in
  (FJsonSerializer_Serialize Result, this).

Definition ApplyDiff `{JsonSerializer}
    (DiffId Changes ConflictResolution : FString)
    (this : UAegisSeedSubsystem) : FString * UAegisSeedSubsystem :=
  let Result := MakeShareable_FJsonObject in
  let Result := SetBoolField Result (TEXT "success") true in
  let Result := SetNumberField Result (TEXT "appliedChanges") 0 in
  (FJsonSerializer_Serialize Result, this).

(** ** Sequences of calls *)

(** The calls that can change the subsystem object.  [GenerateGUID],
    [ResolveGUID], [VerifyGUIDEntity], [LoadSnapshot], [ExportSnapshot] and
    the three stubs hand the object back as they got it. *)
Inductive Call :=
| CallRegisterGUID (GUID EntityPath EntityType Metadata : FString) (UtcNow : Z)
| CallClearGUIDRegistry
| CallSetGlobalSeed (Seed : FString) (bResetCounter : bool)
| CallStoreSnapshot (SnapshotId SnapshotData : FString)
| CallDeleteSnapshot (SnapshotId : FString).

Definition run_call (this : UAegisSeedSubsystem) (c : Call)
  : UAegisSeedSubsystem :=
  match c with
  | CallRegisterGUID GUID EntityPath EntityType Metadata UtcNow =>
      snd (RegisterGUID GUID EntityPath EntityType Metadata UtcNow this)
  | CallClearGUIDRegistry => ClearGUIDRegistry this
  | CallSetGlobalSeed Seed bResetCounter => SetGlobalSeed Seed bResetCounter this
  | CallStoreSnapshot SnapshotId SnapshotData =>
      snd (StoreSnapshot SnapshotId SnapshotData this)
  | CallDeleteSnapshot SnapshotId => snd (DeleteSnapshot SnapshotId this)
  end.

Definition run_calls (calls : list Call) (this : UAegisSeedSubsystem)
  : UAegisSeedSubsystem := fold_left run_call calls this.

(** ** A SHA-1 to run the model with

    FIPS 180-4 SHA-1 over bytes, as an instance of [SecureHash], so that
    GUIDs can be computed on concrete inputs. *)
Module SHA1.
Definition w32 (x : N) : N := x mod 4294967296.
Definition add32 (x y : N) : N := w32 (x + y).
Definition rotl32 (n x : N) : N :=
  w32 (N.lor (N.shiftl x n) (N.shiftr x (32 - n))).
Definition not32 (x : N) : N := 4294967295 - x.

Definition be_bytes (k : nat) (x : N) : list N :=
  (fun i => N.shiftr x (8 * N.of_nat i) mod 256) <$> rev (seq 0 k).

Definition pad (msg : list N) : list N :=
  let l := length msg in
  msg ++ [0x80] ++ repeat 0 ((64 - (l + 9) mod 64) mod 64)%nat
      ++ be_bytes 8 (8 * N.of_nat l).

Fixpoint words (bs : list N) : list N :=
  match bs with
  | a :: b :: c :: d :: r => (((a * 256 + b) * 256 + c) * 256 + d) :: words r
  | _ => []
  end.

Fixpoint blocks (fuel : nat) (ws : list N) : list (list N) :=
  match fuel, ws with
  | S f, _ :: _ => firstn 16 ws :: blocks f (skipn 16 ws)
  | _, _ => []
  end.

(** The message schedule, most recent word first. *)
Fixpoint extend (n : nat) (ws : list N) : list N :=
  match n with
  | O => ws
  | S n' =>
      let w :=
        rotl32 1 (N.lxor (N.lxor (nth 2 ws 0) (nth 7 ws 0))
                         (N.lxor (nth 13 ws 0) (nth 15 ws 0))) in
      extend n' (w :: ws)
  end.

Definition schedule (block : list N) : list N :=
  rev (extend 64 (rev block)).

Definition State : Type := N * N * N * N * N.

Definition round (st : State) (tw : nat * N) : State :=
  let '(a, b, c, d, e) := st in
  let '(t, w) := tw in
  let '(f, k) :=
    if (t <? 20)%nat then
      (N.lor (N.land b c) (N.land (not32 b) d), 0x5A827999)
    else if (t <? 40)%nat then (N.lxor (N.lxor b c) d, 0x6ED9EBA1)
    else if (t <? 60)%nat then
      (N.lor (N.lor (N.land b c) (N.land b d)) (N.land c d), 0x8F1BBCDC)
    else (N.lxor (N.lxor b c) d, 0xCA62C1D6) in
  let temp := add32 (add32 (add32 (add32 (rotl32 5 a) f) e) k) w in
  (temp, a, rotl32 30 b, c, d).

Definition compress (h : State) (block : list N) : State :=
  let '(a, b, c, d, e) :=
    fold_left round (combine (seq 0 80) (schedule block)) h in
  let '(h0, h1, h2, h3, h4) := h in
  (add32 h0 a, add32 h1 b, add32 h2 c, add32 h3 d, add32 h4 e).

Definition init : State :=
  (0x67452301, 0xEFCDAB89, 0x98BADCFE, 0x10325476, 0xC3D2E1F0).

Definition digest (msg : list byte) : list byte :=
  let ws := words (pad (Byte.to_N <$> msg)) in
  let '(h0, h1, h2, h3, h4) :=
    fold_left compress (blocks (length ws) ws) init in
  uint8_of_N <$> (be_bytes 4 h0 ++ be_bytes 4 h1 ++ be_bytes 4 h2
                    ++ be_bytes 4 h3 ++ be_bytes 4 h4).
End SHA1.

#[export] Instance EngineSHA1 : SecureHash := {| FSHA1_Digest := SHA1.digest |}.

(** Shows an [FString] of 8-bit characters as a [string], for examples. *)
Definition show (s : FString) : string :=
  string_of_list_ascii (ascii_of_N <$> s).

(** ** [UAegisSubsystem::FindActorByPath] (AegisSubsystem.cpp) *)

(** The name-based search of [FindActorByPath]. *)
Fixpoint FindActorByPath_search (It : list AActor) (ActorPath : FString)
  : option AActor :=
  match It with
  | [] => None
  | Actor :: It' =>
      if (GetName Actor == ActorPath) || (GetPathName Actor == ActorPath)
      then Some Actor
      else FindActorByPath_search It' ActorPath
  end.

(** [nullptr] is [None]. *)
Definition FindActorByPath (GEditor : option UEditorEngine)
    (ActorPath : FString) : option AActor :=
  let World :=
    match GEditor with
    | Some Editor => EditorWorld Editor
    | None => None
    end in
  match World with
  | None => None
  | Some World =>
      match CurrentLevel_FindObject_AActor World ActorPath with
      | Some Actor => Some Actor
      | None => FindActorByPath_search (ActorIterator World) ActorPath
      end
  end.

(** * The rest of the plugin *)

(** ** Substring search *)

(** [sub] is at the start of [s], up to the case of ASCII letters. *)
Fixpoint StartsWithIgnoreCase (s sub : FString) : bool :=
  match sub, s with
  | [], _ => true
  | _ :: _, [] => false
  | c :: sub', x :: s' =>
      (ToLowerAscii x =? ToLowerAscii c) && StartsWithIgnoreCase s' sub'
  end.

Fixpoint FindIgnoreCase (s sub : FString) : bool :=
  StartsWithIgnoreCase s sub
  || match s with
     | [] => false
     | _ :: s' => FindIgnoreCase s' sub
     end.

(** Whether [FString::Contains] finds the empty string differs between engine
    versions. *)
Class StringSearch := {
  Contains_EmptySubStr : bool;
}.

(** [FString::Contains(SubStr)], with its default
    [ESearchCase::IgnoreCase]. *)
Definition FString_Contains `{StringSearch} (s SubStr : FString) : bool :=
  match SubStr with
  | [] => Contains_EmptySubStr
  | _ :: _ => FindIgnoreCase s SubStr
  end.

(** ** JSON documents *)

(** The engine's [double], with the two conversions the plugin makes:
    an integer passed where a double is expected, and the [(int32)] cast in
    [GetIntegerField]. *)
Class EngineDouble := {
  double : Type;
  double_of_Z : Z -> double;
  double_to_int32 : double -> Z;
}.

Set Warnings "-register-all".

Module Json.
Section Json.
Context `{EngineDouble}.

(** [FJsonValue] with all its kinds; an object keeps its fields in the order
    they were first set. *)
Inductive Value :=
| VNull
| VBoolean (b : bool)
| VNumber (x : double)
| VString (s : FString)
| VArray (a : list Value)
| VObject (o : list (FString * Value)).

Definition Object := list (FString * Value).

(** [Values.Find(FieldName)]: field names are [TMap] keys. *)
Fixpoint Find (o : Object) (FieldName : FString) : option Value :=
  match o with
  | [] => None
  | (k, v) :: o' => if k == FieldName then Some v else Find o' FieldName
  end.

(** [Values.Add(FieldName, Value)] *)
Fixpoint SetField (o : Object) (FieldName : FString) (v : Value) : Object :=
  match o with
  | [] => [(FieldName, v)]
  | (k, x) :: o' =>
      if k == FieldName then (FieldName, v) :: o'
      else (k, x) :: SetField o' FieldName v
  end.

Definition SetBoolField (o : Object) (n : FString) (b : bool) : Object :=
  SetField o n (VBoolean b).
Definition SetStringField (o : Object) (n : FString) (s : FString) : Object :=
  SetField o n (VString s).
Definition SetNumberField (o : Object) (n : FString) (x : double) : Object :=
  SetField o n (VNumber x).
Definition SetArrayField (o : Object) (n : FString) (a : list Value) : Object :=
  SetField o n (VArray a).
Definition SetObjectField (o : Object) (n : FString) (x : Object) : Object :=
  SetField o n (VObject x).

(** [TryGetArrayField], [TryGetObjectField], [TryGetArray],
    [TryGetObject]: present and of that kind. *)
Definition TryGetArray (v : Value) : option (list Value) :=
  match v with VArray a => Some a | _ => None end.

Definition TryGetObject (v : Value) : option Object :=
  match v with VObject o => Some o | _ => None end.

Definition TryGetArrayField (o : Object) (n : FString) : option (list Value) :=
  Find o n ≫= TryGetArray.

Definition TryGetObjectField (o : Object) (n : FString) : option Object :=
  Find o n ≫= TryGetObject.

End Json.
End Json.

(** Json.h: the writer, the two readers, and the conversions of a value to a
    string and to a number. *)
Class JsonIO `{EngineDouble} := {
  (** [FJsonSerializer::Serialize(Object, Writer)] into a string *)
  Json_Serialize : Json.Object -> FString;
  (** [FJsonSerializer::Deserialize(Reader, TSharedPtr<FJsonObject>&)]:
      the object when it returns [true] *)
  Json_DeserializeObject : FString -> option Json.Object;
  (** [FJsonSerializer::Deserialize(Reader, TSharedPtr<FJsonValue>&)] *)
  Json_DeserializeValue : FString -> option Json.Value;
  (** [FJsonValue::AsString], [FJsonValue::AsNumber] *)
  Json_AsString : Json.Value -> FString;
  Json_AsNumber : Json.Value -> double;
}.

(** A field that is not there reads as [FJsonValueNull]. *)
Definition Json_GetField `{EngineDouble} (o : Json.Object) (n : FString)
  : Json.Value := default Json.VNull (Json.Find o n).

Definition Json_GetStringField `{JsonIO} (o : Json.Object) (n : FString)
  : FString := Json_AsString (Json_GetField o n).

Definition Json_GetNumberField `{JsonIO} (o : Json.Object) (n : FString)
  : double := Json_AsNumber (Json_GetField o n).

Definition Json_GetIntegerField `{JsonIO} (o : Json.Object) (n : FString)
  : Z := double_to_int32 (Json_GetNumberField o n).

(** ** More of the editor world *)

(** What the plugin reads off an actor and off the world beyond names and
    path names. *)
Class WorldInfo `{EngineDouble} := {
  (** [GetClass()->GetName()] *)
  Actor_ClassName : AActor -> FString;
  (** [Tags], each through [FName::ToString] *)
  Actor_Tags : AActor -> list FString;
  (** [GetComponents()]: name and class name of each *)
  Actor_Components : AActor -> list (FString * FString);
  (** [GetActorLocation()]: X, Y, Z *)
  Actor_Location : AActor -> double * double * double;
  (** [GetActorRotation()]: Pitch, Yaw, Roll *)
  Actor_Rotation : AActor -> double * double * double;
  (** [GetActorScale3D()]: X, Y, Z *)
  Actor_Scale : AActor -> double * double * double;
  (** the classes [TActorIterator<ALandscapeProxy>] and
      [TActorIterator<AInstancedFoliageActor>] select *)
  Actor_IsLandscapeProxy : AActor -> bool;
  Actor_IsInstancedFoliageActor : AActor -> bool;
  (** [GetBoundingRect()]: width and height *)
  Landscape_BoundingRect : AActor -> Z * Z;
  World_GetName : UWorld -> FString;
  World_GetMapName : UWorld -> FString;
  World_CurrentLevelName : UWorld -> FString;
  (** [FApp::GetProjectName()], [FEngineVersion::Current().ToString()] *)
  App_ProjectName : FString;
  EngineVersion_Current : FString;
}.

(** [GEditor ? GEditor->GetEditorWorldContext().World() : nullptr] *)
Definition GEditor_World (GEditor : option UEditorEngine) : option UWorld :=
  match GEditor with
  | Some Editor => EditorWorld Editor
  | None => None
  end.

Section Capture.
Context `{JsonIO} `{!WorldInfo} `{StringSearch} `{SecureHash}.

(** ** State capture (AegisSeedSubsystem.cpp, "State Capture Operations") *)

Definition Vector_ToJson (v : double * double * double) : Json.Object :=
  let o := [] in
  let o := Json.SetNumberField o (TEXT "x") v.1.1 in
  let o := Json.SetNumberField o (TEXT "y") v.1.2 in
  Json.SetNumberField o (TEXT "z") v.2.

Definition Rotator_ToJson (r : double * double * double) : Json.Object :=
  let o := [] in
  let o := Json.SetNumberField o (TEXT "pitch") r.1.1 in
  let o := Json.SetNumberField o (TEXT "yaw") r.1.2 in
  Json.SetNumberField o (TEXT "roll") r.2.

Definition Component_ToJson (c : FString * FString) : Json.Value :=
  let o := [] in
  let o := Json.SetStringField o (TEXT "name") c.1 in
  Json.VObject (Json.SetStringField o (TEXT "class") c.2).

(** The class filter: some filter string is contained in the class name. *)
Fixpoint MatchesClass (Actor : AActor) (ClassFilter : list FString) : bool :=
  match ClassFilter with
  | [] => false
  | ClassFilterStr :: rest =>
      if FString_Contains (Actor_ClassName Actor) ClassFilterStr then true
      else MatchesClass Actor rest
  end.

(** The tag filter: every filter tag equals some tag of the actor. *)
Fixpoint HasAllTags (Actor : AActor) (TagFilter : list FString) : bool :=
  match TagFilter with
  | [] => true
  | Tag :: rest =>
      if negb (existsb (fun ActorTag => ActorTag == Tag) (Actor_Tags Actor))
      then false
      else HasAllTags Actor rest
  end.

(** The body of the loop of [CaptureAllActors], after the filters. *)
Definition CaptureAllActors_ActorObj (Actor : AActor)
    (this : UAegisSeedSubsystem) : Json.Object :=
  let ActorObj := [] in
  let ExistingGUID := TMap_Find (PathToGUIDMap this) (GetPathName Actor) in
  let ActorObj :=
    Json.SetStringField ActorObj (TEXT "guid")
      (match ExistingGUID with Some g => g | None => TEXT "" end) in
  let ActorObj := Json.SetStringField ActorObj (TEXT "name") (GetName Actor) in
  let ActorObj :=
    Json.SetStringField ActorObj (TEXT "class") (Actor_ClassName Actor) in
  let ActorObj :=
    Json.SetStringField ActorObj (TEXT "path") (GetPathName Actor) in
  let TransformObj := [] in
  let TransformObj :=
    Json.SetObjectField TransformObj (TEXT "location")
      (Vector_ToJson (Actor_Location Actor)) in
  let TransformObj :=
    Json.SetObjectField TransformObj (TEXT "rotation")
      (Rotator_ToJson (Actor_Rotation Actor)) in
  let TransformObj :=
    Json.SetObjectField TransformObj (TEXT "scale")
      (Vector_ToJson (Actor_Scale Actor)) in
  let ActorObj := Json.SetObjectField ActorObj (TEXT "transform") TransformObj in
  let ActorObj :=
    Json.SetArrayField ActorObj (TEXT "tags")
      (Json.VString <$> Actor_Tags Actor) in
  Json.SetArrayField ActorObj (TEXT "components")
    (Component_ToJson <$> Actor_Components Actor).

Fixpoint CaptureAllActors_loop (It : list AActor)
    (ClassFilter TagFilter : list FString) (this : UAegisSeedSubsystem)
  : list Json.Value :=
  match It with
  | [] => []
  | Actor :: It' =>
      if (0 <? length ClassFilter)%nat && negb (MatchesClass Actor ClassFilter)
      then CaptureAllActors_loop It' ClassFilter TagFilter this
      else if (0 <? length TagFilter)%nat && negb (HasAllTags Actor TagFilter)
      then CaptureAllActors_loop It' ClassFilter TagFilter this
      else Json.VObject (CaptureAllActors_ActorObj Actor this)
             :: CaptureAllActors_loop It' ClassFilter TagFilter this
  end.

Definition CaptureAllActors (GEditor : option UEditorEngine)
    (ClassFilter TagFilter : list FString) (this : UAegisSeedSubsystem)
  : FString * UAegisSeedSubsystem :=
  match GEditor_World GEditor with
  | None => (TEXT "{}", this)
  | Some World =>
      let ActorArray :=
        CaptureAllActors_loop (ActorIterator World) ClassFilter TagFilter this in
      let Result := Json.SetArrayField [] (TEXT "actors") ActorArray in
      (Json_Serialize Result, this)
  end.

Definition CaptureLandscape_LandscapeObj (Landscape : AActor)
    (bIncludeHeightmap bIncludeLayers : bool) : Json.Object :=
  let LandscapeObj := [] in
  let LandscapeObj :=
    Json.SetStringField LandscapeObj (TEXT "name") (GetName Landscape) in
  let LandscapeObj :=
    Json.SetStringField LandscapeObj (TEXT "path") (GetPathName Landscape) in
  let TransformObj := [] in
  let TransformObj :=
    Json.SetObjectField TransformObj (TEXT "location")
      (Vector_ToJson (Actor_Location Landscape)) in
  let TransformObj :=
    Json.SetObjectField TransformObj (TEXT "rotation")
      (Rotator_ToJson (Actor_Rotation Landscape)) in
  let LandscapeObj :=
    Json.SetObjectField LandscapeObj (TEXT "transform") TransformObj in
  let Bounds := Landscape_BoundingRect Landscape in
  let LandscapeObj :=
    Json.SetNumberField LandscapeObj (TEXT "sizeX") (double_of_Z Bounds.1) in
  let LandscapeObj :=
    Json.SetNumberField LandscapeObj (TEXT "sizeY") (double_of_Z Bounds.2) in
  let LandscapeObj :=
    if bIncludeHeightmap then
      Json.SetStringField LandscapeObj (TEXT "heightmapHash")
        (ComputeSHA256 (GetName Landscape))
    else LandscapeObj in
  if bIncludeLayers then Json.SetArrayField LandscapeObj (TEXT "layers") []
  else LandscapeObj.

Definition CaptureLandscape (GEditor : option UEditorEngine)
    (bIncludeHeightmap bIncludeLayers : bool) (this : UAegisSeedSubsystem)
  : FString * UAegisSeedSubsystem :=
  match GEditor_World GEditor with
  | None => (TEXT "{}", this)
  | Some World =>
      let LandscapeArray :=
        (fun Landscape =>
           Json.VObject
             (CaptureLandscape_LandscapeObj Landscape bIncludeHeightmap
                bIncludeLayers))
          <$> filter (fun a => Actor_IsLandscapeProxy a = true)
                (ActorIterator World) in
      let Result := Json.SetArrayField [] (TEXT "landscapes") LandscapeArray in
      (Json_Serialize Result, this)
  end.

Definition CaptureFoliage_FoliageObj (Foliage : AActor)
    (bIncludeInstances : bool) : Json.Object :=
  let FoliageObj := [] in
  let FoliageObj :=
    Json.SetStringField FoliageObj (TEXT "name") (GetName Foliage) in
  let FoliageObj :=
    Json.SetStringField FoliageObj (TEXT "path") (GetPathName Foliage) in
  let InstanceCount := 0%Z in
  let FoliageObj :=
    Json.SetNumberField FoliageObj (TEXT "instanceCount")
      (double_of_Z InstanceCount) in
  if bIncludeInstances then
    Json.SetStringField FoliageObj (TEXT "instanceDataHash")
      (ComputeSHA256 (GetName Foliage))
  else FoliageObj.

Definition CaptureFoliage (GEditor : option UEditorEngine)
    (bIncludeInstances : bool) (this : UAegisSeedSubsystem)
  : FString * UAegisSeedSubsystem :=
  match GEditor_World GEditor with
  | None => (TEXT "{}", this)
  | Some World =>
      let FoliageArray :=
        (fun Foliage =>
           Json.VObject (CaptureFoliage_FoliageObj Foliage bIncludeInstances))
          <$> filter (fun a => Actor_IsInstancedFoliageActor a = true)
                (ActorIterator World) in
      let Result := Json.SetArrayField [] (TEXT "foliageActors") FoliageArray in
      (Json_Serialize Result, this)
  end.

Definition GetCurrentLevelInfo (GEditor : option UEditorEngine)
    (this : UAegisSeedSubsystem) : FString * UAegisSeedSubsystem :=
  let Result := [] in
  let Result :=
    match GEditor_World GEditor with
    | Some World =>
        let Result :=
          Json.SetStringField Result (TEXT "worldName") (World_GetName World) in
        let Result :=
          Json.SetStringField Result (TEXT "mapName") (World_GetMapName World) in
        let Result :=
          Json.SetStringField Result (TEXT "levelName")
            (World_CurrentLevelName World) in
        let Result :=
          Json.SetStringField Result (TEXT "projectName") App_ProjectName in
        Json.SetStringField Result (TEXT "engineVersion") EngineVersion_Current
    | None => Result
    end in
  (Json_Serialize Result, this).

End Capture.

(** ** Snapshot listing and import (AegisSeedSubsystem.cpp) *)

Module FAegisWorldSnapshot.
Record t := mk {
  SnapshotId : FString;
  Name : FString;
  Description : FString;
  Timestamp : Z;        (* FDateTime ticks *)
  Checksum : FString;
  EntityCount : Z;      (* int32 *)
}.
End FAegisWorldSnapshot.

(** The body of the loop of [ListSnapshots]; a default-constructed
    [FAegisWorldSnapshot] has empty strings, zero ticks and
    [EntityCount = 0]. *)
Definition ListSnapshots_Snapshot `{JsonIO} (Pair : FString * FString)
  : FAegisWorldSnapshot.t :=
  match Json_DeserializeObject Pair.2 with
  | Some JsonObj =>
      {| FAegisWorldSnapshot.SnapshotId := Pair.1;
         FAegisWorldSnapshot.Name := Json_GetStringField JsonObj (TEXT "name");
         FAegisWorldSnapshot.Description :=
           Json_GetStringField JsonObj (TEXT "description");
         FAegisWorldSnapshot.Timestamp := 0;
         FAegisWorldSnapshot.Checksum :=
           Json_GetStringField JsonObj (TEXT "checksum");
         FAegisWorldSnapshot.EntityCount :=
           match Json.TryGetArrayField JsonObj (TEXT "entities") with
           | Some Entities => Z.of_nat (length Entities)
           | None => 0%Z
           end |}
  | None =>
      {| FAegisWorldSnapshot.SnapshotId := Pair.1;
         FAegisWorldSnapshot.Name := [];
         FAegisWorldSnapshot.Description := [];
         FAegisWorldSnapshot.Timestamp := 0;
         FAegisWorldSnapshot.Checksum := [];
         FAegisWorldSnapshot.EntityCount := 0 |}
  end.

(** The snapshots come in the order in which the map is iterated; [Slot]
    gives the slots of [SnapshotStorage] at the call. *)
Definition ListSnapshots `{JsonIO} (Slot : FString -> nat)
    (this : UAegisSeedSubsystem)
  : list FAegisWorldSnapshot.t * UAegisSeedSubsystem :=
  (ListSnapshots_Snapshot <$> TMap_Iterate Slot (SnapshotStorage this), this).

(** [FFileHelper::LoadFileToString(Result, Filename)]: the string when it
    returns [true]. *)
Class FileLoader `{FileHelper} := {
  FFileHelper_LoadFileToString : FString -> FileSystem -> option FString;
}.

Definition ImportSnapshot `{FileLoader} (InputPath : FString)
    (Files : FileSystem) (this : UAegisSeedSubsystem)
  : FString * UAegisSeedSubsystem :=
  match FFileHelper_LoadFileToString InputPath Files with
  | Some SnapshotData => (SnapshotData, this)
  | None => (TEXT "", this)
  end.

(** ** State restoration (AegisSeedSubsystem.cpp) *)

(** What [RestoreWorldState] asks of the editor: class lookup, spawning,
    scaling, the transaction brackets and the clock.  The editor's state
    (its world, its undo buffer, its loaded classes) is threaded through. *)
Class EditorOps `{EngineDouble} := {
  EditorState : Type;
  UClass : Type;
  (** [FindObject<UClass>(nullptr, *ClassName)] *)
  FindObject_UClass : FString -> EditorState -> option UClass;
  (** [LoadClass<AActor>(nullptr, *ClassName)] *)
  LoadClass_AActor : FString -> EditorState -> option UClass * EditorState;
  (** [GEditor->BeginTransaction(Description)], [GEditor->EndTransaction()] *)
  GEditor_BeginTransaction : FString -> EditorState -> EditorState;
  GEditor_EndTransaction : EditorState -> EditorState;
  (** [World->SpawnActor<AActor>(Class, Location, Rotation, SpawnParams)]
      with [SpawnParams.Name] *)
  World_SpawnActor :
    UClass -> double * double * double -> double * double * double ->
    FString -> EditorState -> option AActor * EditorState;
  (** [Actor->SetActorScale3D(Scale)] *)
  Actor_SetActorScale3D :
    AActor -> double * double * double -> EditorState -> EditorState;
  (** [FDateTime::UtcNow()] *)
  FDateTime_UtcNow : EditorState -> Z;
}.

Section Restore.
Context `{JsonIO} `{!EditorOps}.

Definition ReadVector (Obj : Json.Object) (n1 n2 n3 : FString)
  : double * double * double :=
  (Json_GetNumberField Obj n1, Json_GetNumberField Obj n2,
   Json_GetNumberField Obj n3).

(** One entity of the loop of [RestoreWorldState]. *)
Definition RestoreWorldState_entity (EntityValue : Json.Value)
    (bPreserveGUIDs : bool)
    (st : EditorState * UAegisSeedSubsystem * Z)
  : EditorState * UAegisSeedSubsystem * Z :=
  let '(E, this, RestoredCount) := st in
  match Json.TryGetObject EntityValue with
  | None => st
  | Some EntityObj =>
      let ClassName := Json_GetStringField EntityObj (TEXT "class") in
      let EntityName := Json_GetStringField EntityObj (TEXT "name") in
      let EntityGUID := Json_GetStringField EntityObj (TEXT "guid") in
      let Zero := double_of_Z 0 in
      let One := double_of_Z 1 in
      let '(Location, Rotation, Scale) :=
        match Json.TryGetObjectField EntityObj (TEXT "transform") with
        | Some TransformObj =>
            (match Json.TryGetObjectField TransformObj (TEXT "location") with
             | Some LocObj => ReadVector LocObj (TEXT "x") (TEXT "y") (TEXT "z")
             | None => (Zero, Zero, Zero)
             end,
             match Json.TryGetObjectField TransformObj (TEXT "rotation") with
             | Some RotObj =>
                 ReadVector RotObj (TEXT "pitch") (TEXT "yaw") (TEXT "roll")
             | None => (Zero, Zero, Zero)
             end,
             match Json.TryGetObjectField TransformObj (TEXT "scale") with
             | Some ScaleObj =>
                 ReadVector ScaleObj (TEXT "x") (TEXT "y") (TEXT "z")
             | None => (One, One, One)
             end)
        | None => ((Zero, Zero, Zero), (Zero, Zero, Zero), (One, One, One))
        end in
      let '(ActorClass, E) :=
        match FindObject_UClass ClassName E with
        | Some C => (Some C, E)
        | None => LoadClass_AActor ClassName E
        end in
      match ActorClass with
      | None => (E, this, RestoredCount)
      | Some ActorClass =>
          let '(Actor, E) :=
            World_SpawnActor ActorClass Location Rotation EntityName E in
          match Actor with
          | None => (E, this, RestoredCount)
          | Some Actor =>
              let E := Actor_SetActorScale3D Actor Scale E in
              let this :=
                if bPreserveGUIDs && negb (bool_decide (EntityGUID = [])) then
                  (RegisterGUID EntityGUID (GetPathName Actor) ClassName
                     (TEXT "{}") (FDateTime_UtcNow E) this).2
                else this in
              (E, this, wrap_int32 (RestoredCount + 1))
          end
      end
  end.

Definition RestoreWorldState (GEditor : option UEditorEngine)
    (SnapshotId Entities MergeMode : FString) (bPreserveGUIDs : bool)
    (E : EditorState) (this : UAegisSeedSubsystem)
  : bool * EditorState * UAegisSeedSubsystem :=
  match GEditor_World GEditor with
  | None => (false, E, this)
  | Some World =>
      match Json_DeserializeValue Entities with
      | None => (false, E, this)
      | Some JsonValue =>
          match Json.TryGetArray JsonValue with
          | None => (false, E, this)
          | Some EntityArray =>
              let E :=
                GEditor_BeginTransaction (TEXT "AEGIS Restore World State") E in
              let '(E, this, RestoredCount) :=
                fold_left
                  (fun st EntityValue =>
                     RestoreWorldState_entity EntityValue bPreserveGUIDs st)
                  EntityArray (E, this, 0%Z) in
              let E := GEditor_EndTransaction E in
              (true, E, this)
          end
      end
  end.

End Restore.

(** ** [UAegisSubsystem] (AegisSubsystem.cpp): results, actor JSON, queries *)

Module FAegisCommandResult.
Record t := mk {
  bSuccess : bool;
  Message : FString;
  Data : FString;
  ErrorCode : FString;
}.
End FAegisCommandResult.

(** [Data] is [nullptr] when no data is passed. *)
Definition MakeSuccess `{JsonIO} (Message : FString) (Data : option Json.Object)
  : FAegisCommandResult.t :=
  {| FAegisCommandResult.bSuccess := true;
     FAegisCommandResult.Message := Message;
     FAegisCommandResult.Data :=
       match Data with
       | Some Data => Json_Serialize Data
       | None => []
       end;
     FAegisCommandResult.ErrorCode := [] |}.

Definition MakeError (Message ErrorCode : FString) : FAegisCommandResult.t :=
  {| FAegisCommandResult.bSuccess := false;
     FAegisCommandResult.Message := Message;
     FAegisCommandResult.Data := [];
     FAegisCommandResult.ErrorCode := ErrorCode |}.

Section Subsystem.
Context `{JsonIO} `{!WorldInfo} `{StringSearch}.

Definition ActorToJson (Actor : AActor)
    (bIncludeComponents bIncludeProperties : bool) : Json.Object :=
  let ActorObj := [] in
  let ActorObj := Json.SetStringField ActorObj (TEXT "name") (GetName Actor) in
  let ActorObj :=
    Json.SetStringField ActorObj (TEXT "class") (Actor_ClassName Actor) in
  let ActorObj :=
    Json.SetStringField ActorObj (TEXT "path") (GetPathName Actor) in
  let TransformObj := [] in
  let TransformObj :=
    Json.SetObjectField TransformObj (TEXT "location")
      (Vector_ToJson (Actor_Location Actor)) in
  let TransformObj :=
    Json.SetObjectField TransformObj (TEXT "rotation")
      (Rotator_ToJson (Actor_Rotation Actor)) in
  let TransformObj :=
    Json.SetObjectField TransformObj (TEXT "scale")
      (Vector_ToJson (Actor_Scale Actor)) in
  let ActorObj := Json.SetObjectField ActorObj (TEXT "transform") TransformObj in
  let ActorObj :=
    Json.SetArrayField ActorObj (TEXT "tags")
      (Json.VString <$> Actor_Tags Actor) in
  if bIncludeComponents then
    Json.SetArrayField ActorObj (TEXT "components")
      (Component_ToJson <$> Actor_Components Actor)
  else ActorObj.

Fixpoint QueryActors_loop (It : list AActor) (ClassFilter NameFilter : FString)
    (Tags : list FString) : list Json.Value :=
  match It with
  | [] => []
  | Actor :: It' =>
      if negb (bool_decide (ClassFilter = []))
         && negb (FString_Contains (Actor_ClassName Actor) ClassFilter)
      then QueryActors_loop It' ClassFilter NameFilter Tags
      else if negb (bool_decide (NameFilter = []))
              && negb (FString_Contains (GetName Actor) NameFilter)
      then QueryActors_loop It' ClassFilter NameFilter Tags
      else if (0 <? length Tags)%nat && negb (HasAllTags Actor Tags)
      then QueryActors_loop It' ClassFilter NameFilter Tags
      else Json.VObject (ActorToJson Actor false false)
             :: QueryActors_loop It' ClassFilter NameFilter Tags
  end.

Definition QueryActors (GEditor : option UEditorEngine)
    (ClassFilter NameFilter : FString) (Tags : list FString)
  : FAegisCommandResult.t :=
  match GEditor_World GEditor with
  | None => MakeError (TEXT "No valid world context") (TEXT "NO_WORLD")
  | Some World =>
      let ActorArray :=
        QueryActors_loop (ActorIterator World) ClassFilter NameFilter Tags in
      let ResultData := Json.SetArrayField [] (TEXT "actors") ActorArray in
      let ResultData :=
        Json.SetNumberField ResultData (TEXT "count")
          (double_of_Z (Z.of_nat (length ActorArray))) in
      MakeSuccess
        (Printf (TEXT "Found %d actors")
           [ArgInt (Z.of_nat (length ActorArray))])
        (Some ResultData)
  end.

Definition GetActorInfo (GEditor : option UEditorEngine) (ActorPath : FString)
    (bIncludeComponents bIncludeProperties : bool) : FAegisCommandResult.t :=
  match FindActorByPath GEditor ActorPath with
  | None =>
      MakeError (Printf (TEXT "Actor not found: %s") [ArgStr ActorPath])
        (TEXT "ACTOR_NOT_FOUND")
  | Some Actor =>
      MakeSuccess (TEXT "Actor info retrieved")
        (Some (ActorToJson Actor bIncludeComponents bIncludeProperties))
  end.

End Subsystem.

(** ** [UAegisRemoteControlHandler] (AegisRemoteControlHandler.cpp) *)

(** [UAegisSubsystem::Get()] and [UAegisSeedSubsystem::Get()]: the editor's
    subsystem instance, if there is an editor. *)
Definition EditorSubsystem_Get {A} (GEditor : option UEditorEngine)
    (Instance : option A) : option A :=
  match GEditor with
  | Some _ => Instance
  | None => None
  end.

Module UAegisRemoteControlHandler.
Record t := mk { bIsReady : bool }.

Definition Initialize (self : t) : t :=
  if bIsReady self then self else {| bIsReady := true |}.

Definition Shutdown (self : t) : t :=
  if negb (bIsReady self) then self else {| bIsReady := false |}.

Definition IsReady (self : t) : bool := bIsReady self.

Section HandleRequest.
Context `{JsonIO} `{!WorldInfo} `{StringSearch} `{SecureHash}.

(** [ParamsObj ? ParamsObj->GetStringField(Name) : Default] *)
Definition ParamString (ParamsObj : option Json.Object) (Name Default : FString)
  : FString :=
  match ParamsObj with
  | Some o => Json_GetStringField o Name
  | None => Default
  end.

(** The strings of an array parameter, none when it is not there. *)
Definition ParamStrings (ParamsObj : option Json.Object) (Name : FString)
  : list FString :=
  match ParamsObj ≫= (fun o => Json.TryGetArrayField o Name) with
  | Some a => Json_AsString <$> a
  | None => []
  end.

(** [AegisSubsystem] tells whether the editor has a [UAegisSubsystem];
    [SeedSubsystem] is the editor's [UAegisSeedSubsystem], handed back as the
    request leaves it. *)
Definition HandleRequest (GEditor : option UEditorEngine)
    (AegisSubsystem : option unit)
    (ObjectPath FunctionName Parameters : FString) (UtcNow : Z)
    (SeedSubsystem : option UAegisSeedSubsystem) (self : t)
  : FString * option UAegisSeedSubsystem * t :=
  let Result : Json.Object := [] in
  let ParamsObj :=
    if negb (bool_decide (Parameters = []))
    then Json_DeserializeObject Parameters
    else None in
  let '(Result, SeedSubsystem) :=
    if FString_Contains ObjectPath (TEXT "AegisSubsystem") then
      match EditorSubsystem_Get GEditor AegisSubsystem with
      | None =>
          let Result := Json.SetBoolField Result (TEXT "success") false in
          (Json.SetStringField Result (TEXT "error")
             (TEXT "AegisSubsystem not available"), SeedSubsystem)
      | Some _ =>
          let Result := Json.SetBoolField Result (TEXT "success") true in
          (Json.SetStringField Result (TEXT "message")
             (TEXT "Request handled"), SeedSubsystem)
      end
    else if FString_Contains ObjectPath (TEXT "AegisSeedSubsystem") then
      match EditorSubsystem_Get GEditor SeedSubsystem with
      | None =>
          let Result := Json.SetBoolField Result (TEXT "success") false in
          (Json.SetStringField Result (TEXT "error")
             (TEXT "AegisSeedSubsystem not available"), SeedSubsystem)
      | Some Seed =>
          if FunctionName == TEXT "GenerateGUID" then
            let Namespace := ParamString ParamsObj (TEXT "Namespace") (TEXT "") in
            let EntityType := ParamString ParamsObj (TEXT "EntityType") (TEXT "") in
            let Seed' := ParamString ParamsObj (TEXT "Seed") (TEXT "") in
            let Counter :=
              match ParamsObj with
              | Some o => Json_GetIntegerField o (TEXT "Counter")
              | None => 0%Z
              end in
            let EntityName := ParamString ParamsObj (TEXT "EntityName") (TEXT "") in
            let '(GUID, Seed) :=
              GenerateGUID Namespace EntityType Seed' Counter EntityName Seed in
            let Result := Json.SetBoolField Result (TEXT "success") true in
            (Json.SetStringField Result (TEXT "guid") GUID, Some Seed)
          else if FunctionName == TEXT "RegisterGUID" then
            let GUID := ParamString ParamsObj (TEXT "GUID") (TEXT "") in
            let EntityPath := ParamString ParamsObj (TEXT "EntityPath") (TEXT "") in
            let EntityType := ParamString ParamsObj (TEXT "EntityType") (TEXT "") in
            let Metadata := ParamString ParamsObj (TEXT "Metadata") (TEXT "{}") in
            let '(bSuccess, Seed) :=
              RegisterGUID GUID EntityPath EntityType Metadata UtcNow Seed in
            (Json.SetBoolField Result (TEXT "success") bSuccess, Some Seed)
          else if FunctionName == TEXT "CaptureAllActors" then
            let ClassFilter := ParamStrings ParamsObj (TEXT "ClassFilter") in
            let TagFilter := ParamStrings ParamsObj (TEXT "TagFilter") in
            let '(CaptureResult, Seed) :=
              CaptureAllActors GEditor ClassFilter TagFilter Seed in
            let Result := Json.SetBoolField Result (TEXT "success") true in
            (match Json_DeserializeObject CaptureResult with
             | Some CaptureData =>
                 Json.SetObjectField Result (TEXT "data") CaptureData
             | None => Result
             end, Some Seed)
          else if FunctionName == TEXT "GetCurrentLevelInfo" then
            let '(LevelInfo, Seed) := GetCurrentLevelInfo GEditor Seed in
            let Result := Json.SetBoolField Result (TEXT "success") true in
            (match Json_DeserializeObject LevelInfo with
             | Some LevelData =>
                 Json.SetObjectField Result (TEXT "data") LevelData
             | None => Result
             end, Some Seed)
          else
            let Result := Json.SetBoolField Result (TEXT "success") false in
            (Json.SetStringField Result (TEXT "error")
               (Printf (TEXT "Unknown function: %s") [ArgStr FunctionName]),
             Some Seed)
      end
    else
      let Result := Json.SetBoolField Result (TEXT "success") false in
      (Json.SetStringField Result (TEXT "error")
         (Printf (TEXT "Unknown object path: %s") [ArgStr ObjectPath]),
       SeedSubsystem) in
  (Json_Serialize Result, SeedSubsystem, self).

End HandleRequest.
End UAegisRemoteControlHandler.

(** ** [FAegisBridgeModule] and [UAegisWebSocketServer] *)

Module FAegisBridgeModule.
(** The ports and the connection flag; the delegate handles are left out. *)
Record t := mk {
  HttpServerPort : Z;
  WebSocketServerPort : Z;
  bBridgeConnected : bool;
}.

Definition New : t :=
  {| HttpServerPort := 30010; WebSocketServerPort := 30020;
     bBridgeConnected := false |}.

Definition IsBridgeConnected (self : t) : bool := bBridgeConnected self.

Definition SetBridgeConnected (bConnected : bool) (self : t) : t :=
  {| HttpServerPort := HttpServerPort self;
     WebSocketServerPort := WebSocketServerPort self;
     bBridgeConnected := bConnected |}.
End FAegisBridgeModule.

Module UAegisWebSocketServer.
(** [WebSocketServer] is never assigned and is left out. *)
Record t := mk {
  ConnectedClients : TMap bool;
  bIsRunning : bool;
}.

Definition New : t := {| ConnectedClients := TMap_Empty; bIsRunning := false |}.

Definition Initialize (Port : Z) (self : t) : t :=
  if bIsRunning self then self
  else {| ConnectedClients := ConnectedClients self; bIsRunning := true |}.

Definition Shutdown (self : t) : t :=
  if negb (bIsRunning self) then self
  else {| ConnectedClients := TMap_Empty; bIsRunning := false |}.

Definition IsRunning (self : t) : bool := bIsRunning self.

Definition GetClientCount (self : t) : Z :=
  Z.of_nat (size (ConnectedClients self)).

(** [SendToClient] only logs: a warning when the client is not connected,
    the message otherwise.  The result tells which. *)
Definition SendToClient (ClientId Message : FString) (self : t) : bool :=
  TMap_Contains (ConnectedClients self) ClientId.

Section Events.
Context `{JsonIO}.

Definition EventMessage (EventType : FString) (Data : option Json.Object)
    (UnixTimestamp : Z) : Json.Object :=
  let EventMessage := [] in
  let EventMessage :=
    Json.SetStringField EventMessage (TEXT "type") (TEXT "event") in
  let EventMessage :=
    Json.SetStringField EventMessage (TEXT "event") EventType in
  let EventMessage :=
    Json.SetNumberField EventMessage (TEXT "timestamp")
      (double_of_Z UnixTimestamp) in
  match Data with
  | Some Data => Json.SetObjectField EventMessage (TEXT "data") Data
  | None => EventMessage
  end.

(** The calls [SendToClient(ClientId, Message)] that [BroadcastEvent] makes,
    in the order of the loop over [ConnectedClients]; [UnixTimestamp] is
    [FDateTime::UtcNow().ToUnixTimestamp()] and [Slot] gives the slots of
    [ConnectedClients] at the loop. *)
Definition BroadcastEvent (EventType : FString) (Data : option Json.Object)
    (UnixTimestamp : Z) (Slot : FString -> nat) (self : t)
  : list (FString * FString) :=
  if negb (bIsRunning self) then []
  else
    let MessageString :=
      Json_Serialize (EventMessage EventType Data UnixTimestamp) in
    (fun Client => (Client.1, MessageString))
      <$> TMap_Iterate Slot (ConnectedClients self).

(** Returns the server, the bridge module (if loaded) and the calls to
    [SendToClient] of the welcome broadcast; [Slot] gives the slots of
    [ConnectedClients] once the client is added. *)
Definition OnClientConnected (ClientId : FString) (UnixTimestamp : Z)
    (Slot : FString -> nat)
    (Bridge : option FAegisBridgeModule.t) (self : t)
  : t * option FAegisBridgeModule.t * list (FString * FString) :=
  let self :=
    {| ConnectedClients := TMap_Add (ConnectedClients self) ClientId true;
       bIsRunning := bIsRunning self |} in
  let Bridge := FAegisBridgeModule.SetBridgeConnected true <$> Bridge in
  let WelcomeData := [] in
  let WelcomeData :=
    Json.SetStringField WelcomeData (TEXT "version") (TEXT "1.0.0") in
  let WelcomeData :=
    Json.SetStringField WelcomeData (TEXT "server") (TEXT "AegisBridge") in
  (self, Bridge,
   BroadcastEvent (TEXT "connection.established") (Some WelcomeData)
     UnixTimestamp Slot self).

Definition OnClientDisconnected (ClientId : FString)
    (Bridge : option FAegisBridgeModule.t) (self : t)
  : t * option FAegisBridgeModule.t :=
  let self :=
    {| ConnectedClients := (TMap_Remove (ConnectedClients self) ClientId).2;
       bIsRunning := bIsRunning self |} in
  let Bridge :=
    match Bridge with
    | Some B =>
        if (Z.of_nat (size (ConnectedClients self)) =? 0)%Z
        then Some (FAegisBridgeModule.SetBridgeConnected false B)
        else Some B
    | None => None
    end in
  (self, Bridge).

(** The calls to [SendToClient] that handling a message makes, each with
    what [SendToClient] does with it. *)
Definition OnMessageReceived (ClientId Message : FString) (UnixTimestamp : Z)
    (self : t) : list (FString * FString * bool) :=
  match Json_DeserializeObject Message with
  | None => []
  | Some JsonMessage =>
      let MessageType := Json_GetStringField JsonMessage (TEXT "type") in
      if MessageType == TEXT "subscribe" then []
      else if MessageType == TEXT "unsubscribe" then []
      else if MessageType == TEXT "ping" then
        let PongMessage := [] in
        let PongMessage :=
          Json.SetStringField PongMessage (TEXT "type") (TEXT "pong") in
        let PongMessage :=
          Json.SetNumberField PongMessage (TEXT "timestamp")
            (double_of_Z UnixTimestamp) in
        let PongString := Json_Serialize PongMessage in
        [(ClientId, PongString, SendToClient ClientId PongString self)]
      else []
  end.

End Events.
End UAegisWebSocketServer.

(** ** [UAegisPluginValidator] (AegisPluginValidator.cpp) *)

Module UAegisPluginValidator.

Record FRequiredPluginInfo := {
  PluginName : FString;
  FriendlyName : FString;
  bRequired : bool;
  Reason : FString;
}.

(** An [IPlugin] as the validator uses it. *)
Record IPlugin := {
  Plugin_GetName : FString;
  Plugin_IsEnabled : bool;
}.

(** The localized texts, by their keys, with the argument put at [{0}]. *)
Inductive FText :=
| OptionalPlugins (OptionalList : FString)
| MissingPluginsTitle
| MissingPluginsMessage (PluginList : FString)
| RestartTitle
| RestartMessage
| PluginsDeclined.

(** What the validator does to the editor, in order. *)
Inductive Effect :=
| AddNotification (Message : FText) (ExpireDuration : Z) (Image : FString)
| MessageDialog_YesNo (Message Title : FText)
| SetPluginEnabled (Name : FString)
| RestartEditor.

(** [IPluginManager], and what the user and the project manager answer. *)
Class PluginHost := {
  (** [IPluginManager::FindPlugin] *)
  FindPlugin : FString -> option IPlugin;
  (** [IPluginManager::GetDiscoveredPlugins] *)
  GetDiscoveredPlugins : list IPlugin;
  (** whether [FMessageDialog::Open] returns [EAppReturnType::Yes] *)
  MessageDialog_AnswersYes : FText -> FText -> bool;
  (** what [IProjectManager::SetPluginEnabled(Name, true, FailReason)]
      returns *)
  SetPluginEnabled_Succeeds : FString -> bool;
}.

Definition GetRequiredPlugins : list FRequiredPluginInfo :=
  [ {| PluginName := TEXT "RemoteControl";
       FriendlyName := TEXT "Remote Control API";
       bRequired := true;
       Reason :=
         TEXT "Required for MCP server communication via HTTP/WebSocket" |};
    {| PluginName := TEXT "WebSocketNetworking";
       FriendlyName := TEXT "WebSocket Networking";
       bRequired := true;
       Reason := TEXT "Required for real-time bidirectional communication" |};
    {| PluginName := TEXT "PCG";
       FriendlyName := TEXT "Procedural Content Generation";
       bRequired := true;
       Reason := TEXT "Required for procedural world generation features" |};
    {| PluginName := TEXT "HoudiniEngine";
       FriendlyName := TEXT "Houdini Engine";
       bRequired := false;
       Reason :=
         TEXT "Optional: Enables advanced procedural generation via Houdini Digital Assets" |} ].

Section Validator.
Context `{PluginHost}.

(** The first discovered plugin with that name. *)
Fixpoint SearchDiscovered (AllPlugins : list IPlugin) (Name : FString)
  : option IPlugin :=
  match AllPlugins with
  | [] => None
  | DiscoveredPlugin :: rest =>
      if Plugin_GetName DiscoveredPlugin == Name then Some DiscoveredPlugin
      else SearchDiscovered rest Name
  end.

Definition IsPluginEnabled (Name : FString) : bool :=
  match FindPlugin Name with
  | Some Plugin => Plugin_IsEnabled Plugin
  | None =>
      match SearchDiscovered GetDiscoveredPlugins Name with
      | Some DiscoveredPlugin => Plugin_IsEnabled DiscoveredPlugin
      | None => false
      end
  end.

Definition ShowNotification (Message : FText) (bIsError : bool) : list Effect :=
  [AddNotification Message (if bIsError then 10 else 5)
     (if bIsError then TEXT "Icons.Error" else TEXT "Icons.Warning")].

Definition EnablePlugin (Name : FString) : bool * list Effect :=
  let Plugin :=
    match FindPlugin Name with
    | Some Plugin => Some Plugin
    | None => SearchDiscovered GetDiscoveredPlugins Name
    end in
  match Plugin with
  | None => (false, [])
  | Some _ => (SetPluginEnabled_Succeeds Name, [SetPluginEnabled Name])
  end.

(** The loop of [ShowMissingPluginsDialog] that enables the plugins. *)
Fixpoint EnablePlugins (MissingPlugins : list FRequiredPluginInfo)
    (bNeedsRestart : bool) : bool * list Effect :=
  match MissingPlugins with
  | [] => (bNeedsRestart, [])
  | Plugin :: rest =>
      let '(bEnabled, eff) := EnablePlugin (PluginName Plugin) in
      let '(bNeedsRestart, eff') :=
        EnablePlugins rest (if bEnabled then true else bNeedsRestart) in
      (bNeedsRestart, eff ++ eff')
  end.

(** [PluginList += Printf("\n\n• %s\n   %s", FriendlyName, Reason)] *)
Definition PluginListOf (MissingPlugins : list FRequiredPluginInfo) : FString :=
  fold_left
    (fun PluginList Plugin =>
       PluginList
         ++ Printf ([10; 10; 0x2022] ++ TEXT " %s" ++ [10] ++ TEXT "   %s")
              [ArgStr (FriendlyName Plugin); ArgStr (Reason Plugin)])
    MissingPlugins [].

(** [OptionalList += Printf("\n  - %s: %s", FriendlyName, Reason)] *)
Definition OptionalListOf (MissingOptional : list FRequiredPluginInfo)
  : FString :=
  fold_left
    (fun OptionalList Plugin =>
       OptionalList
         ++ Printf ([10] ++ TEXT "  - %s: %s")
              [ArgStr (FriendlyName Plugin); ArgStr (Reason Plugin)])
    MissingOptional [].

Definition ShowMissingPluginsDialog (MissingPlugins : list FRequiredPluginInfo)
  : list Effect :=
  let Title := MissingPluginsTitle in
  let Message := MissingPluginsMessage (PluginListOf MissingPlugins) in
  MessageDialog_YesNo Message Title
  :: if MessageDialog_AnswersYes Message Title then
       let '(bNeedsRestart, eff) := EnablePlugins MissingPlugins false in
       eff ++
       if bNeedsRestart then
         MessageDialog_YesNo RestartMessage RestartTitle
         :: if MessageDialog_AnswersYes RestartMessage RestartTitle
            then [RestartEditor] else []
       else []
     else ShowNotification PluginsDeclined true.

(** The loop of [ValidateRequiredPlugins] over the required plugins: the
    missing required ones and the missing optional ones. *)
Fixpoint CollectMissing (RequiredPlugins : list FRequiredPluginInfo)
  : list FRequiredPluginInfo * list FRequiredPluginInfo :=
  match RequiredPlugins with
  | [] => ([], [])
  | PluginInfo :: rest =>
      let '(MissingRequired, MissingOptional) := CollectMissing rest in
      if negb (IsPluginEnabled (PluginName PluginInfo)) then
        if bRequired PluginInfo then
          (PluginInfo :: MissingRequired, MissingOptional)
        else (MissingRequired, PluginInfo :: MissingOptional)
      else (MissingRequired, MissingOptional)
  end.

Definition ValidateRequiredPlugins : bool * list Effect :=
  let RequiredPlugins := GetRequiredPlugins in
  let '(MissingRequired, MissingOptional) := CollectMissing RequiredPlugins in
  let eff1 :=
    if (0 <? length MissingOptional)%nat then
      ShowNotification (OptionalPlugins (OptionalListOf MissingOptional)) false
    else [] in
  if (0 <? length MissingRequired)%nat then
    (false, eff1 ++ ShowMissingPluginsDialog MissingRequired)
  else (true, eff1).

End Validator.
End UAegisPluginValidator.

(** ** [UAegisSubsystem::SelectActors] (AegisSubsystem.cpp) *)

(** The calls [SelectActors] makes on the editor:
    [GEditor->SelectNone(true, true, false)] and
    [GEditor->SelectActor(Actor, true, true, true)]. *)
Inductive SelectionCall :=
| SelectNone
| SelectActor (Actor : AActor).

(** The loop over the paths, with the [int32] counter. *)
Fixpoint SelectActors_loop (GEditor : option UEditorEngine)
    (ActorPaths : list FString) (SelectedCount : Z)
  : Z * list SelectionCall :=
  match ActorPaths with
  | [] => (SelectedCount, [])
  | ActorPath :: rest =>
      match FindActorByPath GEditor ActorPath with
      | Some Actor =>
          let '(n, calls) :=
            SelectActors_loop GEditor rest (wrap_int32 (SelectedCount + 1)) in
          (n, SelectActor Actor :: calls)
      | None => SelectActors_loop GEditor rest SelectedCount
      end
  end.

Definition SelectActors `{JsonIO} (GEditor : option UEditorEngine)
    (ActorPaths : list FString) (bAddToSelection : bool)
  : FAegisCommandResult.t * list SelectionCall :=
  match GEditor with
  | None => (MakeError (TEXT "Editor not available") (TEXT "NO_EDITOR"), [])
  | Some _ =>
      let calls0 := if negb bAddToSelection then [SelectNone] else [] in
      let '(SelectedCount, calls) := SelectActors_loop GEditor ActorPaths 0 in
      let ResultData :=
        Json.SetNumberField [] (TEXT "selectedCount")
          (double_of_Z SelectedCount) in
      (MakeSuccess
         (Printf (TEXT "Selected %d actors") [ArgInt SelectedCount])
         (Some ResultData),
       calls0 ++ calls)
  end.

(** * Vocabulary of the properties *)

(** ** Reports of the stubs *)

(** A JSON object whose stored fields are exactly ["success"], holding
    [true], and [CountField], holding the number 0, under these names letter
    for letter; and what reading a field of it finds, field names being
    compared up to the case of ASCII letters. *)
Definition ZeroChangeReport (CountField : FString) (obj : FJsonObject) : Prop :=
  (forall (Name : FString) (Value : FJsonValue),
     (Name, Value) ∈ TMap_Pairs obj
     <-> (Name = TEXT "success" /\ Value = FJsonValueBoolean true)
         \/ (Name = CountField /\ Value = FJsonValueNumber 0))
  /\ forall Name : FString,
       TMap_Find obj Name =
         if Name == TEXT "success" then Some (FJsonValueBoolean true)
         else if Name == CountField then Some (FJsonValueNumber 0)
         else None.

(** ** Actors of the editor world *)

(** An actor of the world matches [EntityPath]: the current level finds an
    actor object under that name, or some iterated actor has it as its path
    name or as its name. *)
Definition ActorMatches (World : UWorld) (EntityPath : FString) : Prop :=
  is_Some (CurrentLevel_FindObject_AActor World EntityPath)
  \/ exists Actor, Actor ∈ ActorIterator World
       /\ (GetPathName Actor == EntityPath = true
           \/ GetName Actor == EntityPath = true).

Definition EditorWorldOf (GEditor : option UEditorEngine) : option UWorld :=
  GEditor ≫= EditorWorld.

(** ** Hexadecimal encoding *)

(** Two lowercase hexadecimal characters per byte. *)
Definition HexEncode (bs : list byte) : FString :=
  concat ((fun b => FormatHex02 (Byte.to_N b)) <$> bs).

Definition IsLowerHex (c : TCHAR) : bool :=
  ((48 <=? c) && (c <=? 57)) || ((97 <=? c) && (c <=? 102)).

(** The 20 bytes read out of the [FSHAHash]. *)
Definition FSHAHash_bytes (Hash : list byte) : list byte :=
  FSHAHash_at Hash <$> seq 0 20.

(** ** The GUID format *)

(** The namespace table as the specification lists it. *)
Definition NamespaceCodes : list (string * string) :=
  [("actor", "ACT"); ("component", "CMP"); ("asset", "AST");
   ("blueprint", "BPT"); ("material", "MAT"); ("landscape", "LND");
   ("foliage", "FOL"); ("pcg", "PCG"); ("ai", "AIN"); ("custom", "CUS")]%string.

(** The code listed for exactly this namespace string, ["UNK"] for anything
    else. *)
Definition NamespaceCodeOf (Namespace : FString) : FString :=
  match find (fun kc => bool_decide (Namespace = TEXT kc.1)) NamespaceCodes with
  | Some kc => TEXT kc.2
  | None => TEXT "UNK"
  end.

(** The characters of [Hash] at positions [[lo, hi)]. *)
Definition HashChars (Hash : FString) (lo hi : nat) : FString :=
  take (hi - lo) (drop lo Hash).

(** ["Namespace:EntityType:Seed:Counter:EntityName"], the counter in
    decimal. *)
Definition GUIDInput (Namespace EntityType Seed : FString) (Counter : Z)
    (EntityName : FString) : FString :=
  Namespace ++ TEXT ":" ++ EntityType ++ TEXT ":" ++ Seed ++ TEXT ":"
    ++ FormatInt Counter ++ TEXT ":" ++ EntityName.

(** [NSCODE-G1-G2-G3-G4] *)
Definition GUIDFormat (NamespaceCode Hash : FString) : FString :=
  NamespaceCode
    ++ TEXT "-" ++ ToUpper (HashChars Hash 0 8)
    ++ TEXT "-" ++ ToUpper (HashChars Hash 8 12)
    ++ TEXT "-" ++ ToUpper (HashChars Hash 12 16)
    ++ TEXT "-" ++ ToUpper (HashChars Hash 16 28).

(** The hash of a string as the specification reads it: the digest of the
    whole UTF-8 conversion of the string, its 20 bytes in lowercase
    hexadecimal. *)
Definition HashOf `{SecureHash} (Input : FString) : FString :=
  HexEncode (FSHAHash_bytes (FSHA1_Digest (TCHAR_TO_UTF8 Input))).

Definition IsAscii (s : FString) : Prop := Forall (fun c => c < 128) s.

Definition IsUpperHex (c : TCHAR) : bool :=
  ((48 <=? c) && (c <=? 57)) || ((65 <=? c) && (c <=? 70)).

(** ** The registry *)

(** The invariant on the stored pairs: every pair sits under its folded key,
    every registry entry carries the GUID it is stored under and has its path
    mapped back to that GUID, and every mapped path has the registry entry of
    its GUID. *)
Definition registry_inv (this : UAegisSeedSubsystem) : Prop :=
  (forall k g e, GUIDRegistry this !! k = Some (g, e) ->
     k = KeyFold g
     /\ PathToGUIDMap this !! KeyFold (FAegisGUIDEntry.EntityPath e)
        = Some (FAegisGUIDEntry.EntityPath e, g)
     /\ FAegisGUIDEntry.GUID e = g)
  /\ (forall k p g, PathToGUIDMap this !! k = Some (p, g) ->
     k = KeyFold p
     /\ exists e, GUIDRegistry this !! KeyFold g = Some (g, e)
                  /\ FAegisGUIDEntry.EntityPath e = p).

(** As the code has it: [GUIDRegistry] finds an entry under the GUID, that
    is, under a stored GUID equal to it up to the case of ASCII letters, and
    the entry's path is another path; or [PathToGUIDMap] finds a GUID under
    the path, again up to case, and it is another GUID.  "Another" is as
    [operator!=] has it: different by more than the case of ASCII
    letters. *)
Definition RegisteredElsewhere (this : UAegisSeedSubsystem)
    (GUID EntityPath : FString) : Prop :=
  (exists e, TMap_Find (GUIDRegistry this) GUID = Some e
             /\ KeyFold (FAegisGUIDEntry.EntityPath e) <> KeyFold EntityPath)
  \/ (exists g, TMap_Find (PathToGUIDMap this) EntityPath = Some g
                /\ KeyFold g <> KeyFold GUID).

(** The same read letter for letter: a pair stored under exactly this GUID
    has a different path string, or a pair stored under exactly this path
    has a different GUID string. *)
Definition RegisteredElsewhere_exact (this : UAegisSeedSubsystem)
    (GUID EntityPath : FString) : Prop :=
  (exists e, (GUID, e) ∈ TMap_Pairs (GUIDRegistry this)
             /\ FAegisGUIDEntry.EntityPath e <> EntityPath)
  \/ (exists g, (EntityPath, g) ∈ TMap_Pairs (PathToGUIDMap this)
                /\ g <> GUID).

(** ** The snapshot store *)

(** What the calls leave stored for [SnapshotId]: the data of the last
    [StoreSnapshot] under an id equal to it up to the case of ASCII letters,
    unless a [DeleteSnapshot] of such an id came after it. *)
Fixpoint last_stored (SnapshotId : FString) (calls : list Call)
    (acc : option FString) : option FString :=
  match calls with
  | [] => acc
  | CallStoreSnapshot Id Data :: calls' =>
      last_stored SnapshotId calls' (if Id == SnapshotId then Some Data else acc)
  | CallDeleteSnapshot Id :: calls' =>
      last_stored SnapshotId calls' (if Id == SnapshotId then None else acc)
  | _ :: calls' => last_stored SnapshotId calls' acc
  end.

(** ** Repeated registration *)

(** Registers the same GUID and path once per update, each update bringing
    its entity type, metadata and clock reading. *)
Definition register_updates (GUID EntityPath : FString)
    (updates : list (FString * FString * Z)) (this : UAegisSeedSubsystem)
  : UAegisSeedSubsystem :=
  fold_left
    (fun s u => (RegisterGUID GUID EntityPath u.1.1 u.1.2 u.2 s).2)
    updates this.

(** What each of these registrations returns, in order. *)
Fixpoint register_returns (GUID EntityPath : FString)
    (updates : list (FString * FString * Z)) (this : UAegisSeedSubsystem)
  : list bool :=
  match updates with
  | [] => []
  | u :: updates' =>
      let r := RegisterGUID GUID EntityPath u.1.1 u.1.2 u.2 this in
      r.1 :: register_returns GUID EntityPath updates' r.2
  end.

(** The GUID is registered to exactly this path, at this version, and the
    path is mapped to it. *)
Definition registered_as (this : UAegisSeedSubsystem)
    (GUID EntityPath EntityType Metadata : FString) (CreatedAt Version : Z)
  : Prop :=
  exists Entry,
    TMap_Find (GUIDRegistry this) GUID = Some Entry
    /\ FAegisGUIDEntry.EntityPath Entry = EntityPath
    /\ FAegisGUIDEntry.EntityType Entry = EntityType
    /\ FAegisGUIDEntry.Metadata Entry = Metadata
    /\ FAegisGUIDEntry.CreatedAt Entry = CreatedAt
    /\ FAegisGUIDEntry.Version Entry = Version
    /\ TMap_Find (PathToGUIDMap this) EntityPath = Some GUID.


(** Every stored pair sits under the folded form of its key. *)
Definition TMap_wf {V} (m : gmap (list N) (list N * V)) : Prop :=
  forall i k v, m !! i = Some (k, v) -> i = KeyFold k.

(** The actor passes the filters of [CaptureAllActors]: the class filter is
    empty or one of its strings is contained in the class name, and every
    tag of the tag filter equals one of the actor's tags. *)
Definition CaptureSelects `{WorldInfo} `{StringSearch} (Actor : AActor)
    (ClassFilter TagFilter : list FString) : Prop :=
  (ClassFilter = []
   \/ exists c, c ∈ ClassFilter
                /\ FString_Contains (Actor_ClassName Actor) c = true)
  /\ forall Tag, Tag ∈ TagFilter ->
       exists ActorTag, ActorTag ∈ Actor_Tags Actor /\ ActorTag == Tag = true.

(** The actor passes the filters of [QueryActors]. *)
Definition QuerySelects `{WorldInfo} `{StringSearch} (Actor : AActor)
    (ClassFilter NameFilter : FString) (Tags : list FString) : Prop :=
  (ClassFilter = []
   \/ FString_Contains (Actor_ClassName Actor) ClassFilter = true)
  /\ (NameFilter = []
      \/ FString_Contains (GetName Actor) NameFilter = true)
  /\ forall Tag, Tag ∈ Tags ->
       exists ActorTag, ActorTag ∈ Actor_Tags Actor /\ ActorTag == Tag = true.

(** What happens to a WebSocket server and the bridge module: the calls of
    [Initialize] and [Shutdown] and the two connection callbacks. *)
Inductive ServerEvent :=
| EvInitialize (Port : Z)
| EvShutdown
| EvClientConnected (ClientId : FString) (UnixTimestamp : Z)
    (Slot : FString -> nat)
| EvClientDisconnected (ClientId : FString).

Definition server_step `{JsonIO}
    (st : UAegisWebSocketServer.t * option FAegisBridgeModule.t)
    (e : ServerEvent)
  : UAegisWebSocketServer.t * option FAegisBridgeModule.t :=
  match e with
  | EvInitialize Port => (UAegisWebSocketServer.Initialize Port st.1, st.2)
  | EvShutdown => (UAegisWebSocketServer.Shutdown st.1, st.2)
  | EvClientConnected ClientId UnixTimestamp Slot =>
      (UAegisWebSocketServer.OnClientConnected ClientId UnixTimestamp Slot
         st.2 st.1).1
  | EvClientDisconnected ClientId =>
      UAegisWebSocketServer.OnClientDisconnected ClientId st.2 st.1
  end.

Definition server_run `{JsonIO} (events : list ServerEvent)
    (st : UAegisWebSocketServer.t * option FAegisBridgeModule.t)
  : UAegisWebSocketServer.t * option FAegisBridgeModule.t :=
  fold_left server_step events st.

(** The clients addressed by a list of [SendToClient] calls. *)
Definition Addressed (calls : list (FString * FString)) : list FString :=
  calls.*1.

(** ** Engine parts to run the model with

    A double that is an integer, a JSON reader that reads nothing, a world
    without attributes and files kept in a list: enough to evaluate the
    model on concrete inputs. *)
Definition ExampleDouble : EngineDouble :=
  {| double := Z; double_of_Z := id; double_to_int32 := wrap_int32 |}.

Definition ExampleJsonIO : @JsonIO ExampleDouble :=
  {| Json_Serialize := fun _ => TEXT "{}";
     Json_DeserializeObject := fun _ => None;
     Json_DeserializeValue := fun _ => None;
     Json_AsString :=
       fun v : @Json.Value ExampleDouble =>
         match v with Json.VString s => s | _ => [] end;
     Json_AsNumber :=
       fun v : @Json.Value ExampleDouble =>
         match v with
         | Json.VNumber x => x
         | _ => @double_of_Z ExampleDouble 0
         end |}.

Definition ExampleWorldInfo : @WorldInfo ExampleDouble :=
  {| Actor_ClassName := fun _ => TEXT "Actor";
     Actor_Tags := fun _ => [];
     Actor_Components := fun _ => [];
     Actor_Location :=
       fun _ => let z := @double_of_Z ExampleDouble 0 in (z, z, z);
     Actor_Rotation :=
       fun _ => let z := @double_of_Z ExampleDouble 0 in (z, z, z);
     Actor_Scale :=
       fun _ => let o := @double_of_Z ExampleDouble 1 in (o, o, o);
     Actor_IsLandscapeProxy := fun _ => false;
     Actor_IsInstancedFoliageActor := fun _ => false;
     Landscape_BoundingRect := fun _ => (0, 0)%Z;
     World_GetName := fun _ => TEXT "World";
     World_GetMapName := fun _ => TEXT "Map";
     World_CurrentLevelName := fun _ => TEXT "PersistentLevel";
     App_ProjectName := TEXT "Project";
     EngineVersion_Current := TEXT "5.0.0" |}.

Definition ExampleStringSearch : StringSearch :=
  {| Contains_EmptySubStr := false |}.

(** Files as a list of paths with their contents, the last written first. *)
Definition ExampleFiles : FileHelper :=
  {| FileSystem := list (FString * FString);
     FFileHelper_SaveStringToFile :=
       fun String Filename Files => (true, (Filename, String) :: Files) |}.

Definition ExampleLoader : @FileLoader ExampleFiles :=
  {| FFileHelper_LoadFileToString :=
       fun Filename (Files : @FileSystem ExampleFiles) =>
         snd <$> List.find (fun f => bool_decide (f.1 = Filename)) Files |}.

(** * Properties *)

(** ** Strings and maps *)

Lemma FString_eq_true (a b : FString) : a == b = true <-> KeyFold a = KeyFold b.
Proof. unfold FString_eq. apply bool_decide_eq_true. Qed.

Lemma FString_eq_false (a b : FString) : a == b = false <-> KeyFold a <> KeyFold b.
Proof. unfold FString_eq. apply bool_decide_eq_false. Qed.

Lemma FString_eq_refl (a : FString) : a == a = true.
Proof. by apply FString_eq_true. Qed.

Lemma FString_eq_sym (a b : FString) : a == b = (b == a).
Proof. unfold FString_eq. apply bool_decide_ext. split; congruence. Qed.

Lemma FString_ne_false (a b : FString) : a != b = false <-> KeyFold a = KeyFold b.
Proof.
  unfold FString_ne. rewrite negb_false_iff. apply FString_eq_true.
Qed.

Lemma FString_ne_true (a b : FString) : a != b = true <-> KeyFold a <> KeyFold b.
Proof.
  unfold FString_ne. rewrite negb_true_iff. apply FString_eq_false.
Qed.

Section TMapFacts.
Context {V : Type}.
Implicit Types (m : TMap V) (k : FString) (v : V).

Lemma TMap_Find_Empty k : TMap_Find (@TMap_Empty V) k = None.
Proof. unfold TMap_Find, TMap_Empty. by rewrite lookup_empty. Qed.

Lemma TMap_Find_Add m k v k' :
  TMap_Find (TMap_Add m k v) k' = if k == k' then Some v else TMap_Find m k'.
Proof.
  unfold TMap_Find, TMap_Add, FString_eq. rewrite lookup_insert.
  case_decide as Hk.
  - by rewrite bool_decide_eq_true_2.
  - by rewrite bool_decide_eq_false_2.
Qed.

Lemma TMap_Find_Add_same m k v : TMap_Find (TMap_Add m k v) k = Some v.
Proof. by rewrite TMap_Find_Add, FString_eq_refl. Qed.

Lemma TMap_Find_Remove m k k' :
  TMap_Find (TMap_Remove m k).2 k' = if k == k' then None else TMap_Find m k'.
Proof.
  unfold TMap_Find, TMap_Remove, FString_eq. simpl. rewrite lookup_delete.
  case_decide as Hk.
  - by rewrite bool_decide_eq_true_2.
  - by rewrite bool_decide_eq_false_2.
Qed.

Lemma TMap_Remove_count m k :
  (TMap_Remove m k).1 = if TMap_Find m k is Some _ then 1%Z else 0%Z.
Proof. unfold TMap_Remove, TMap_Find. simpl. by destruct (m !! KeyFold k). Qed.

Lemma TMap_Pairs_lookup m k v :
  (k, v) ∈ TMap_Pairs m <-> exists i, m !! i = Some (k, v).
Proof.
  unfold TMap_Pairs. rewrite list_elem_of_fmap. split.
  - intros [[i kv] [-> Hin]]. exists i. by apply elem_of_map_to_list.
  - intros [i Hi]. exists (i, (k, v)). split; [done|].
    by apply elem_of_map_to_list.
Qed.
End TMapFacts.

(** ** C1: the world-state stubs *)

Lemma ZeroChangeReport_built (CountField : FString) :
  KeyFold CountField <> KeyFold (TEXT "success") ->
  ZeroChangeReport CountField
    (SetNumberField
       (SetBoolField MakeShareable_FJsonObject (TEXT "success") true)
       CountField 0).
Proof.
  intros Hne. split.
  - intros Name Value. rewrite TMap_Pairs_lookup.
    unfold SetNumberField, SetBoolField, MakeShareable_FJsonObject, TMap_Add,
      TMap_Empty.
    split.
    + intros [i Hi]. rewrite lookup_insert in Hi.
      case_decide; [injection Hi as <- <-; by right|].
      rewrite lookup_insert in Hi.
      case_decide; [injection Hi as <- <-; by left|].
      by rewrite lookup_empty in Hi.
    + intros [[-> ->]|[-> ->]].
      * exists (KeyFold (TEXT "success")).
        by rewrite lookup_insert_ne, lookup_insert_eq.
      * exists (KeyFold CountField). by rewrite lookup_insert_eq.
  - intros Name.
    unfold SetNumberField, SetBoolField, MakeShareable_FJsonObject.
    rewrite !TMap_Find_Add, TMap_Find_Empty.
    rewrite (FString_eq_sym CountField), (FString_eq_sym (TEXT "success")).
    destruct (Name == TEXT "success") eqn:Hs, (Name == CountField) eqn:Hc;
      try done.
    apply FString_eq_true in Hs, Hc. congruence.
Qed.

(** C1. Whatever their arguments and whatever the subsystem object holds,
    [SyncWorldState] returns the serialization of the JSON object
    [{"success": true, "plannedChanges": 0}], [MergeWorldStates] and
    [ApplyDiff] return the serialization of
    [{"success": true, "appliedChanges": 0}], with exactly these two fields
    under exactly these names, and each hands the subsystem object back
    unchanged. *)
Theorem stubs_report_zero_changes `{JsonSerializer}
    (Id1 Id2 Entities Changes ConflictResolution : FString)
    (bFlag1 bFlag2 : bool) (this : UAegisSeedSubsystem) :
  (exists Result,
      SyncWorldState Id1 Entities bFlag1 ConflictResolution bFlag2 this
        = (FJsonSerializer_Serialize Result, this)
      /\ ZeroChangeReport (TEXT "plannedChanges") Result)
  /\ (exists Result,
      MergeWorldStates Id1 Id2 Changes ConflictResolution bFlag1 this
        = (FJsonSerializer_Serialize Result, this)
      /\ ZeroChangeReport (TEXT "appliedChanges") Result)
  /\ (exists Result,
      ApplyDiff Id1 Changes ConflictResolution this
        = (FJsonSerializer_Serialize Result, this)
      /\ ZeroChangeReport (TEXT "appliedChanges") Result).
Proof.
  repeat split; eexists; (split; [reflexivity|]);
    apply ZeroChangeReport_built; by vm_compute.
Qed.

(** ** C2: GUID generation does not look at the object *)

(** C2. Two invocations of [GenerateGUID] with equal arguments return equal
    GUID strings whatever the two subsystem objects hold (seed, counter,
    registry, snapshots), and neither changes its object. *)
Theorem GenerateGUID_deterministic `{SecureHash}
    (Namespace EntityType Seed : FString) (Counter : Z) (EntityName : FString)
    (this1 this2 : UAegisSeedSubsystem) :
  (GenerateGUID Namespace EntityType Seed Counter EntityName this1).1
    = (GenerateGUID Namespace EntityType Seed Counter EntityName this2).1
  /\ (GenerateGUID Namespace EntityType Seed Counter EntityName this1).2 = this1
  /\ (GenerateGUID Namespace EntityType Seed Counter EntityName this2).2 = this2.
Proof. by unfold GenerateGUID. Qed.

(** ** C7: snapshot export *)

(** C7. [ExportSnapshot] hands exactly [SnapshotData] to the file write for
    [OutputPath], returns what that write returns, leaves the files as that
    write leaves them and the subsystem object as it was; [bCompress] and
    [SnapshotId] change nothing. *)
Theorem ExportSnapshot_writes_data_uncompressed `{FileHelper}
    (SnapshotId SnapshotData OutputPath : FString) (bCompress : bool)
    (Files : FileSystem) (this : UAegisSeedSubsystem) :
  ExportSnapshot SnapshotId SnapshotData OutputPath bCompress Files this
    = ((FFileHelper_SaveStringToFile SnapshotData OutputPath Files).1,
       (FFileHelper_SaveStringToFile SnapshotData OutputPath Files).2,
       this)
  /\ ExportSnapshot SnapshotId SnapshotData OutputPath true Files this
     = ExportSnapshot SnapshotId SnapshotData OutputPath false Files this.
Proof.
  unfold ExportSnapshot.
  destruct (FFileHelper_SaveStringToFile SnapshotData OutputPath Files)
    as [[] Files']; done.
Qed.

(** ** C9: entity verification *)

Lemma VerifyGUIDEntity_search_spec (It : list AActor) (EntityPath : FString) :
  VerifyGUIDEntity_search It EntityPath = true <->
  exists Actor, Actor ∈ It
    /\ (GetPathName Actor == EntityPath = true
        \/ GetName Actor == EntityPath = true).
Proof.
  induction It as [|Actor It IH]; simpl.
  - split; [done|]. intros (? & Hin & _). by apply elem_of_nil in Hin.
  - destruct (GetPathName Actor == EntityPath) eqn:Hp; simpl.
    { split; [|done]. intros _. exists Actor. split; [left|]; auto. }
    destruct (GetName Actor == EntityPath) eqn:Hn.
    { split; [|done]. intros _. exists Actor. split; [left|]; auto. }
    rewrite IH. split.
    + intros (a & Hin & Ha). exists a. split; [by right|done].
    + intros (a & Hin & Ha). apply elem_of_cons in Hin as [->|Hin].
      * destruct Ha; congruence.
      * by exists a.
Qed.

(** C9. The result of [VerifyGUIDEntity] is the same for any two GUID
    arguments and any two subsystem objects (the registry is never
    consulted); it is [true] exactly when there is an editor world and an
    actor of that world matches [EntityPath], so it is [false] when no world
    is available; the subsystem object is handed back unchanged. *)
Theorem VerifyGUIDEntity_ignores_GUID
    (GEditor : option UEditorEngine) (GUID1 GUID2 EntityPath : FString)
    (this1 this2 : UAegisSeedSubsystem) :
  (VerifyGUIDEntity GEditor GUID1 EntityPath this1).1
    = (VerifyGUIDEntity GEditor GUID2 EntityPath this2).1
  /\ (VerifyGUIDEntity GEditor GUID1 EntityPath this1).2 = this1
  /\ ((VerifyGUIDEntity GEditor GUID1 EntityPath this1).1 = true <->
      exists World, EditorWorldOf GEditor = Some World
                    /\ ActorMatches World EntityPath)
  /\ (EditorWorldOf GEditor = None ->
      (VerifyGUIDEntity GEditor GUID1 EntityPath this1).1 = false).
Proof.
  unfold VerifyGUIDEntity, EditorWorldOf, ActorMatches.
  destruct GEditor as [[[World|]]|]; simpl.
  2,3: repeat split; try done; intros (? & ? & _); done.
  destruct (CurrentLevel_FindObject_AActor World EntityPath) as [Found|] eqn:HF;
    simpl.
  - repeat split; try done. intros _. exists World. rewrite HF. eauto.
  - repeat split; try done.
    + intros Hs. exists World. split; [done|]. right.
      by apply VerifyGUIDEntity_search_spec.
    + intros (W & [= <-] & [[? HW]|HW]); [congruence|].
      by apply VerifyGUIDEntity_search_spec.
Qed.

(** ** C10: the global seed *)

(** C10. [SetGlobalSeed] sets [GlobalSeed] to [Seed]; [SeedCounter] becomes
    0 when [bResetCounter] is set and keeps its value otherwise; the
    registry, the path map and the snapshot store are untouched; the two
    getters then return the new seed and that counter. *)
Theorem SetGlobalSeed_effect
    (Seed : FString) (bResetCounter : bool) (this : UAegisSeedSubsystem) :
  let this' := SetGlobalSeed Seed bResetCounter this in
  GlobalSeed this' = Seed
  /\ SeedCounter this' = (if bResetCounter then 0%Z else SeedCounter this)
  /\ GUIDRegistry this' = GUIDRegistry this
  /\ PathToGUIDMap this' = PathToGUIDMap this
  /\ SnapshotStorage this' = SnapshotStorage this
  /\ GetGlobalSeed this' = Seed
  /\ GetSeedCounter this' = (if bResetCounter then 0%Z else GetSeedCounter this).
Proof. by destruct bResetCounter. Qed.

(** ** Formatting *)

Lemma Printf_hex02 (n : N) : Printf (TEXT "%02x") [ArgUInt n] = FormatHex02 n.
Proof.
  transitivity (FormatHex02 n ++ []); [reflexivity|apply app_nil_r].
Qed.

Lemma Printf_colons (a b c : FString) (d : Z) (e : FString) :
  Printf (TEXT "%s:%s:%s:%d:%s") [ArgStr a; ArgStr b; ArgStr c; ArgInt d; ArgStr e]
  = a ++ TEXT ":" ++ b ++ TEXT ":" ++ c ++ TEXT ":" ++ FormatInt d
      ++ TEXT ":" ++ e.
Proof.
  transitivity (a ++ TEXT ":" ++ b ++ TEXT ":" ++ c ++ TEXT ":" ++ FormatInt d
                  ++ TEXT ":" ++ e ++ []); [reflexivity|].
  by rewrite app_nil_r.
Qed.

Lemma Printf_dashes (a b c d e : FString) :
  Printf (TEXT "%s-%s-%s-%s-%s") [ArgStr a; ArgStr b; ArgStr c; ArgStr d; ArgStr e]
  = a ++ TEXT "-" ++ b ++ TEXT "-" ++ c ++ TEXT "-" ++ d ++ TEXT "-" ++ e.
Proof.
  transitivity (a ++ TEXT "-" ++ b ++ TEXT "-" ++ c ++ TEXT "-" ++ d
                  ++ TEXT "-" ++ e ++ []); [reflexivity|].
  by rewrite app_nil_r.
Qed.

(** For a start and a count that are not negative, [Mid] is the plain
    sub-range (cut short where the string ends). *)
Lemma Mid_take_drop (s : FString) (Start Count : nat) :
  Mid s (Z.of_nat Start) (Z.of_nat Count) = take Count (drop Start s).
Proof.
  unfold Mid, Clamp.
  destruct (Z.ltb_spec (Z.of_nat Count) 0) as [?|_]; [lia|].
  destruct (Z.ltb_spec (Z.of_nat Start) 0) as [?|_]; [lia|].
  destruct (Z.ltb_spec (Z.of_nat Start) (Z.of_nat (length s))) as [Hs|Hs].
  - rewrite Nat2Z.id.
    destruct (Z.ltb_spec (Z.of_nat Count + Z.of_nat Start) (Z.of_nat Start));
      [lia|].
    destruct (Z.ltb_spec (Z.of_nat Count + Z.of_nat Start)
                (Z.of_nat (length s))) as [He|He].
    + f_equal. lia.
    + rewrite (take_ge _ Count); [|rewrite length_drop; lia].
      apply take_ge. rewrite length_drop. lia.
  - rewrite Nat2Z.id.
    rewrite (drop_ge s (length s)), (drop_ge s Start); [|lia..].
    by destruct (Z.to_nat _), Count.
Qed.

Lemma Mid_nonneg (s : FString) (Start Count : Z) :
  (0 <= Start)%Z -> (0 <= Count)%Z ->
  Mid s Start Count = take (Z.to_nat Count) (drop (Z.to_nat Start) s).
Proof.
  intros HS HC. rewrite <- (Z2Nat.id Start HS) at 1.
  rewrite <- (Z2Nat.id Count HC) at 1. apply Mid_take_drop.
Qed.

Lemma fold_left_append {A B} (f : B -> list A) (l : list B) (init : list A) :
  fold_left (fun acc i => acc ++ f i) l init = init ++ concat (f <$> l).
Proof.
  revert init. induction l as [|x l IH]; intros init; simpl.
  - by rewrite app_nil_r.
  - by rewrite IH, <- app_assoc.
Qed.

(** ** Hashing *)

Lemma FSHAHash_bytes_id (Hash : list byte) :
  length Hash = 20%nat -> FSHAHash_bytes Hash = Hash.
Proof.
  intros Hlen. do 21 (destruct Hash as [|? Hash]; [done|]); done.
Qed.

Lemma FormatHex02_byte (b : byte) :
  length (FormatHex02 (Byte.to_N b)) = 2%nat
  /\ forallb IsLowerHex (FormatHex02 (Byte.to_N b)) = true.
Proof. destruct b; by vm_compute. Qed.

Lemma HexEncode_length (bs : list byte) :
  length (HexEncode bs) = (2 * length bs)%nat.
Proof.
  unfold HexEncode. induction bs as [|b bs IH]; [done|].
  rewrite fmap_cons. cbn [concat]. rewrite length_app, IH.
  destruct (FormatHex02_byte b) as [-> _]. cbn [length]. lia.
Qed.

Lemma HexEncode_lower_hex (bs : list byte) :
  forallb IsLowerHex (HexEncode bs) = true.
Proof.
  unfold HexEncode. induction bs as [|b bs IH]; [done|].
  rewrite fmap_cons. cbn [concat]. rewrite forallb_app, IH.
  by destruct (FormatHex02_byte b) as [_ ->].
Qed.

(** What [ComputeSHA256] computes: the hex encoding of the digest of the
    first [Input.Len()] bytes of the UTF-8 conversion. *)
Lemma ComputeSHA256_unfold `{SecureHash} (Input : FString) :
  ComputeSHA256 Input
  = HexEncode (FSHAHash_bytes
                 (FSHA1_Digest (take (length Input) (TCHAR_TO_UTF8 Input)))).
Proof.
  unfold ComputeSHA256, FSHA1_HashBuffer, HexEncode, FSHAHash_bytes.
  rewrite fold_left_append, app_nil_l, <- list_fmap_compose. f_equal.
  apply list_fmap_ext. intros _ i _. apply Printf_hex02.
Qed.

Lemma ComputeSHA256_length `{SecureHash} (Input : FString) :
  length (ComputeSHA256 Input) = 40%nat.
Proof.
  rewrite ComputeSHA256_unfold, HexEncode_length.
  unfold FSHAHash_bytes. by rewrite length_fmap, length_seq.
Qed.

Lemma ComputeSHA256_lower_hex `{SecureHash} (Input : FString) :
  forallb IsLowerHex (ComputeSHA256 Input) = true.
Proof. rewrite ComputeSHA256_unfold. apply HexEncode_lower_hex. Qed.

(** On an input of ASCII characters one [TCHAR] is one UTF-8 byte, and the
    whole conversion is digested. *)
Lemma TCHAR_TO_UTF8_ascii_length (Input : FString) :
  Forall (fun c => c < 128) Input ->
  length (TCHAR_TO_UTF8 Input) = length Input.
Proof.
  induction 1 as [|c r Hc _ IH]; [done|].
  simpl. unfold IsHighSurrogate, IsLowSurrogate, Utf8OfCodepoint.
  destruct (N.leb_spec 0xD800 c); [lia|]. simpl.
  destruct (N.leb_spec 0xDC00 c); [lia|]. simpl.
  destruct (N.ltb_spec c 0x80); [|lia]. simpl. by rewrite IH.
Qed.

Lemma ComputeSHA256_ascii `{SecureHash} (Input : FString) :
  Forall (fun c => c < 128) Input ->
  ComputeSHA256 Input
  = HexEncode (FSHAHash_bytes (FSHA1_Digest (TCHAR_TO_UTF8 Input))).
Proof.
  intros Hascii. rewrite ComputeSHA256_unfold.
  by rewrite take_ge by (rewrite TCHAR_TO_UTF8_ascii_length; [lia|done]).
Qed.

(** The SHA-1 instance on the FIPS 180 test messages. *)
Example SHA1_abc :
  show (ComputeSHA256 (TEXT "abc"))
  = "a9993e364706816aba3e25717850c26c9cd0d89d"%string.
Proof. by vm_compute. Qed.

Example SHA1_empty :
  show (ComputeSHA256 (TEXT ""))
  = "da39a3ee5e6b4b0d3255bfef95601890afd80709"%string.
Proof. by vm_compute. Qed.

Example SHA1_two_blocks :
  show (ComputeSHA256
          (TEXT "abcdbcdecdefdefgefghfghighijhijkijkljklmklmnlmnomnopnopq"))
  = "84983e441c3bd26ebaae4aa1f95129e5e54670f1"%string.
Proof. by vm_compute. Qed.

Example GenerateGUID_actor :
  show (GenerateGUID (TEXT "actor") (TEXT "StaticMeshActor") (TEXT "seed") 7
          (TEXT "Cube") NewSubsystem).1
  = "ACT-125BFADD-D844-7FDD-1B2340ADA9C5"%string.
Proof. by vm_compute. Qed.

Example FormatInt_min_int32 :
  show (FormatInt (-2147483648)) = "-2147483648"%string.
Proof. by vm_compute. Qed.

(** ** C3: the GUID format *)

(** The if-chain of [GetNamespaceCode] is the table, looked up with the
    namespace folded to lower case. *)
Lemma GetNamespaceCode_table (Namespace : FString) :
  GetNamespaceCode Namespace = NamespaceCodeOf (KeyFold Namespace).
Proof.
  unfold GetNamespaceCode, NamespaceCodeOf, FString_eq.
  generalize (KeyFold Namespace) as k. intros k.
  cbn [find NamespaceCodes fst snd].
  repeat match goal with
         | |- context [KeyFold (TEXT ?s)] =>
             change (KeyFold (TEXT s)) with (TEXT s)
         end.
  repeat (case_bool_decide; [reflexivity|]). reflexivity.
Qed.

(** What [GenerateGUID] computes, with the hash as [ComputeSHA256] returns
    it. *)
Lemma GenerateGUID_as_computed `{SecureHash}
    (Namespace EntityType Seed : FString) (Counter : Z) (EntityName : FString)
    (this : UAegisSeedSubsystem) :
  (GenerateGUID Namespace EntityType Seed Counter EntityName this).1
  = GUIDFormat (NamespaceCodeOf (KeyFold Namespace))
      (ComputeSHA256 (GUIDInput Namespace EntityType Seed Counter EntityName)).
Proof.
  unfold GenerateGUID. cbv zeta. cbn [fst].
  etransitivity; [apply Printf_dashes|].
  rewrite (Printf_colons Namespace EntityType Seed Counter EntityName).
  fold (GUIDInput Namespace EntityType Seed Counter EntityName).
  generalize (ComputeSHA256
                (GUIDInput Namespace EntityType Seed Counter EntityName)).
  intros Hash. rewrite GetNamespaceCode_table.
  rewrite !Mid_nonneg by lia. reflexivity.
Qed.

(** The four groups have 8, 4, 4 and 12 characters. *)
Lemma GUID_group_lengths `{SecureHash} (Input : FString) :
  let Hash := ComputeSHA256 Input in
  length (ToUpper (HashChars Hash 0 8)) = 8%nat
  /\ length (ToUpper (HashChars Hash 8 12)) = 4%nat
  /\ length (ToUpper (HashChars Hash 12 16)) = 4%nat
  /\ length (ToUpper (HashChars Hash 16 28)) = 12%nat.
Proof.
  intros Hash. pose proof (ComputeSHA256_length Input) as Hlen.
  fold Hash in Hlen. unfold ToUpper, HashChars.
  rewrite !length_fmap, !length_take, !length_drop. lia.
Qed.

Lemma ToUpperAscii_hex (c : TCHAR) :
  IsLowerHex c = true -> IsUpperHex (ToUpperAscii c) = true.
Proof.
  unfold IsLowerHex, IsUpperHex, ToUpperAscii. intros Hc.
  repeat match goal with
         | |- context [?a <=? ?b] => destruct (N.leb_spec a b)
         | H : context [?a <=? ?b] |- _ => destruct (N.leb_spec a b)
         end; simpl in *; try done; lia.
Qed.

(** The groups are made of digits and the letters [A] to [F]. *)
Lemma HashChars_upper_hex (Hash : FString) (lo hi : nat) :
  forallb IsLowerHex Hash = true ->
  forallb IsUpperHex (ToUpper (HashChars Hash lo hi)) = true.
Proof.
  rewrite !forallb_forall. intros Hlow c Hc.
  apply list_elem_of_In in Hc. unfold ToUpper, HashChars in Hc.
  apply list_elem_of_fmap in Hc as (c0 & -> & Hc0).
  apply ToUpperAscii_hex, Hlow, list_elem_of_In.
  by eapply subseteq_drop, subseteq_take.
Qed.

(** For a digest of 20 bytes, as SHA-1 gives it, [HashOf] is the plain
    hexadecimal form of the digest. *)
Lemma HashOf_digest `{SecureHash} (Input : FString) :
  length (FSHA1_Digest (TCHAR_TO_UTF8 Input)) = 20%nat ->
  HashOf Input = HexEncode (FSHA1_Digest (TCHAR_TO_UTF8 Input)).
Proof. intros Hlen. unfold HashOf. by rewrite FSHAHash_bytes_id. Qed.

(** C3, as the code has it. [GenerateGUID] returns [NSCODE-G1-G2-G3-G4]
    where [NSCODE] is the code the table lists for the namespace with its
    ASCII letters put in lower case (so ["Actor"] and ["ACTOR"] give ["ACT"]
    too), ["UNK"] when the table does not list it, and [G1..G4] are 8, 4, 4
    and 12 uppercase hexadecimal characters.  When
    ["Namespace:EntityType:Seed:Counter:EntityName"] has ASCII characters
    only, [G1..G4] are the uppercased characters at positions [[0,8)],
    [[8,12)], [[12,16)], [[16,28)] of the hash of that string, the digest of
    its whole UTF-8 conversion. *)
Theorem GenerateGUID_format `{SecureHash}
    (Namespace EntityType Seed : FString) (Counter : Z) (EntityName : FString)
    (this : UAegisSeedSubsystem) :
  let Input := GUIDInput Namespace EntityType Seed Counter EntityName in
  let GUID :=
    (GenerateGUID Namespace EntityType Seed Counter EntityName this).1 in
  (exists G1 G2 G3 G4,
      GUID = NamespaceCodeOf (KeyFold Namespace)
               ++ TEXT "-" ++ G1 ++ TEXT "-" ++ G2 ++ TEXT "-" ++ G3
               ++ TEXT "-" ++ G4
      /\ length G1 = 8%nat /\ length G2 = 4%nat
      /\ length G3 = 4%nat /\ length G4 = 12%nat
      /\ forallb IsUpperHex (G1 ++ G2 ++ G3 ++ G4) = true)
  /\ (IsAscii Input ->
      GUID = GUIDFormat (NamespaceCodeOf (KeyFold Namespace)) (HashOf Input)).
Proof.
  intros Input GUID. subst GUID. rewrite GenerateGUID_as_computed.
  fold Input. split.
  - destruct (GUID_group_lengths Input) as (H1 & H2 & H3 & H4).
    pose proof (ComputeSHA256_lower_hex Input) as Hlow.
    eexists _, _, _, _. split; [reflexivity|].
    split; [exact H1|]. split; [exact H2|]. split; [exact H3|].
    split; [exact H4|].
    rewrite !forallb_app, !HashChars_upper_hex by done. done.
  - intros Hascii. unfold HashOf. by rewrite ComputeSHA256_ascii.
Qed.

Lemma GenerateGUID_format_witness :
  (GenerateGUID (TEXT "actor") (TEXT "StaticMeshActor") (TEXT "seed") 7
     (TEXT "Cube") NewSubsystem).1
  = GUIDFormat (NamespaceCodeOf (KeyFold (TEXT "actor")))
      (HashOf
         (GUIDInput (TEXT "actor") (TEXT "StaticMeshActor") (TEXT "seed") 7
            (TEXT "Cube"))).
Proof.
  apply (proj2 (GenerateGUID_format (TEXT "actor") (TEXT "StaticMeshActor")
                  (TEXT "seed") 7 (TEXT "Cube") NewSubsystem)).
  apply (bool_decide_unpack _). vm_compute. exact I.
Defined.

(** With the table read letter for letter, ["ACTOR"] is not listed and the
    GUID would start with ["UNK"]; the code returns one that starts with
    ["ACT"]. *)
Lemma GenerateGUID_upper_case_namespace :
  show (GenerateGUID (TEXT "ACTOR") (TEXT "StaticMeshActor") (TEXT "seed") 7
          (TEXT "Cube") NewSubsystem).1
    = "ACT-C48A2D15-8B9A-FA37-FC0990F25B19"%string
  /\ show (GUIDFormat (NamespaceCodeOf (TEXT "ACTOR"))
            (HashOf
               (GUIDInput (TEXT "ACTOR") (TEXT "StaticMeshActor") (TEXT "seed")
                  7 (TEXT "Cube"))))
    = "UNK-C48A2D15-8B9A-FA37-FC0990F25B19"%string
  /\ (GenerateGUID (TEXT "ACTOR") (TEXT "StaticMeshActor") (TEXT "seed") 7
        (TEXT "Cube") NewSubsystem).1
     <> GUIDFormat (NamespaceCodeOf (TEXT "ACTOR"))
          (HashOf
             (GUIDInput (TEXT "ACTOR") (TEXT "StaticMeshActor") (TEXT "seed")
                7 (TEXT "Cube"))).
Proof. vm_compute. repeat split. discriminate. Qed.

(** ** C8: what is hashed *)

(** C8 at the input ["é"] (the one [TCHAR] U+00E9).  Its UTF-8 conversion is
    the two bytes C3 A9, but the size passed to [HashBuffer] is
    [Input.Len() = 1], so only the byte C3 is digested: with SHA-1 the result
    is the digest of that single byte, not the digest of the input, and
    ["è"] (U+00E8, UTF-8 C3 A8) gets the same hash. *)
Theorem ComputeSHA256_truncates_non_ascii :
  TCHAR_TO_UTF8 [0xE9] = [xc3; xa9]
  /\ (forall H : SecureHash,
        @ComputeSHA256 H [0xE9] = HexEncode (FSHAHash_bytes (FSHA1_Digest [xc3])))
  /\ show (ComputeSHA256 [0xE9])
     = "8bf7b464aaa2c2b536aa1d76a1297c19155f5603"%string
  /\ show (HexEncode (FSHA1_Digest (TCHAR_TO_UTF8 [0xE9])))
     = "bf15be717ac1b080b4f1c456692825891ff5073d"%string
  /\ (forall H : SecureHash, @ComputeSHA256 H [0xE9] = @ComputeSHA256 H [0xE8]).
Proof.
  split; [reflexivity|]. split; [|split; [|split]].
  - intros H. by rewrite ComputeSHA256_unfold.
  - by vm_compute.
  - by vm_compute.
  - intros H. by rewrite !ComputeSHA256_unfold.
Qed.

(** Through [GenerateGUID] the entity names ["Café"] and ["Cafè"] get the
    same GUID: the last UTF-8 byte of the input string is never digested. *)
Example GenerateGUID_non_ascii_names_collide :
  (GenerateGUID (TEXT "actor") (TEXT "StaticMeshActor") (TEXT "seed") 7
     (TEXT "Caf" ++ [0xE9]) NewSubsystem).1
  = (GenerateGUID (TEXT "actor") (TEXT "StaticMeshActor") (TEXT "seed") 7
       (TEXT "Caf" ++ [0xE8]) NewSubsystem).1.
Proof. by vm_compute. Qed.

(** ** Registration *)

(** The two outcomes of [RegisterGUID]. *)
Lemma RegisterGUID_cases GUID EntityPath EntityType Metadata UtcNow this :
  ((exists e, TMap_Find (GUIDRegistry this) GUID = Some e
              /\ KeyFold (FAegisGUIDEntry.EntityPath e) <> KeyFold EntityPath)
   \/ (exists g, TMap_Find (PathToGUIDMap this) EntityPath = Some g
                 /\ KeyFold g <> KeyFold GUID))
  /\ RegisterGUID GUID EntityPath EntityType Metadata UtcNow this = (false, this)
  \/
  (forall e, TMap_Find (GUIDRegistry this) GUID = Some e ->
             KeyFold (FAegisGUIDEntry.EntityPath e) = KeyFold EntityPath)
  /\ (forall g, TMap_Find (PathToGUIDMap this) EntityPath = Some g ->
                KeyFold g = KeyFold GUID)
  /\ exists Entry,
      RegisterGUID GUID EntityPath EntityType Metadata UtcNow this
      = (true,
         {| GUIDRegistry := TMap_Add (GUIDRegistry this) GUID Entry;
            PathToGUIDMap := TMap_Add (PathToGUIDMap this) EntityPath GUID;
            SnapshotStorage := SnapshotStorage this;
            GlobalSeed := GlobalSeed this;
            SeedCounter := SeedCounter this |})
      /\ FAegisGUIDEntry.GUID Entry = GUID
      /\ FAegisGUIDEntry.EntityPath Entry = EntityPath
      /\ FAegisGUIDEntry.EntityType Entry = EntityType
      /\ FAegisGUIDEntry.Metadata Entry = Metadata.
Proof.
  unfold RegisterGUID.
  destruct (TMap_Find (GUIDRegistry this) GUID) as [e0|] eqn:Hg;
    [destruct (FAegisGUIDEntry.EntityPath e0 != EntityPath) eqn:Hpath|].
  - left. split; [|done]. left. exists e0. split; [done|].
    by apply FString_ne_true.
  - apply FString_ne_false in Hpath.
    destruct (TMap_Find (PathToGUIDMap this) EntityPath) as [g1|] eqn:Hp;
      [destruct (g1 != GUID) eqn:Hguid|].
    + left. split; [|done]. right. exists g1. split; [done|].
      by apply FString_ne_true.
    + apply FString_ne_false in Hguid. right.
      split; [by intros ? [= <-]|]. split; [by intros ? [= <-]|].
      eexists. split; [reflexivity|]. done.
    + right. split; [by intros ? [= <-]|]. split; [done|].
      eexists. split; [reflexivity|]. done.
  - destruct (TMap_Find (PathToGUIDMap this) EntityPath) as [g1|] eqn:Hp;
      [destruct (g1 != GUID) eqn:Hguid|].
    + left. split; [|done]. right. exists g1. split; [done|].
      by apply FString_ne_true.
    + apply FString_ne_false in Hguid. right.
      split; [done|]. split; [by intros ? [= <-]|].
      eexists. split; [reflexivity|]. done.
    + right. split; [done|]. split; [done|].
      eexists. split; [reflexivity|]. done.
Qed.

Lemma TMap_Find_lookup {V} (m : gmap (list N) (list N * V)) k kv :
  m !! KeyFold k = Some kv -> TMap_Find m k = Some kv.2.
Proof. unfold TMap_Find. by intros ->. Qed.

(** ** C4: the registry and the path map are inverse to each other *)

Lemma registry_inv_NewSubsystem : registry_inv NewSubsystem.
Proof. split; intros ???; simpl; unfold TMap_Empty; by rewrite lookup_empty. Qed.

Lemma registry_inv_ClearGUIDRegistry this : registry_inv (ClearGUIDRegistry this).
Proof. split; intros ???; simpl; unfold TMap_Empty; by rewrite lookup_empty. Qed.

Lemma registry_inv_frame this this' :
  GUIDRegistry this' = GUIDRegistry this ->
  PathToGUIDMap this' = PathToGUIDMap this ->
  registry_inv this -> registry_inv this'.
Proof. unfold registry_inv. by intros -> ->. Qed.

Lemma registry_inv_RegisterGUID GUID EntityPath EntityType Metadata UtcNow this :
  registry_inv this ->
  registry_inv (RegisterGUID GUID EntityPath EntityType Metadata UtcNow this).2.
Proof.
  intros [HG HP].
  destruct (RegisterGUID_cases GUID EntityPath EntityType Metadata UtcNow this)
    as [[_ ->]|(Hpath & Hguid & Entry & -> & HEg & HEp & _)]; [by split|].
  unfold registry_inv. cbn [snd GUIDRegistry PathToGUIDMap]. unfold TMap_Add.
  split.
  - intros k g e. rewrite lookup_insert. case_decide as Hk.
    + intros [= <- <-]. rewrite HEp, lookup_insert_eq. by rewrite HEg.
    + intros Hold. destruct (HG _ _ _ Hold) as (-> & Hb & HGe).
      split; [done|]. split; [|done].
      rewrite lookup_insert_ne; [done|]. intros Heq.
      rewrite <- Heq in Hb. apply TMap_Find_lookup, Hguid in Hb. done.
  - intros k p g. rewrite lookup_insert. case_decide as Hk.
    + intros [= <- <-]. split; [done|]. exists Entry.
      by rewrite lookup_insert_eq.
    + intros Hold. destruct (HP _ _ _ Hold) as [-> (e & He & Hep)].
      split; [done|]. exists e. split; [|done].
      rewrite lookup_insert_ne; [done|]. intros Heq.
      rewrite <- Heq in He. apply TMap_Find_lookup, Hpath in He.
      simpl in He. congruence.
Qed.

Lemma registry_inv_run_call this c :
  registry_inv this -> registry_inv (run_call this c).
Proof.
  destruct c; simpl.
  - apply registry_inv_RegisterGUID.
  - intros _. apply registry_inv_ClearGUIDRegistry.
  - apply registry_inv_frame; by destruct bResetCounter.
  - by apply registry_inv_frame.
  - apply registry_inv_frame; unfold DeleteSnapshot; simpl; by case_match.
Qed.

Lemma registry_inv_run_calls calls this :
  registry_inv this -> registry_inv (run_calls calls this).
Proof.
  revert this. induction calls as [|c calls IH]; intros this Hinv; [done|].
  simpl. apply IH. by apply registry_inv_run_call.
Qed.

(** C4. After any sequence of calls on a fresh subsystem ([RegisterGUID] and
    [ClearGUIDRegistry] among them), every GUID [g] stored in [GUIDRegistry]
    with entry [e] has [PathToGUIDMap] map [e.EntityPath] back to [g], and
    every path [p] that [PathToGUIDMap] stores with GUID [g] has
    [GUIDRegistry] hold [g] with an entry whose [EntityPath] is [p].  The
    same read through [Find]: an entry found for a GUID carries that GUID
    (up to the case folding of the lookup) and its path is mapped to the
    entry's GUID; a GUID found for a path has an entry, carrying that GUID
    and that path (up to the case folding of the lookup). *)
Theorem registry_two_way (calls : list Call) :
  let this := run_calls calls NewSubsystem in
  (forall g e, (g, e) ∈ TMap_Pairs (GUIDRegistry this) ->
     TMap_Find (PathToGUIDMap this) (FAegisGUIDEntry.EntityPath e) = Some g
     /\ (FAegisGUIDEntry.EntityPath e, g) ∈ TMap_Pairs (PathToGUIDMap this))
  /\ (forall p g, (p, g) ∈ TMap_Pairs (PathToGUIDMap this) ->
     exists e, TMap_Find (GUIDRegistry this) g = Some e
               /\ FAegisGUIDEntry.EntityPath e = p
               /\ (g, e) ∈ TMap_Pairs (GUIDRegistry this))
  /\ (forall g e, TMap_Find (GUIDRegistry this) g = Some e ->
     FAegisGUIDEntry.GUID e == g = true
     /\ TMap_Find (PathToGUIDMap this) (FAegisGUIDEntry.EntityPath e)
        = Some (FAegisGUIDEntry.GUID e))
  /\ (forall p g, TMap_Find (PathToGUIDMap this) p = Some g ->
     exists e, TMap_Find (GUIDRegistry this) g = Some e
               /\ FAegisGUIDEntry.EntityPath e == p = true
               /\ FAegisGUIDEntry.GUID e = g).
Proof.
  intros this.
  destruct (registry_inv_run_calls calls _ registry_inv_NewSubsystem)
    as [HG HP]. fold this in HG, HP.
  split; [|split; [|split]].
  - intros g e [k Hk]%TMap_Pairs_lookup.
    destruct (HG _ _ _ Hk) as (_ & Hb & _). split.
    + unfold TMap_Find. by rewrite Hb.
    + apply TMap_Pairs_lookup. eauto.
  - intros p g [k Hk]%TMap_Pairs_lookup.
    destruct (HP _ _ _ Hk) as [_ (e & He & Hep)]. exists e. repeat split.
    + unfold TMap_Find. by rewrite He.
    + done.
    + apply TMap_Pairs_lookup. eauto.
  - intros g e. unfold TMap_Find at 1.
    destruct (GUIDRegistry this !! KeyFold g) as [[g0 e0]|] eqn:Hk; [|done].
    intros [= ->]. destruct (HG _ _ _ Hk) as (Hfold & Hb & ->). split.
    + by apply FString_eq_true.
    + unfold TMap_Find. by rewrite Hb.
  - intros p g. unfold TMap_Find at 1.
    destruct (PathToGUIDMap this !! KeyFold p) as [[p0 g0]|] eqn:Hk; [|done].
    intros [= ->]. destruct (HP _ _ _ Hk) as [Hfold (e & He & Hep)].
    exists e. destruct (HG _ _ _ He) as (_ & _ & HGe). repeat split.
    + unfold TMap_Find. by rewrite He.
    + apply FString_eq_true. by rewrite Hep.
    + done.
Qed.

(** ** C5: registration is all or nothing *)

(** C5, as the code has it. If a GUID equal to [GUID] up to the case of
    ASCII letters is registered to a path that differs from [EntityPath] by
    more than the case of ASCII letters, or a path equal to [EntityPath] up
    to case is mapped to a GUID that differs from [GUID] by more than case,
    [RegisterGUID] returns [false] and the subsystem object is unchanged.
    Otherwise it returns [true], [GUIDRegistry] then finds under [GUID] an
    entry with this GUID, [EntityPath], [EntityType] and [Metadata],
    [PathToGUIDMap] finds [GUID] under [EntityPath], and the snapshot store,
    the seed and the counter are unchanged. *)
Theorem RegisterGUID_all_or_nothing
    (GUID EntityPath EntityType Metadata : FString) (UtcNow : Z)
    (this : UAegisSeedSubsystem) :
  (RegisteredElsewhere this GUID EntityPath
   /\ RegisterGUID GUID EntityPath EntityType Metadata UtcNow this
      = (false, this))
  \/ (~ RegisteredElsewhere this GUID EntityPath
      /\ exists this' Entry,
          RegisterGUID GUID EntityPath EntityType Metadata UtcNow this
            = (true, this')
          /\ TMap_Find (GUIDRegistry this') GUID = Some Entry
          /\ FAegisGUIDEntry.GUID Entry = GUID
          /\ FAegisGUIDEntry.EntityPath Entry = EntityPath
          /\ FAegisGUIDEntry.EntityType Entry = EntityType
          /\ FAegisGUIDEntry.Metadata Entry = Metadata
          /\ TMap_Find (PathToGUIDMap this') EntityPath = Some GUID
          /\ SnapshotStorage this' = SnapshotStorage this
          /\ GlobalSeed this' = GlobalSeed this
          /\ SeedCounter this' = SeedCounter this).
Proof.
  destruct (RegisterGUID_cases GUID EntityPath EntityType Metadata UtcNow this)
    as [[Hconflict Hres]|(Hpath & Hguid & Entry & Hres & HEg & HEp & HEt & HEm)].
  - left. by split.
  - right. split.
    + intros [(e & He & Hne)|(g & Hg & Hne)]; [by apply Hne, Hpath|].
      by apply Hne, Hguid.
    + eexists _, Entry. split; [exact Hres|].
      cbn [GUIDRegistry PathToGUIDMap SnapshotStorage GlobalSeed SeedCounter].
      by rewrite !TMap_Find_Add_same.
Qed.

(** With ["GUID-1"] registered to ["/Game/Map.Cube"]: registering it to
    ["/Game/Map.CUBE"] is a registration to a different path string, yet it
    returns [true] and replaces the entry and the path key; and registering
    ["guid-1"] to ["/Game/Other.Cube"], neither of which is stored, returns
    [false] and changes nothing. *)
Lemma RegisterGUID_path_differing_in_case :
  let this :=
    (RegisterGUID (TEXT "GUID-1") (TEXT "/Game/Map.Cube") (TEXT "Actor")
       (TEXT "{}") 0 NewSubsystem).2 in
  (RegisteredElsewhere_exact this (TEXT "GUID-1") (TEXT "/Game/Map.CUBE")
   /\ (RegisterGUID (TEXT "GUID-1") (TEXT "/Game/Map.CUBE") (TEXT "Actor")
         (TEXT "{}") 1 this).1 = true
   /\ (RegisterGUID (TEXT "GUID-1") (TEXT "/Game/Map.CUBE") (TEXT "Actor")
         (TEXT "{}") 1 this).2 <> this)
  /\ (~ RegisteredElsewhere_exact this (TEXT "guid-1")
          (TEXT "/Game/Other.Cube")
      /\ RegisterGUID (TEXT "guid-1") (TEXT "/Game/Other.Cube") (TEXT "Actor")
           (TEXT "{}") 1 this = (false, this)).
Proof.
  intros this.
  destruct (TMap_Pairs (GUIDRegistry this)) as [|[g e] l] eqn:HG;
    [by vm_compute in HG|].
  pose proof HG as HG'. vm_compute in HG'. injection HG' as Hg He Hl.
  destruct (TMap_Pairs (PathToGUIDMap this)) as [|[p g'] l'] eqn:HP;
    [by vm_compute in HP|].
  pose proof HP as HP'. vm_compute in HP'. injection HP' as Hp Hg' Hl'.
  split; [split; [|split]|split].
  - left. exists e. split.
    + rewrite HG, <- Hg. apply list_elem_of_here.
    + rewrite <- He. by vm_compute.
  - by vm_compute.
  - intros Heq. apply (f_equal (fun s => TMap_Pairs (PathToGUIDMap s))) in Heq.
    vm_compute in Heq. discriminate.
  - unfold RegisteredElsewhere_exact. rewrite HG, HP. subst l l'.
    intros [(e0 & Hin%list_elem_of_singleton & _)
           |(g0 & Hin%list_elem_of_singleton & _)].
    + rewrite <- Hg in Hin. by injection Hin.
    + rewrite <- Hp in Hin. by injection Hin.
  - by vm_compute.
Qed.

(** ** C6: the snapshot store *)

Lemma SnapshotStorage_run_call this c SnapshotId :
  TMap_Find (SnapshotStorage (run_call this c)) SnapshotId
  = last_stored SnapshotId [c] (TMap_Find (SnapshotStorage this) SnapshotId).
Proof.
  destruct c; simpl.
  - unfold RegisterGUID. by repeat case_match.
  - done.
  - by destruct bResetCounter.
  - apply TMap_Find_Add.
  - unfold DeleteSnapshot.
    destruct (TMap_Remove (SnapshotStorage this) SnapshotId0) as [n m] eqn:Hr.
    replace m with (TMap_Remove (SnapshotStorage this) SnapshotId0).2
      by (by rewrite Hr).
    case_match; simpl; apply TMap_Find_Remove.
Qed.

Lemma SnapshotStorage_run_calls calls this SnapshotId :
  TMap_Find (SnapshotStorage (run_calls calls this)) SnapshotId
  = last_stored SnapshotId calls (TMap_Find (SnapshotStorage this) SnapshotId).
Proof.
  revert this. induction calls as [|c calls IH]; intros this; [done|].
  simpl. rewrite IH, SnapshotStorage_run_call. by destruct c.
Qed.

(** C6, as the code has it. [StoreSnapshot] always returns [true] and
    [LoadSnapshot] of the same id then returns exactly the data;
    [DeleteSnapshot] returns [true] exactly when something is stored for the
    id, and [LoadSnapshot] of the id then returns the empty string; and
    after any calls on a fresh subsystem [LoadSnapshot] returns the data of
    the last store under an id equal to the asked one up to the case of ASCII
    letters, or the empty string when there was no such store or a delete of
    such an id came after it.  [LoadSnapshot] hands the object back
    unchanged. *)
Theorem snapshot_store_round_trip
    (SnapshotId SnapshotData : FString) (calls : list Call)
    (this : UAegisSeedSubsystem) :
  (StoreSnapshot SnapshotId SnapshotData this).1 = true
  /\ LoadSnapshot SnapshotId (StoreSnapshot SnapshotId SnapshotData this).2
     = (SnapshotData, (StoreSnapshot SnapshotId SnapshotData this).2)
  /\ (DeleteSnapshot SnapshotId this).1
     = bool_decide (is_Some (TMap_Find (SnapshotStorage this) SnapshotId))
  /\ (LoadSnapshot SnapshotId (DeleteSnapshot SnapshotId this).2).1 = TEXT ""
  /\ LoadSnapshot SnapshotId (run_calls calls NewSubsystem)
     = (default (TEXT "") (last_stored SnapshotId calls None),
        run_calls calls NewSubsystem).
Proof.
  split; [done|]. split; [|split; [|split]].
  - unfold LoadSnapshot, StoreSnapshot. simpl.
    by rewrite TMap_Find_Add_same.
  - unfold DeleteSnapshot, TMap_Remove, TMap_Find.
    by destruct (SnapshotStorage this !! KeyFold SnapshotId).
  - pose proof (SnapshotStorage_run_call this (CallDeleteSnapshot SnapshotId)
                  SnapshotId) as Hd.
    simpl in Hd. rewrite FString_eq_refl in Hd.
    unfold LoadSnapshot. by rewrite Hd.
  - unfold LoadSnapshot. rewrite SnapshotStorage_run_calls.
    change (SnapshotStorage NewSubsystem) with (@TMap_Empty (list N)).
    rewrite TMap_Find_Empty. by destruct (last_stored SnapshotId calls None).
Qed.

(** After the one call [StoreSnapshot("snap-1", "{}")] nothing was ever
    stored under the id ["SNAP-1"], yet [LoadSnapshot("SNAP-1")] returns
    ["{}"], not the empty string. *)
Lemma LoadSnapshot_id_differing_in_case :
  (forall Data,
      CallStoreSnapshot (TEXT "SNAP-1") Data
        ∉ [CallStoreSnapshot (TEXT "snap-1") (TEXT "{}")])
  /\ (LoadSnapshot (TEXT "SNAP-1")
        (run_calls [CallStoreSnapshot (TEXT "snap-1") (TEXT "{}")]
           NewSubsystem)).1 = TEXT "{}"
  /\ TEXT "{}" <> TEXT "".
Proof.
  split; [|split].
  - intros Data [Heq|Hin%elem_of_nil]%elem_of_cons; [|done].
    by vm_compute in Heq.
  - by vm_compute.
  - by vm_compute.
Qed.

(** * Further properties *)

(** ** Paths and entity names *)

Lemma FindLastChar_from_spec (s : FString) (c : TCHAR) (i : Z) (found : option Z) :
  match FindLastChar_from i s c found with
  | None => found = None /\ c ∉ s
  | Some k =>
      (found = Some k /\ c ∉ s)
      \/ (exists n, k = (i + Z.of_nat n)%Z /\ s !! n = Some c
                    /\ c ∉ drop (S n) s)
  end.
Proof.
  revert i found. induction s as [|x r IH]; intros i found; simpl.
  - destruct found; [left|]; split; try done; apply not_elem_of_nil.
  - specialize (IH (i + 1)%Z (if x =? c then Some i else found)).
    destruct (FindLastChar_from _ r c _) as [k|].
    + destruct IH as [[Hf Hr]|(n & -> & Hn & Hd)].
      * destruct (N.eqb_spec x c) as [->|Hne].
        -- injection Hf as <-. right. exists 0%nat.
           split; [lia|]. split; [done|]. by rewrite drop_0.
        -- left. split; [done|]. rewrite not_elem_of_cons. split; congruence.
      * right. exists (S n). split; [lia|]. done.
    + destruct IH as [Hf Hr]. destruct (N.eqb_spec x c); [done|].
      split; [done|]. rewrite not_elem_of_cons. split; congruence.
Qed.

Lemma FindLastChar_None (s : FString) (c : TCHAR) :
  FindLastChar s c = None -> c ∉ s.
Proof.
  unfold FindLastChar. pose proof (FindLastChar_from_spec s c 0 None) as H.
  intros Hn. rewrite Hn in H. tauto.
Qed.

Lemma FindLastChar_Some (s : FString) (c : TCHAR) (k : Z) :
  FindLastChar s c = Some k ->
  exists n, k = Z.of_nat n /\ s !! n = Some c /\ c ∉ drop (S n) s.
Proof.
  unfold FindLastChar. pose proof (FindLastChar_from_spec s c 0 None) as H.
  intros Hk. rewrite Hk in H. destruct H as [[? _]|(n & -> & ?)]; [done|].
  exists n. split; [lia|done].
Qed.

Lemma MidFrom_drop (s : FString) (n : nat) :
  MidFrom s (Z.of_nat n) = drop n s.
Proof.
  unfold MidFrom. rewrite Mid_take_drop. apply take_ge.
  rewrite length_drop. lia.
Qed.

(** What a successful [RegisterGUID] stores. *)
Lemma RegisterGUID_entry GUID EntityPath EntityType Metadata UtcNow this :
  (RegisterGUID GUID EntityPath EntityType Metadata UtcNow this).1 = true ->
  exists Entry,
    TMap_Find
      (GUIDRegistry (RegisterGUID GUID EntityPath EntityType Metadata UtcNow this).2)
      GUID = Some Entry
    /\ FAegisGUIDEntry.EntityPath Entry = EntityPath
    /\ FAegisGUIDEntry.EntityType Entry = EntityType
    /\ FAegisGUIDEntry.Metadata Entry = Metadata
    /\ FAegisGUIDEntry.CreatedAt Entry = UtcNow
    /\ FAegisGUIDEntry.Version Entry
       = match TMap_Find (GUIDRegistry this) GUID with
         | Some e => wrap_int32 (FAegisGUIDEntry.Version e + 1)
         | None => 1%Z
         end
    /\ FAegisGUIDEntry.EntityName Entry
       = match FindLastChar EntityPath (CHR "/") with
         | Some LastSlash => MidFrom EntityPath (LastSlash + 1)
         | None => EntityPath
         end.
Proof.
  unfold RegisterGUID.
  destruct (match TMap_Find (GUIDRegistry this) GUID with
            | Some Existing => _ | None => _ end); [done|].
  destruct (match TMap_Find (PathToGUIDMap this) EntityPath with
            | Some Existing => _ | None => _ end); [done|].
  intros _. eexists. cbn [snd GUIDRegistry].
  rewrite TMap_Find_Add_same. repeat split; reflexivity.
Qed.

(** ** Registration: what is stored, and what is left alone *)

(** X1. The [EntityName] stored by a successful [RegisterGUID] is the part of
    [EntityPath] after its last ['/'] (the whole path when it has none): the
    path is a prefix followed by the name, the name has no ['/'], and the
    prefix is empty or ends in ['/']. *)
Theorem RegisterGUID_EntityName_is_last_segment
    (GUID EntityPath EntityType Metadata : FString) (UtcNow : Z)
    (this : UAegisSeedSubsystem) :
  (RegisterGUID GUID EntityPath EntityType Metadata UtcNow this).1 = true ->
  exists Entry Prefix,
    (ResolveGUID GUID
       (RegisterGUID GUID EntityPath EntityType Metadata UtcNow this).2).1
      = Some Entry
    /\ EntityPath = Prefix ++ FAegisGUIDEntry.EntityName Entry
    /\ (CHR "/" ∉ FAegisGUIDEntry.EntityName Entry)
    /\ (Prefix = [] \/ exists Dir, Prefix = Dir ++ [CHR "/"]).
Proof.
  intros Hok. destruct (RegisterGUID_entry _ _ _ _ _ _ Hok)
    as (Entry & HE & _ & _ & _ & _ & _ & Hname).
  exists Entry. unfold ResolveGUID. cbn [fst]. rewrite HE, Hname.
  destruct (FindLastChar EntityPath (CHR "/")) as [k|] eqn:Hk.
  - apply FindLastChar_Some in Hk as (n & -> & Hn & Hrest).
    exists (take (S n) EntityPath).
    replace (Z.of_nat n + 1)%Z with (Z.of_nat (S n)) by lia.
    rewrite MidFrom_drop, take_drop. repeat split; [done|]. right.
    exists (take n EntityPath). by apply take_S_r.
  - exists []. repeat split; [|by left]. by apply FindLastChar_None.
Qed.

Lemma RegisterGUID_EntityName_is_last_segment_witness :
  exists Entry Prefix,
    (ResolveGUID (TEXT "GUID-1")
       (RegisterGUID (TEXT "GUID-1") (TEXT "/Game/Maps/Main.Cube")
          (TEXT "Actor") (TEXT "{}") 0 NewSubsystem).2).1 = Some Entry
    /\ TEXT "/Game/Maps/Main.Cube" = Prefix ++ FAegisGUIDEntry.EntityName Entry
    /\ (CHR "/" ∉ FAegisGUIDEntry.EntityName Entry)
    /\ (Prefix = [] \/ exists Dir, Prefix = Dir ++ [CHR "/"]).
Proof.
  apply (RegisterGUID_EntityName_is_last_segment (TEXT "GUID-1")
           (TEXT "/Game/Maps/Main.Cube") (TEXT "Actor") (TEXT "{}") 0
           NewSubsystem).
  vm_compute. reflexivity.
Defined.

Lemma RegisterGUID_first GUID EntityPath EntityType Metadata UtcNow this :
  TMap_Find (GUIDRegistry this) GUID = None ->
  TMap_Find (PathToGUIDMap this) EntityPath = None ->
  (RegisterGUID GUID EntityPath EntityType Metadata UtcNow this).1 = true
  /\ registered_as (RegisterGUID GUID EntityPath EntityType Metadata UtcNow this).2
       GUID EntityPath EntityType Metadata UtcNow 1.
Proof.
  intros Hg Hp. unfold RegisterGUID, registered_as. rewrite Hg, Hp.
  split; [done|]. eexists. cbn [snd GUIDRegistry PathToGUIDMap].
  rewrite !TMap_Find_Add_same. repeat split; reflexivity.
Qed.

Lemma RegisterGUID_again GUID EntityPath T0 M0 C0 V0 EntityType Metadata UtcNow this :
  registered_as this GUID EntityPath T0 M0 C0 V0 ->
  (RegisterGUID GUID EntityPath EntityType Metadata UtcNow this).1 = true
  /\ registered_as (RegisterGUID GUID EntityPath EntityType Metadata UtcNow this).2
       GUID EntityPath EntityType Metadata UtcNow (wrap_int32 (V0 + 1)).
Proof.
  intros (e & Hg & Hpath & _ & _ & _ & Hv & Hp).
  unfold RegisterGUID, registered_as. rewrite Hg, Hp, Hpath.
  assert (EntityPath != EntityPath = false) as -> by by apply FString_ne_false.
  assert (GUID != GUID = false) as -> by by apply FString_ne_false.
  split; [done|]. eexists. cbn [snd GUIDRegistry PathToGUIDMap].
  rewrite !TMap_Find_Add_same, Hv. repeat split; reflexivity.
Qed.

Lemma wrap_int32_id (z : Z) :
  (-2147483648 <= z < 2147483648)%Z -> wrap_int32 z = z.
Proof. intros Hz. unfold wrap_int32. rewrite Z.mod_small; lia. Qed.

Lemma register_updates_snoc GUID EntityPath updates u this :
  register_updates GUID EntityPath (updates ++ [u]) this
  = (RegisterGUID GUID EntityPath u.1.1 u.1.2 u.2
       (register_updates GUID EntityPath updates this)).2.
Proof. unfold register_updates. by rewrite fold_left_app. Qed.

Lemma register_returns_snoc GUID EntityPath updates u this :
  register_returns GUID EntityPath (updates ++ [u]) this
  = register_returns GUID EntityPath updates this
      ++ [(RegisterGUID GUID EntityPath u.1.1 u.1.2 u.2
             (register_updates GUID EntityPath updates this)).1].
Proof.
  revert this. induction updates as [|u0 updates IH]; intros this; [done|].
  cbn [app register_returns]. by rewrite IH.
Qed.

(** X2. Registering a GUID that is not yet registered, to a path that is not
    yet mapped, and then registering the same pair again and again, never
    fails: every one of the registrations returns [true]; the entry counts
    the registrations in [Version] (below the [int32] limit) and carries the
    entity type, the metadata and the creation time of the last one. *)
Theorem RegisterGUID_counts_versions
    (GUID EntityPath : FString) (updates : list (FString * FString * Z))
    (EntityType Metadata : FString) (UtcNow : Z) (this : UAegisSeedSubsystem) :
  TMap_Find (GUIDRegistry this) GUID = None ->
  TMap_Find (PathToGUIDMap this) EntityPath = None ->
  (Z.of_nat (length updates) + 1 < 2147483648)%Z ->
  register_returns GUID EntityPath
    (updates ++ [(EntityType, Metadata, UtcNow)]) this
  = repeat true (length updates + 1)
  /\ registered_as
       (register_updates GUID EntityPath
          (updates ++ [(EntityType, Metadata, UtcNow)]) this)
       GUID EntityPath EntityType Metadata UtcNow
       (Z.of_nat (length updates) + 1).
Proof.
  intros Hg Hp. revert EntityType Metadata UtcNow.
  induction updates as [|[[T M] C] updates IH] using rev_ind;
    intros EntityType Metadata UtcNow Hlen.
  - destruct (RegisterGUID_first GUID EntityPath EntityType Metadata UtcNow
                this Hg Hp) as [Hret Hreg].
    split; [|exact Hreg]. cbn [app register_returns fst snd repeat length].
    by rewrite Hret.
  - rewrite length_app in Hlen |- *. cbn [length] in Hlen |- *.
    destruct (IH T M C ltac:(lia)) as [IHret IHreg].
    destruct (RegisterGUID_again _ _ _ _ _ _ EntityType Metadata UtcNow _
                IHreg) as [Hret Hreg].
    split.
    + rewrite register_returns_snoc. cbn [fst snd].
      rewrite IHret, Hret. by rewrite <- repeat_cons, !Nat.add_1_r.
    + rewrite register_updates_snoc. cbn [fst snd].
      rewrite wrap_int32_id in Hreg by lia.
      by replace (Z.of_nat (length updates + 1) + 1)%Z
        with (Z.of_nat (length updates) + 1 + 1)%Z by lia.
Qed.

Lemma RegisterGUID_counts_versions_witness :
  register_returns (TEXT "GUID-1") (TEXT "/Game/Map.Cube")
    ([(TEXT "Actor", TEXT "{}", 10%Z); (TEXT "Mesh", TEXT "{}", 20%Z)]
       ++ [(TEXT "Light", TEXT "[]", 30%Z)]) NewSubsystem
  = repeat true
      (length [(TEXT "Actor", TEXT "{}", 10%Z);
               (TEXT "Mesh", TEXT "{}", 20%Z)] + 1)
  /\ registered_as
       (register_updates (TEXT "GUID-1") (TEXT "/Game/Map.Cube")
          ([(TEXT "Actor", TEXT "{}", 10%Z); (TEXT "Mesh", TEXT "{}", 20%Z)]
             ++ [(TEXT "Light", TEXT "[]", 30%Z)]) NewSubsystem)
       (TEXT "GUID-1") (TEXT "/Game/Map.Cube") (TEXT "Light") (TEXT "[]") 30
       (Z.of_nat (length [(TEXT "Actor", TEXT "{}", 10%Z);
                           (TEXT "Mesh", TEXT "{}", 20%Z)]) + 1).
Proof.
  apply (RegisterGUID_counts_versions (TEXT "GUID-1") (TEXT "/Game/Map.Cube")
           [(TEXT "Actor", TEXT "{}", 10%Z); (TEXT "Mesh", TEXT "{}", 20%Z)]
           (TEXT "Light") (TEXT "[]") 30 NewSubsystem).
  - reflexivity.
  - reflexivity.
  - vm_compute. reflexivity.
Defined.

(** X3. Whether it succeeds or not, [RegisterGUID] leaves alone what
    [ResolveGUID] returns for every other GUID (one that differs from [GUID]
    by more than the case of ASCII letters) and what [PathToGUIDMap] finds
    for every other path, and never touches the snapshot store, the seed or
    the counter. *)
Theorem RegisterGUID_leaves_others
    (GUID EntityPath EntityType Metadata : FString) (UtcNow : Z)
    (OtherGUID OtherPath : FString) (this : UAegisSeedSubsystem) :
  let this' := (RegisterGUID GUID EntityPath EntityType Metadata UtcNow this).2 in
  (KeyFold OtherGUID <> KeyFold GUID ->
     (ResolveGUID OtherGUID this').1 = (ResolveGUID OtherGUID this).1)
  /\ (KeyFold OtherPath <> KeyFold EntityPath ->
     TMap_Find (PathToGUIDMap this') OtherPath
     = TMap_Find (PathToGUIDMap this) OtherPath)
  /\ SnapshotStorage this' = SnapshotStorage this
  /\ GlobalSeed this' = GlobalSeed this
  /\ SeedCounter this' = SeedCounter this.
Proof.
  intros this'. subst this'.
  destruct (RegisterGUID_cases GUID EntityPath EntityType Metadata UtcNow this)
    as [[_ ->]|(_ & _ & Entry & -> & _)]; [done|].
  unfold ResolveGUID.
  cbn [fst snd GUIDRegistry PathToGUIDMap SnapshotStorage GlobalSeed SeedCounter].
  repeat split.
  - intros Hne. rewrite TMap_Find_Add.
    assert (GUID == OtherGUID = false) as ->; [|done].
    apply FString_eq_false. congruence.
  - intros Hne. rewrite TMap_Find_Add.
    assert (EntityPath == OtherPath = false) as ->; [|done].
    apply FString_eq_false. congruence.
Qed.

(** X4. [ClearGUIDRegistry] forgets every GUID and every path, so that any
    registration succeeds afterwards and starts again at [Version] 1; the
    snapshot store, the seed and the counter are kept. *)
Theorem ClearGUIDRegistry_forgets_all
    (GUID EntityPath EntityType Metadata : FString) (UtcNow : Z)
    (this : UAegisSeedSubsystem) :
  let this' := ClearGUIDRegistry this in
  (ResolveGUID GUID this').1 = None
  /\ TMap_Find (PathToGUIDMap this') EntityPath = None
  /\ (RegisterGUID GUID EntityPath EntityType Metadata UtcNow this').1 = true
  /\ registered_as
       (RegisterGUID GUID EntityPath EntityType Metadata UtcNow this').2
       GUID EntityPath EntityType Metadata UtcNow 1
  /\ SnapshotStorage this' = SnapshotStorage this
  /\ GlobalSeed this' = GlobalSeed this
  /\ SeedCounter this' = SeedCounter this.
Proof.
  intros this'.
  assert (TMap_Find (GUIDRegistry this') GUID = None) as Hg
    by apply TMap_Find_Empty.
  assert (TMap_Find (PathToGUIDMap this') EntityPath = None) as Hp
    by apply TMap_Find_Empty.
  destruct (RegisterGUID_first GUID EntityPath EntityType Metadata UtcNow
              this' Hg Hp) as [Hok Hreg].
  repeat split; done.
Qed.

(** ** The registry as a one-to-one correspondence *)

Lemma registry_sizes_RegisterGUID GUID EntityPath EntityType Metadata UtcNow this :
  registry_inv this ->
  size (GUIDRegistry this) = size (PathToGUIDMap this) ->
  size (GUIDRegistry
          (RegisterGUID GUID EntityPath EntityType Metadata UtcNow this).2)
  = size (PathToGUIDMap
            (RegisterGUID GUID EntityPath EntityType Metadata UtcNow this).2).
Proof.
  intros [HG HP] Hsize.
  destruct (RegisterGUID_cases GUID EntityPath EntityType Metadata UtcNow this)
    as [[_ ->]|(Hpath & Hguid & Entry & -> & _)]; [done|].
  cbn [snd GUIDRegistry PathToGUIDMap]. unfold TMap_Add.
  destruct (GUIDRegistry this !! KeyFold GUID) as [[g0 e0]|] eqn:Hg0.
  - destruct (HG _ _ _ Hg0) as (_ & Hb & _).
    rewrite (Hpath e0) in Hb by (by apply TMap_Find_lookup in Hg0).
    by rewrite !map_size_insert_Some.
  - destruct (PathToGUIDMap this !! KeyFold EntityPath) as [[p1 g1]|] eqn:Hp1.
    + destruct (HP _ _ _ Hp1) as [_ (e & He & _)].
      rewrite (Hguid g1) in He by (by apply TMap_Find_lookup in Hp1).
      congruence.
    + rewrite !map_size_insert_None by done. by rewrite Hsize.
Qed.

Lemma registry_sizes_run_calls calls this :
  registry_inv this ->
  size (GUIDRegistry this) = size (PathToGUIDMap this) ->
  size (GUIDRegistry (run_calls calls this))
  = size (PathToGUIDMap (run_calls calls this)).
Proof.
  revert this. induction calls as [|c calls IH]; intros this Hinv Hsize;
    [done|].
  simpl. apply IH; [by apply registry_inv_run_call|].
  destruct c; simpl.
  - by apply registry_sizes_RegisterGUID.
  - done.
  - by destruct bResetCounter.
  - done.
  - unfold DeleteSnapshot. simpl. by case_match.
Qed.

Lemma TMap_Pairs_length {V} (m : gmap (list N) (list N * V)) :
  length (TMap_Pairs m) = size m.
Proof. unfold TMap_Pairs. by rewrite length_fmap, length_map_to_list. Qed.

(** X5. After any sequence of calls on a fresh subsystem the registry is one
    to one: two GUIDs whose entries have the same path (up to the case of
    ASCII letters) are the same GUID (up to case) with the same entry, two
    paths mapped to the same GUID are the same path, and [GUIDRegistry] and
    [PathToGUIDMap] hold the same number of pairs. *)
Theorem registry_one_to_one (calls : list Call)
    (GUID1 GUID2 Path1 Path2 : FString) (Entry1 Entry2 : FAegisGUIDEntry.t) :
  let this := run_calls calls NewSubsystem in
  ((ResolveGUID GUID1 this).1 = Some Entry1 ->
   (ResolveGUID GUID2 this).1 = Some Entry2 ->
   FAegisGUIDEntry.EntityPath Entry1 == FAegisGUIDEntry.EntityPath Entry2 = true ->
   GUID1 == GUID2 = true /\ Entry1 = Entry2)
  /\ (TMap_Find (PathToGUIDMap this) Path1 = Some GUID1 ->
      TMap_Find (PathToGUIDMap this) Path2 = Some GUID2 ->
      GUID1 == GUID2 = true ->
      Path1 == Path2 = true)
  /\ length (TMap_Pairs (GUIDRegistry this))
     = length (TMap_Pairs (PathToGUIDMap this)).
Proof.
  intros this.
  destruct (registry_inv_run_calls calls _ registry_inv_NewSubsystem)
    as [HG HP]. fold this in HG, HP.
  split; [|split].
  - unfold ResolveGUID, TMap_Find. cbn [fst].
    destruct (GUIDRegistry this !! KeyFold GUID1) as [[g1 e1]|] eqn:H1; [|done].
    destruct (GUIDRegistry this !! KeyFold GUID2) as [[g2 e2]|] eqn:H2; [|done].
    intros [= ->] [= ->] Hpath%FString_eq_true.
    destruct (HG _ _ _ H1) as (Hk1 & Hb1 & _).
    destruct (HG _ _ _ H2) as (Hk2 & Hb2 & _).
    rewrite Hpath, Hb2 in Hb1. injection Hb1 as _ <-.
    assert (KeyFold GUID1 = KeyFold GUID2) as Hk by congruence.
    split; [by apply FString_eq_true|]. rewrite Hk, H2 in H1. congruence.
  - unfold TMap_Find.
    destruct (PathToGUIDMap this !! KeyFold Path1) as [[p1 g1]|] eqn:H1; [|done].
    destruct (PathToGUIDMap this !! KeyFold Path2) as [[p2 g2]|] eqn:H2; [|done].
    intros [= ->] [= ->] Hg%FString_eq_true.
    destruct (HP _ _ _ H1) as (Hk1 & e1 & He1 & Hp1).
    destruct (HP _ _ _ H2) as (Hk2 & e2 & He2 & Hp2).
    rewrite Hg, He2 in He1. apply FString_eq_true. congruence.
  - rewrite !TMap_Pairs_length.
    by apply registry_sizes_run_calls; [apply registry_inv_NewSubsystem|].
Qed.

(** ** Actor lookup *)

Lemma FindActorByPath_search_spec (It : list AActor) (ActorPath : FString) :
  match FindActorByPath_search It ActorPath with
  | Some Actor =>
      exists Before After,
        It = Before ++ Actor :: After
        /\ (GetName Actor == ActorPath = true
            \/ GetPathName Actor == ActorPath = true)
        /\ VerifyGUIDEntity_search Before ActorPath = false
  | None => VerifyGUIDEntity_search It ActorPath = false
  end.
Proof.
  induction It as [|A It IH]; simpl; [done|].
  destruct (GetName A == ActorPath) eqn:Hn; simpl.
  { exists [], It. repeat split; auto. }
  destruct (GetPathName A == ActorPath) eqn:Hp; simpl.
  { exists [], It. repeat split; auto. }
  destruct (FindActorByPath_search It ActorPath) as [Actor|]; [|done].
  destruct IH as (Before & After & -> & Hm & Hb).
  exists (A :: Before), After. repeat split; [done|].
  simpl. by rewrite Hp, Hn.
Qed.

(** X6. [FindActorByPath] and [VerifyGUIDEntity] agree: the verification
    succeeds exactly when the lookup finds an actor.  The actor found is the
    one the current level finds under that name, or else the first iterated
    actor whose name or path name equals [ActorPath] (up to the case of ASCII
    letters); without a world nothing is found. *)
Theorem FindActorByPath_agrees_with_VerifyGUIDEntity
    (GEditor : option UEditorEngine) (GUID ActorPath : FString)
    (this : UAegisSeedSubsystem) :
  (VerifyGUIDEntity GEditor GUID ActorPath this).1
    = bool_decide (is_Some (FindActorByPath GEditor ActorPath))
  /\ (forall Actor, FindActorByPath GEditor ActorPath = Some Actor ->
      exists World, EditorWorldOf GEditor = Some World
        /\ (CurrentLevel_FindObject_AActor World ActorPath = Some Actor
            \/ (CurrentLevel_FindObject_AActor World ActorPath = None
                /\ exists Before After,
                    ActorIterator World = Before ++ Actor :: After
                    /\ (GetName Actor == ActorPath = true
                        \/ GetPathName Actor == ActorPath = true)
                    /\ forall Other, Other ∈ Before ->
                         GetName Other == ActorPath = false
                         /\ GetPathName Other == ActorPath = false)))
  /\ (EditorWorldOf GEditor = None -> FindActorByPath GEditor ActorPath = None).
Proof.
  unfold VerifyGUIDEntity, FindActorByPath, EditorWorldOf.
  destruct GEditor as [[[World|]]|]; simpl; [|done..].
  destruct (CurrentLevel_FindObject_AActor World ActorPath) as [Found|] eqn:HF;
    simpl.
  - repeat split; [|done]. intros Actor [= <-]. exists World. eauto.
  - pose proof (FindActorByPath_search_spec (ActorIterator World) ActorPath)
      as Hs.
    destruct (FindActorByPath_search (ActorIterator World) ActorPath)
      as [Actor|].
    + destruct Hs as (Before & After & Hit & Hm & Hb). repeat split; [|  |done].
      * rewrite bool_decide_eq_true_2 by eauto.
        apply VerifyGUIDEntity_search_spec. exists Actor. split.
        -- rewrite Hit. apply elem_of_app. right. by left.
        -- tauto.
      * intros ? [= <-]. exists World. split; [done|]. right. split; [done|].
        exists Before, After. split; [done|]. split; [done|].
        intros Other HO.
        assert (~ (GetPathName Other == ActorPath = true
                   \/ GetName Other == ActorPath = true)) as Hno.
        { intros Hyes.
          assert (VerifyGUIDEntity_search Before ActorPath = true) as Ht
            by (apply VerifyGUIDEntity_search_spec; eauto).
          congruence. }
        split; apply not_true_is_false; tauto.
    + repeat split; [|done..]. rewrite Hs.
      symmetry. apply bool_decide_eq_false_2. by intros [? ?].
Qed.


(** ** Listing snapshots *)

Lemma TMap_wf_Empty {V} : TMap_wf (@TMap_Empty V).
Proof. intros i k v. unfold TMap_Empty. by rewrite lookup_empty. Qed.

Lemma TMap_wf_Add {V} (m : gmap (list N) (list N * V)) k v :
  TMap_wf m -> TMap_wf (TMap_Add m k v).
Proof.
  intros Hwf i k' v'. unfold TMap_Add. rewrite lookup_insert.
  case_decide; [by intros [= <- <-]|]. apply Hwf.
Qed.

Lemma TMap_wf_Remove {V} (m : gmap (list N) (list N * V)) k :
  TMap_wf m -> TMap_wf (TMap_Remove m k).2.
Proof.
  intros Hwf i k' v'. unfold TMap_Remove. cbn [snd]. rewrite lookup_delete.
  case_decide; [done|]. apply Hwf.
Qed.

Lemma SnapshotStorage_wf (calls : list Call) (this : UAegisSeedSubsystem) :
  TMap_wf (SnapshotStorage this) ->
  TMap_wf (SnapshotStorage (run_calls calls this)).
Proof.
  revert this. induction calls as [|c calls IH]; intros this Hwf; [done|].
  simpl. apply IH. destruct c; simpl.
  - unfold RegisterGUID. by repeat case_match.
  - done.
  - by destruct bResetCounter.
  - by apply TMap_wf_Add.
  - unfold DeleteSnapshot.
    pose proof (TMap_wf_Remove (SnapshotStorage this) SnapshotId Hwf) as Hr.
    destruct (TMap_Remove (SnapshotStorage this) SnapshotId) as [n m].
    by case_match.
Qed.

(** Whatever the slots are, a loop over the map visits each stored pair
    once. *)
Lemma TMap_Iterate_Permutation {V} (Slot : FString -> nat)
    (m : gmap (list N) (list N * V)) :
  TMap_Iterate Slot m ≡ₚ TMap_Pairs m.
Proof. unfold TMap_Iterate. apply merge_sort_Permutation. Qed.

Lemma TMap_Iterate_elem_of {V} (Slot : FString -> nat)
    (m : gmap (list N) (list N * V)) kv :
  kv ∈ TMap_Iterate Slot m <-> kv ∈ TMap_Pairs m.
Proof. by rewrite TMap_Iterate_Permutation. Qed.

Lemma TMap_Iterate_length {V} (Slot : FString -> nat)
    (m : gmap (list N) (list N * V)) :
  length (TMap_Iterate Slot m) = size m.
Proof. by rewrite TMap_Iterate_Permutation, TMap_Pairs_length. Qed.

(** With the slots handed out in the order of three additions, the loop
    visits the pairs in that order, not in the order of their keys. *)
Example TMap_Iterate_insertion_order :
  let Slot k :=
    if bool_decide (k = TEXT "zz") then 0%nat
    else if bool_decide (k = TEXT "a") then 1%nat else 2%nat in
  let m :=
    TMap_Add (TMap_Add (TMap_Add TMap_Empty (TEXT "zz") 1%Z) (TEXT "a") 2%Z)
      (TEXT "M") 3%Z in
  show <$> (TMap_Iterate Slot m).*1 = ["zz"; "a"; "M"]%string
  /\ show <$> (TMap_Pairs m).*1 <> show <$> (TMap_Iterate Slot m).*1.
Proof. by vm_compute. Qed.

Lemma TMap_Pairs_Find {V} (m : gmap (list N) (list N * V)) k :
  TMap_wf m ->
  is_Some (TMap_Find m k)
  <-> exists k' v, (k', v) ∈ TMap_Pairs m /\ k' == k = true.
Proof.
  intros Hwf. split.
  - intros [v Hv]. unfold TMap_Find in Hv.
    destruct (m !! KeyFold k) as [[k' v']|] eqn:Hk; [|done].
    exists k', v'. split; [apply TMap_Pairs_lookup; eauto|].
    apply FString_eq_true. symmetry. by apply (Hwf _ _ _ Hk).
  - intros (k' & v & [i Hi]%TMap_Pairs_lookup & Heq%FString_eq_true).
    rewrite (Hwf _ _ _ Hi), Heq in Hi. unfold TMap_Find. by rewrite Hi.
Qed.

Section ListSnapshotsFacts.
Context `{JsonIO}.

(** X7. After any calls on a fresh subsystem, [ListSnapshots] lists an id
    (up to the case of ASCII letters) exactly when something is stored for
    it, and right after [StoreSnapshot(Id, Data)] it lists a snapshot with
    the id spelled as just given, described by what the reader makes of
    [Data]: name, description, checksum and entity count when [Data] reads
    as a JSON object, empty strings and a count of 0 when it does not. *)
Theorem ListSnapshots_lists_stored_ids
    (calls : list Call) (Id Data : FString) (Slot Slot' : FString -> nat) :
  let this := run_calls calls NewSubsystem in
  ((exists s, s ∈ (ListSnapshots Slot this).1
              /\ FAegisWorldSnapshot.SnapshotId s == Id = true)
   <-> is_Some (TMap_Find (SnapshotStorage this) Id))
  /\ (exists s,
        s ∈ (ListSnapshots Slot' (StoreSnapshot Id Data this).2).1
        /\ FAegisWorldSnapshot.SnapshotId s = Id
        /\ match Json_DeserializeObject Data with
           | Some JsonObj =>
               FAegisWorldSnapshot.Name s
                 = Json_GetStringField JsonObj (TEXT "name")
               /\ FAegisWorldSnapshot.Description s
                  = Json_GetStringField JsonObj (TEXT "description")
               /\ FAegisWorldSnapshot.Checksum s
                  = Json_GetStringField JsonObj (TEXT "checksum")
               /\ FAegisWorldSnapshot.EntityCount s
                  = match Json.TryGetArrayField JsonObj (TEXT "entities") with
                    | Some Entities => Z.of_nat (length Entities)
                    | None => 0%Z
                    end
           | None =>
               FAegisWorldSnapshot.Name s = []
               /\ FAegisWorldSnapshot.Description s = []
               /\ FAegisWorldSnapshot.Checksum s = []
               /\ FAegisWorldSnapshot.EntityCount s = 0%Z
           end)
  /\ (ListSnapshots Slot this).2 = this.
Proof.
  intros this.
  assert (TMap_wf (SnapshotStorage this)) as Hwf
    by apply SnapshotStorage_wf, TMap_wf_Empty.
  split; [|split; [|done]].
  - rewrite (TMap_Pairs_Find _ _ Hwf). unfold ListSnapshots. cbn [fst].
    setoid_rewrite list_elem_of_fmap.
    setoid_rewrite TMap_Iterate_elem_of.
    setoid_rewrite <- list_elem_of_fmap.
    split.
    + intros (s & [[k v] [-> Hin]]%list_elem_of_fmap & Heq).
      exists k, v. split; [done|].
      unfold ListSnapshots_Snapshot in Heq. cbn [fst snd] in Heq.
      by destruct (Json_DeserializeObject v).
    + intros (k & v & Hin & Heq). exists (ListSnapshots_Snapshot (k, v)).
      split; [apply list_elem_of_fmap; eauto|].
      unfold ListSnapshots_Snapshot. cbn [fst snd].
      by destruct (Json_DeserializeObject v).
  - exists (ListSnapshots_Snapshot (Id, Data)). split.
    + unfold ListSnapshots, StoreSnapshot. cbn [fst snd SnapshotStorage
        set_SnapshotStorage]. apply list_elem_of_fmap. exists (Id, Data).
      split; [done|]. apply TMap_Iterate_elem_of.
      apply TMap_Pairs_lookup. exists (KeyFold Id).
      unfold TMap_Add. apply lookup_insert_eq.
    + unfold ListSnapshots_Snapshot. cbn [fst snd].
      by destruct (Json_DeserializeObject Data).
Qed.

(** X8. The number of listed snapshots follows the store: [StoreSnapshot]
    adds one when nothing was stored for the id (up to case) and none when
    it overwrites, [DeleteSnapshot] takes one away exactly when it returns
    [true], and a fresh subsystem lists none. *)
Theorem ListSnapshots_count (Id Data : FString) (this : UAegisSeedSubsystem)
    (Slot Slot' : FString -> nat) :
  length (ListSnapshots Slot' (StoreSnapshot Id Data this).2).1
  = (if TMap_Find (SnapshotStorage this) Id is Some _
     then length (ListSnapshots Slot this).1
     else S (length (ListSnapshots Slot this).1))
  /\ length (ListSnapshots Slot this).1
     = (if (DeleteSnapshot Id this).1
        then S (length (ListSnapshots Slot' (DeleteSnapshot Id this).2).1)
        else length (ListSnapshots Slot' (DeleteSnapshot Id this).2).1)
  /\ (ListSnapshots Slot NewSubsystem).1 = [].
Proof.
  unfold ListSnapshots. cbn [fst]. rewrite !length_fmap, !TMap_Iterate_length.
  split; [|split].
  - unfold StoreSnapshot, TMap_Find, TMap_Add.
    cbn [snd SnapshotStorage set_SnapshotStorage].
    destruct (SnapshotStorage this !! KeyFold Id) as [kv|] eqn:Hk; simpl.
    + by rewrite map_size_insert_Some.
    + by rewrite map_size_insert_None.
  - unfold DeleteSnapshot, TMap_Remove.
    destruct (SnapshotStorage this !! KeyFold Id) as [kv|] eqn:Hk;
      cbn [fst snd SnapshotStorage set_SnapshotStorage Z.gtb Z.compare].
    + rewrite map_size_delete_Some by eauto.
      assert (size (SnapshotStorage this) <> 0%nat)
        by (eapply map_size_ne_0_lookup_2; eauto).
      lia.
    + by rewrite map_size_delete_None.
  - apply nil_length_inv. by rewrite length_fmap, TMap_Iterate_length.
Qed.

End ListSnapshotsFacts.

(** ** Capturing and querying actors *)

Section CaptureFacts.
Context `{JsonIO} `{!WorldInfo} `{StringSearch}.

Lemma MatchesClass_spec (Actor : AActor) (ClassFilter : list FString) :
  MatchesClass Actor ClassFilter = true
  <-> exists c, c ∈ ClassFilter
                /\ FString_Contains (Actor_ClassName Actor) c = true.
Proof.
  induction ClassFilter as [|c rest IH]; simpl.
  - split; [done|]. intros (c & Hc%elem_of_nil & _). done.
  - destruct (FString_Contains (Actor_ClassName Actor) c) eqn:Hc.
    + split; [|done]. intros _. exists c. split; [by left|done].
    + rewrite IH. split.
      * intros (c' & Hin & Hc'). exists c'. split; [by right|done].
      * intros (c' & [->|Hin]%elem_of_cons & Hc'); [congruence|eauto].
Qed.

Lemma HasAllTags_spec (Actor : AActor) (TagFilter : list FString) :
  HasAllTags Actor TagFilter = true
  <-> forall Tag, Tag ∈ TagFilter ->
        exists ActorTag, ActorTag ∈ Actor_Tags Actor /\ ActorTag == Tag = true.
Proof.
  induction TagFilter as [|Tag rest IH]; simpl.
  - split; [|done]. intros _ Tag Hin%elem_of_nil. done.
  - destruct (existsb _ (Actor_Tags Actor)) eqn:Hex; simpl.
    + apply existsb_exists in Hex as (t & Hin%list_elem_of_In & Ht).
      rewrite IH. split.
      * intros Hall Tag' [->|Hin']%elem_of_cons; eauto.
      * intros Hall Tag' Hin'. apply Hall. by right.
    + split; [done|]. intros Hall.
      destruct (Hall Tag) as (t & Hin & Ht); [by left|].
      assert (existsb (fun ActorTag => ActorTag == Tag) (Actor_Tags Actor)
              = true) as Hyes; [|congruence].
      apply existsb_exists. exists t. split; [by apply list_elem_of_In|done].
Qed.

Lemma CaptureAllActors_loop_spec (It : list AActor)
    (ClassFilter TagFilter : list FString) (this : UAegisSeedSubsystem) :
  exists Selected,
    CaptureAllActors_loop It ClassFilter TagFilter this
    = (fun a => Json.VObject (CaptureAllActors_ActorObj a this)) <$> Selected
    /\ sublist Selected It
    /\ forall a, a ∈ Selected
         <-> a ∈ It /\ CaptureSelects a ClassFilter TagFilter.
Proof.
  induction It as [|Actor It (Selected & Heq & Hsub & Hmem)]; simpl.
  - exists []. split; [done|]. split; [done|]. intros a.
    split; [by intros ?%elem_of_nil|by intros [?%elem_of_nil _]].
  - assert ((0 <? length ClassFilter)%nat
              && negb (MatchesClass Actor ClassFilter) = false
            <-> (ClassFilter = [] \/ MatchesClass Actor ClassFilter = true))
      as HselC.
    { destruct ClassFilter as [|c cf]; [by intuition|].
      change (0 <? length (c :: cf))%nat with true.
      destruct (MatchesClass Actor (c :: cf)); simpl; intuition congruence. }
    assert ((0 <? length TagFilter)%nat
              && negb (HasAllTags Actor TagFilter) = false
            <-> HasAllTags Actor TagFilter = true) as HselT.
    { destruct TagFilter as [|t tf]; [by intuition|].
      change (0 <? length (t :: tf))%nat with true.
      destruct (HasAllTags Actor (t :: tf)); simpl; intuition congruence. }
    assert (((0 <? length ClassFilter)%nat
               && negb (MatchesClass Actor ClassFilter) = false
             /\ (0 <? length TagFilter)%nat
                  && negb (HasAllTags Actor TagFilter) = false)
            <-> CaptureSelects Actor ClassFilter TagFilter) as Hsel.
    { unfold CaptureSelects. rewrite <- MatchesClass_spec, <- HasAllTags_spec.
      by rewrite HselC, HselT. }
    destruct ((0 <? length ClassFilter)%nat
                && negb (MatchesClass Actor ClassFilter)) eqn:Hc;
      [|destruct ((0 <? length TagFilter)%nat
                    && negb (HasAllTags Actor TagFilter)) eqn:Ht].
    1,2: exists Selected; split; [done|]; split; [by apply sublist_cons|];
      intros a; rewrite Hmem, elem_of_cons; split;
      [tauto|intros [[->|?] Hs]; [|tauto]];
      apply Hsel in Hs; destruct Hs; congruence.
    exists (Actor :: Selected). split; [by rewrite Heq|].
    split; [by apply sublist_skip|].
    intros a. rewrite !elem_of_cons, Hmem. split.
    + intros [->|?]; [|tauto]. split; [by left|]. by apply Hsel.
    + tauto.
Qed.

Lemma QueryActors_loop_spec (It : list AActor) (ClassFilter NameFilter : FString)
    (Tags : list FString) :
  exists Selected,
    QueryActors_loop It ClassFilter NameFilter Tags
    = (fun a => Json.VObject (ActorToJson a false false)) <$> Selected
    /\ sublist Selected It
    /\ forall a, a ∈ Selected
         <-> a ∈ It /\ QuerySelects a ClassFilter NameFilter Tags.
Proof.
  induction It as [|Actor It (Selected & Heq & Hsub & Hmem)]; simpl.
  - exists []. split; [done|]. split; [done|]. intros a.
    split; [by intros ?%elem_of_nil|by intros [?%elem_of_nil _]].
  - assert (forall (F s : FString),
              negb (bool_decide (F = [])) && negb (FString_Contains s F) = false
              <-> (F = [] \/ FString_Contains s F = true)) as HselF.
    { intros F s. case_bool_decide; destruct (FString_Contains s F); simpl;
        intuition congruence. }
    assert ((0 <? length Tags)%nat && negb (HasAllTags Actor Tags) = false
            <-> HasAllTags Actor Tags = true) as HselT.
    { destruct Tags as [|t tf]; [by intuition|].
      change (0 <? length (t :: tf))%nat with true.
      destruct (HasAllTags Actor (t :: tf)); simpl; intuition congruence. }
    assert ((negb (bool_decide (ClassFilter = []))
               && negb (FString_Contains (Actor_ClassName Actor) ClassFilter)
             = false
             /\ negb (bool_decide (NameFilter = []))
                  && negb (FString_Contains (GetName Actor) NameFilter) = false
             /\ (0 <? length Tags)%nat && negb (HasAllTags Actor Tags) = false)
            <-> QuerySelects Actor ClassFilter NameFilter Tags) as Hsel.
    { unfold QuerySelects. rewrite <- HasAllTags_spec.
      by rewrite !HselF, HselT. }
    destruct (negb (bool_decide (ClassFilter = [])) && _) eqn:Hc;
      [|destruct (negb (bool_decide (NameFilter = [])) && _) eqn:Hn;
        [|destruct ((0 <? length Tags)%nat && _) eqn:Ht]].
    1,2,3: exists Selected; split; [done|]; split; [by apply sublist_cons|];
      intros a; rewrite Hmem, elem_of_cons; split;
      [tauto|intros [[->|?] Hs]; [|tauto]];
      apply Hsel in Hs; destruct Hs as (? & ? & ?); congruence.
    exists (Actor :: Selected). split; [by rewrite Heq|].
    split; [by apply sublist_skip|].
    intros a. rewrite !elem_of_cons, Hmem. split.
    + intros [->|?]; [|tauto]. split; [by left|]. by apply Hsel.
    + tauto.
Qed.

(** X9. With an editor world, [CaptureAllActors] serializes an object whose
    ["actors"] array has one object per actor that passes the filters, in
    the order of the actor iteration: an empty class filter lets every class
    pass, otherwise one of its strings must be contained in the class name;
    every tag of the tag filter must equal one of the actor's tags.  Without
    a world it returns ["{}"].  The subsystem object is never changed. *)
Theorem CaptureAllActors_selects
    (World : UWorld) (ClassFilter TagFilter : list FString)
    (this : UAegisSeedSubsystem) :
  (exists Selected,
      CaptureAllActors (Some {| EditorWorld := Some World |})
        ClassFilter TagFilter this
      = (Json_Serialize
           [(TEXT "actors",
             Json.VArray
               ((fun a => Json.VObject (CaptureAllActors_ActorObj a this))
                  <$> Selected))],
         this)
      /\ sublist Selected (ActorIterator World)
      /\ forall a, a ∈ Selected
           <-> a ∈ ActorIterator World
               /\ CaptureSelects a ClassFilter TagFilter)
  /\ CaptureAllActors None ClassFilter TagFilter this = (TEXT "{}", this)
  /\ CaptureAllActors (Some {| EditorWorld := None |}) ClassFilter TagFilter this
     = (TEXT "{}", this).
Proof.
  split; [|done].
  destruct (CaptureAllActors_loop_spec (ActorIterator World) ClassFilter
              TagFilter this) as (Selected & Heq & Hsub & Hmem).
  exists Selected. unfold CaptureAllActors. cbn [GEditor_World EditorWorld].
  by rewrite Heq.
Qed.

(** X10. The object [CaptureAllActors] makes for an actor is the one
    [ActorToJson] makes with components, with a ["guid"] field in front: the
    GUID that [PathToGUIDMap] has for the actor's path name, the empty
    string when it has none.  So an actor whose path name was just
    registered is captured with that GUID. *)
Theorem CaptureAllActors_ActorObj_guid
    (Actor : AActor) (bIncludeProperties : bool)
    (GUID EntityType Metadata : FString) (UtcNow : Z)
    (this : UAegisSeedSubsystem) :
  CaptureAllActors_ActorObj Actor this
  = (TEXT "guid",
     Json.VString
       (default (TEXT "") (TMap_Find (PathToGUIDMap this) (GetPathName Actor))))
      :: ActorToJson Actor true bIncludeProperties
  /\ ((RegisterGUID GUID (GetPathName Actor) EntityType Metadata UtcNow this).1
       = true ->
      CaptureAllActors_ActorObj Actor
        (RegisterGUID GUID (GetPathName Actor) EntityType Metadata UtcNow this).2
      = (TEXT "guid", Json.VString GUID)
          :: ActorToJson Actor true bIncludeProperties).
Proof.
  assert (forall s, CaptureAllActors_ActorObj Actor s
            = (TEXT "guid",
               Json.VString
                 (default (TEXT "")
                    (TMap_Find (PathToGUIDMap s) (GetPathName Actor))))
                :: ActorToJson Actor true bIncludeProperties) as Hobj.
  { intros s. unfold CaptureAllActors_ActorObj, ActorToJson.
    by destruct (TMap_Find (PathToGUIDMap s) (GetPathName Actor)). }
  split; [apply Hobj|]. intros Hok. rewrite Hobj.
  destruct (RegisterGUID_cases GUID (GetPathName Actor) EntityType Metadata
              UtcNow this) as [[_ Hf]|(_ & _ & Entry & -> & _)].
  - rewrite Hf in Hok. done.
  - cbn [snd PathToGUIDMap]. by rewrite TMap_Find_Add_same.
Qed.

(** X11. With an editor world, [QueryActors] succeeds with the actors that
    pass its filters, in the order of the actor iteration, and both the
    ["count"] field and the message give their number; an empty class or
    name filter lets every actor pass, a non-empty one must be contained in
    the class name or in the name.  Without a world, that is, without an
    editor or with an editor that has no world, it fails with [NO_WORLD]
    and no data. *)
Theorem QueryActors_selects
    (World : UWorld) (ClassFilter NameFilter : FString) (Tags : list FString) :
  (exists Selected,
      QueryActors (Some {| EditorWorld := Some World |})
        ClassFilter NameFilter Tags
      = MakeSuccess
          (TEXT "Found " ++ FormatInt (Z.of_nat (length Selected))
             ++ TEXT " actors")
          (Some
             [(TEXT "actors",
               Json.VArray
                 ((fun a => Json.VObject (ActorToJson a false false))
                    <$> Selected));
              (TEXT "count",
               Json.VNumber (double_of_Z (Z.of_nat (length Selected))))])
      /\ sublist Selected (ActorIterator World)
      /\ forall a, a ∈ Selected
           <-> a ∈ ActorIterator World
               /\ QuerySelects a ClassFilter NameFilter Tags)
  /\ FAegisCommandResult.bSuccess (QueryActors None ClassFilter NameFilter Tags)
     = false
  /\ FAegisCommandResult.ErrorCode
       (QueryActors None ClassFilter NameFilter Tags) = TEXT "NO_WORLD"
  /\ FAegisCommandResult.Data (QueryActors None ClassFilter NameFilter Tags)
     = []
  /\ QueryActors None ClassFilter NameFilter Tags
     = MakeError (TEXT "No valid world context") (TEXT "NO_WORLD")
  /\ QueryActors (Some {| EditorWorld := None |}) ClassFilter NameFilter Tags
     = MakeError (TEXT "No valid world context") (TEXT "NO_WORLD")
  /\ MakeError (TEXT "No valid world context") (TEXT "NO_WORLD")
     = {| FAegisCommandResult.bSuccess := false;
          FAegisCommandResult.Message := TEXT "No valid world context";
          FAegisCommandResult.Data := [];
          FAegisCommandResult.ErrorCode := TEXT "NO_WORLD" |}.
Proof.
  split; [|done].
  destruct (QueryActors_loop_spec (ActorIterator World) ClassFilter NameFilter
              Tags) as (Selected & Heq & Hsub & Hmem).
  exists Selected. split; [|done].
  unfold QueryActors. cbn [GEditor_World EditorWorld].
  rewrite Heq, length_fmap. f_equal.
Qed.

(** X12. For a class filter string that is not empty, [CaptureAllActors]
    with that one string and [QueryActors] with it and no name filter select
    the same actors, in the same order. *)
Theorem CaptureAllActors_QueryActors_agree
    (It : list AActor) (c : TCHAR) (cs : FString) (Tags : list FString)
    (this : UAegisSeedSubsystem) :
  let ClassFilter := c :: cs in
  exists Selected,
    CaptureAllActors_loop It [ClassFilter] Tags this
    = (fun a => Json.VObject (CaptureAllActors_ActorObj a this)) <$> Selected
    /\ QueryActors_loop It ClassFilter [] Tags
       = (fun a => Json.VObject (ActorToJson a false false)) <$> Selected.
Proof.
  intros ClassFilter.
  assert (ClassFilter <> []) as Hne by done. clearbody ClassFilter.
  induction It as [|Actor It (Selected & HC & HQ)]; simpl.
  - by exists [].
  - rewrite (bool_decide_eq_false_2 (ClassFilter = [])) by done.
    destruct (FString_Contains (Actor_ClassName Actor) ClassFilter); simpl.
    + destruct ((0 <? length Tags)%nat && negb (HasAllTags Actor Tags)).
      * by exists Selected.
      * exists (Actor :: Selected). by rewrite HC, HQ.
    + by exists Selected.
Qed.

(** X21. [GetActorInfo] succeeds exactly when [VerifyGUIDEntity] confirms
    the path, so it succeeds for the name and for the path name of every
    actor of the world; otherwise it fails with [ACTOR_NOT_FOUND] and no
    data.  [bIncludeProperties] makes no difference. *)
Theorem GetActorInfo_finds_actors
    (GEditor : option UEditorEngine) (GUID ActorPath : FString)
    (bIncludeComponents bIncludeProperties : bool)
    (this : UAegisSeedSubsystem)
    (FindObject : FString -> option AActor) (Before After : list AActor)
    (Actor : AActor) :
  let r :=
    GetActorInfo GEditor ActorPath bIncludeComponents bIncludeProperties in
  let World :=
    {| CurrentLevel_FindObject_AActor := FindObject;
       ActorIterator := Before ++ Actor :: After |} in
  let Editor := Some {| EditorWorld := Some World |} in
  FAegisCommandResult.bSuccess r
  = (VerifyGUIDEntity GEditor GUID ActorPath this).1
  /\ (if FAegisCommandResult.bSuccess r
      then exists Found,
             FindActorByPath GEditor ActorPath = Some Found
             /\ FAegisCommandResult.Data r
                = Json_Serialize
                    (ActorToJson Found bIncludeComponents bIncludeProperties)
      else FAegisCommandResult.ErrorCode r = TEXT "ACTOR_NOT_FOUND"
           /\ FAegisCommandResult.Message r
              = TEXT "Actor not found: " ++ ActorPath
           /\ FAegisCommandResult.Data r = [])
  /\ FAegisCommandResult.bSuccess
       (GetActorInfo Editor (GetName Actor) bIncludeComponents
          bIncludeProperties) = true
  /\ FAegisCommandResult.bSuccess
       (GetActorInfo Editor (GetPathName Actor) bIncludeComponents
          bIncludeProperties) = true
  /\ GetActorInfo GEditor ActorPath bIncludeComponents true
     = GetActorInfo GEditor ActorPath bIncludeComponents false.
Proof.
  intros r World Editor.
  assert (forall G P c p,
            FAegisCommandResult.bSuccess (GetActorInfo G P c p)
            = (VerifyGUIDEntity G GUID P this).1) as Hagree.
  { intros G P c p. unfold GetActorInfo, VerifyGUIDEntity, FindActorByPath.
    destruct G as [[[W|]]|]; cbn [EditorWorld]; [|done..].
    destruct (CurrentLevel_FindObject_AActor W P); [done|].
    pose proof (FindActorByPath_search_spec (ActorIterator W) P) as Hs.
    destruct (FindActorByPath_search (ActorIterator W) P) as [Found|].
    - destruct Hs as (B & A & Hit & Hm & _). cbn [fst]. symmetry.
      apply VerifyGUIDEntity_search_spec. exists Found. split; [|tauto].
      rewrite Hit. apply elem_of_app. right. by left.
    - by rewrite Hs. }
  assert (forall P,
            GetName Actor == P = true \/ GetPathName Actor == P = true ->
            (VerifyGUIDEntity Editor GUID P this).1 = true) as Hfound.
  { intros P HP. unfold VerifyGUIDEntity. subst Editor World.
    cbn [EditorWorld CurrentLevel_FindObject_AActor ActorIterator].
    destruct (FindObject P); [done|]. cbn [fst].
    apply VerifyGUIDEntity_search_spec. exists Actor. split; [|tauto].
    apply elem_of_app. right. by left. }
  split; [apply Hagree|]. split; [|split; [|split]].
  - subst r. unfold GetActorInfo.
    destruct (FindActorByPath GEditor ActorPath) as [Found|].
    + cbn [MakeSuccess FAegisCommandResult.bSuccess FAegisCommandResult.Data].
      by exists Found.
    + cbn [MakeError FAegisCommandResult.bSuccess FAegisCommandResult.Data
             FAegisCommandResult.ErrorCode FAegisCommandResult.Message].
      split; [done|]. split; [|done].
      transitivity (TEXT "Actor not found: " ++ ActorPath ++ []);
        [reflexivity|]. by rewrite app_nil_r.
  - rewrite Hagree. apply Hfound. left. apply FString_eq_refl.
  - rewrite Hagree. apply Hfound. right. apply FString_eq_refl.
  - unfold GetActorInfo.
    by destruct (FindActorByPath GEditor ActorPath).
Qed.

End CaptureFacts.

Section HandlerFacts.
Context `{JsonIO} `{!WorldInfo} `{StringSearch} `{SecureHash}.

Lemma CaptureAllActors_this GEditor ClassFilter TagFilter this :
  (CaptureAllActors GEditor ClassFilter TagFilter this).2 = this.
Proof. unfold CaptureAllActors. by destruct (GEditor_World GEditor). Qed.

Lemma GetCurrentLevelInfo_this GEditor this :
  (GetCurrentLevelInfo GEditor this).2 = this.
Proof. unfold GetCurrentLevelInfo. by destruct (GEditor_World GEditor). Qed.

Lemma EditorSubsystem_Get_Some {A} GEditor (Instance : option A) x :
  EditorSubsystem_Get GEditor Instance = Some x -> Instance = Some x.
Proof. by destruct GEditor. Qed.

(** X13. A request changes the seed subsystem only as one [RegisterGUID]
    call does: after [HandleRequest] the seed subsystem is the one before,
    or the function name is ["RegisterGUID"] (up to case) and it is the
    result of that call, whose outcome is the ["success"] field of the
    response.  The handler itself is not changed, and the response does not
    depend on whether the handler was initialised. *)
Theorem HandleRequest_seed_effect
    (GEditor : option UEditorEngine) (AegisSubsystem : option unit)
    (ObjectPath FunctionName Parameters : FString) (UtcNow : Z)
    (SeedSubsystem : option UAegisSeedSubsystem)
    (self : UAegisRemoteControlHandler.t) :
  let r :=
    UAegisRemoteControlHandler.HandleRequest GEditor AegisSubsystem ObjectPath
      FunctionName Parameters UtcNow SeedSubsystem self in
  r.2 = self
  /\ r.1
     = (UAegisRemoteControlHandler.HandleRequest GEditor AegisSubsystem
          ObjectPath FunctionName Parameters UtcNow SeedSubsystem
          (UAegisRemoteControlHandler.Shutdown self)).1
  /\ (r.1.2 = SeedSubsystem
      \/ exists Seed GUID EntityPath EntityType Metadata,
           SeedSubsystem = Some Seed
           /\ FunctionName == TEXT "RegisterGUID" = true
           /\ r.1.2
              = Some (run_call Seed
                        (CallRegisterGUID GUID EntityPath EntityType Metadata
                           UtcNow))
           /\ r.1.1
              = Json_Serialize
                  [(TEXT "success",
                    Json.VBoolean
                      (RegisterGUID GUID EntityPath EntityType Metadata UtcNow
                         Seed).1)]).
Proof.
  intros r. split; [|split].
  - subst r. unfold UAegisRemoteControlHandler.HandleRequest.
    by repeat case_match.
  - subst r. unfold UAegisRemoteControlHandler.HandleRequest.
    by repeat case_match.
  - subst r. unfold UAegisRemoteControlHandler.HandleRequest.
    destruct (FString_Contains ObjectPath (TEXT "AegisSubsystem")).
    { left. by destruct (EditorSubsystem_Get GEditor AegisSubsystem). }
    destruct (FString_Contains ObjectPath (TEXT "AegisSeedSubsystem"));
      [|by left].
    destruct (EditorSubsystem_Get GEditor SeedSubsystem) as [Seed|] eqn:HSeed;
      [|by left].
    apply EditorSubsystem_Get_Some in HSeed. subst SeedSubsystem.
    destruct (FunctionName == TEXT "GenerateGUID"); [by left|].
    destruct (FunctionName == TEXT "RegisterGUID") eqn:HReg.
    { right. eexists Seed, _, _, _, _. split; [done|]. split; [done|].
      cbn [run_call].
      destruct (RegisterGUID _ _ _ _ UtcNow Seed) as [bSuccess Seed'] eqn:HR.
      cbn [fst snd]. by rewrite HR. }
    destruct (FunctionName == TEXT "CaptureAllActors").
    { left.
      pose proof (CaptureAllActors_this GEditor
        (UAegisRemoteControlHandler.ParamStrings
           (if negb (bool_decide (Parameters = []))
            then Json_DeserializeObject Parameters else None)
           (TEXT "ClassFilter"))
        (UAegisRemoteControlHandler.ParamStrings
           (if negb (bool_decide (Parameters = []))
            then Json_DeserializeObject Parameters else None)
           (TEXT "TagFilter")) Seed) as Hthis.
      destruct (CaptureAllActors _ _ _ Seed) as [CaptureResult Seed'].
      cbn [snd] in Hthis. by subst Seed'. }
    destruct (FunctionName == TEXT "GetCurrentLevelInfo"); [|by left].
    left. pose proof (GetCurrentLevelInfo_this GEditor Seed) as Hthis.
    destruct (GetCurrentLevelInfo GEditor Seed) as [LevelInfo Seed'].
    cbn [snd] in Hthis. by subst Seed'.
Qed.

End HandlerFacts.

(** ** The WebSocket server and the bridge flag *)

Section ServerFacts.
Context `{JsonIO}.
Import UAegisWebSocketServer.

Lemma TMap_Contains_Find {V} (m : TMap V) k :
  TMap_Contains m k = bool_decide (is_Some (TMap_Find m k)).
Proof.
  unfold TMap_Contains, TMap_Find. apply bool_decide_ext.
  by rewrite fmap_is_Some.
Qed.

Lemma TMap_Add_size {V} (m : TMap V) k v :
  size (TMap_Add m k v) = if TMap_Contains m k then size m else S (size m).
Proof.
  unfold TMap_Add, TMap_Contains. case_bool_decide as Hk.
  - by apply map_size_insert_Some.
  - apply map_size_insert_None. by apply eq_None_not_Some.
Qed.

Lemma TMap_Remove_size {V} (m : TMap V) k :
  size (TMap_Remove m k).2 = if TMap_Contains m k then pred (size m) else size m.
Proof.
  unfold TMap_Remove, TMap_Contains. cbn [snd]. case_bool_decide as Hk.
  - by apply map_size_delete_Some.
  - apply map_size_delete_None. by apply eq_None_not_Some.
Qed.

Lemma TMap_Contains_size {V} (m : TMap V) k :
  TMap_Contains m k = true -> (0 < size m)%nat.
Proof.
  unfold TMap_Contains. intros [x Hx]%bool_decide_eq_true.
  assert (size m <> 0%nat); [|lia].
  by eapply map_size_ne_0_lookup_2.
Qed.

(** X14. [GetClientCount] counts the connected client ids up to the case of
    ASCII letters: a connection adds one unless the id is already
    connected, a disconnection takes one away only if the id is connected.
    [Shutdown] forgets the clients only when the server is running,
    [Initialize] keeps them, and a new server has none. *)
Theorem GetClientCount_counts_ids
    (ClientId : FString) (UnixTimestamp Port : Z) (Slot : FString -> nat)
    (Bridge : option FAegisBridgeModule.t) (self : t) :
  let Known := TMap_Contains (ConnectedClients self) ClientId in
  GetClientCount
    (OnClientConnected ClientId UnixTimestamp Slot Bridge self).1.1
  = (GetClientCount self + (if Known then 0 else 1))%Z
  /\ GetClientCount (OnClientDisconnected ClientId Bridge self).1
     = (GetClientCount self - (if Known then 1 else 0))%Z
  /\ GetClientCount (Shutdown self)
     = (if bIsRunning self then 0 else GetClientCount self)%Z
  /\ GetClientCount (Initialize Port self) = GetClientCount self
  /\ GetClientCount New = 0%Z
  /\ (0 <= GetClientCount self)%Z.
Proof.
  intros Known. unfold GetClientCount. split; [|split; [|split; [|split]]].
  - cbn [OnClientConnected fst ConnectedClients]. rewrite TMap_Add_size.
    fold Known. destruct Known; lia.
  - cbn [OnClientDisconnected fst ConnectedClients]. rewrite TMap_Remove_size.
    fold Known. destruct Known eqn:HK; [|lia].
    apply TMap_Contains_size in HK. lia.
  - unfold Shutdown. by destruct (bIsRunning self).
  - unfold Initialize. by destruct (bIsRunning self).
  - split; [done|lia].
Qed.

Lemma server_run_snoc events e st :
  server_run (events ++ [e]) st = server_step (server_run events st) e.
Proof. unfold server_run. by rewrite fold_left_app. Qed.

Lemma server_run_bridge_loaded events Server Bridge :
  is_Some (server_run events (Server, Some Bridge)).2.
Proof.
  induction events as [|e events IH] using rev_ind; [by eexists|].
  rewrite server_run_snoc.
  destruct (server_run events (Server, Some Bridge)) as [S' [B'|]];
    [|by destruct IH].
  destruct e; cbn; try by eexists.
  case_match; by eexists.
Qed.

Lemma server_run_clients_flag events Bridge :
  let st := server_run events (New, Some Bridge) in
  (0 < GetClientCount st.1)%Z ->
  FAegisBridgeModule.IsBridgeConnected <$> st.2 = Some true.
Proof.
  induction events as [|e events IH] using rev_ind; [done|].
  rewrite server_run_snoc. cbn zeta in IH.
  destruct (server_run_bridge_loaded events New Bridge) as [B HB].
  destruct (server_run events (New, Some Bridge)) as [S' B'] eqn:Hrun. cbn [snd] in HB. subst B'. cbn [fst snd] in IH.
  destruct e; cbn zeta.
  - cbn [server_step fst snd]. unfold Initialize.
    destruct (bIsRunning S'); apply IH.
  - cbn [server_step fst snd]. unfold Shutdown.
    destruct (bIsRunning S'); cbn [negb]; [|apply IH].
    unfold GetClientCount. cbn [ConnectedClients]. unfold TMap_Empty.
    rewrite map_size_empty. lia.
  - done.
  - cbn [server_step fst snd OnClientDisconnected]. unfold GetClientCount in *.
    cbn [ConnectedClients]. intros Hpos.
    rewrite (proj2 (Z.eqb_neq _ 0%Z)) by lia. cbn [fmap option_fmap option_map].
    cbn [ConnectedClients] in Hpos.
    rewrite TMap_Remove_size in Hpos. apply IH.
    destruct (TMap_Contains (ConnectedClients S') ClientId); lia.
Qed.

(** X15. With the bridge module loaded, after any startups, shutdowns,
    connections and disconnections of a new server: whenever a client is
    connected the bridge is flagged connected, and right after a connection
    or a disconnection the flag tells exactly whether a client is
    connected.  [Shutdown] does not clear the flag: after it the bridge can
    be flagged connected with no client. *)
Theorem bridge_flag_follows_clients
    (events : list ServerEvent) (Bridge : FAegisBridgeModule.t) :
  let st := server_run events (New, Some Bridge) in
  ((0 < GetClientCount st.1)%Z ->
   FAegisBridgeModule.IsBridgeConnected <$> st.2 = Some true)
  /\ (forall ClientId UnixTimestamp Slot,
        let st' :=
          server_step st (EvClientConnected ClientId UnixTimestamp Slot) in
        FAegisBridgeModule.IsBridgeConnected <$> st'.2
        = Some (0 <? GetClientCount st'.1)%Z)
  /\ (forall ClientId,
        let st' := server_step st (EvClientDisconnected ClientId) in
        FAegisBridgeModule.IsBridgeConnected <$> st'.2
        = Some (0 <? GetClientCount st'.1)%Z)
  /\ (forall Port ClientId UnixTimestamp Slot,
        let st' :=
          server_run
            [EvInitialize Port; EvClientConnected ClientId UnixTimestamp Slot;
             EvShutdown] st in
        FAegisBridgeModule.IsBridgeConnected <$> st'.2 = Some true
        /\ GetClientCount st'.1 = 0%Z).
Proof.
  intros st. split; [apply server_run_clients_flag|].
  pose proof (server_run_clients_flag events Bridge) as Hinv.
  cbn zeta in Hinv. fold st in Hinv.
  destruct (server_run_bridge_loaded events New Bridge) as [B HB].
  fold st in HB.
  destruct st as [S' B']. cbn [snd] in HB. subst B'. cbn [fst snd] in Hinv.
  split; [|split].
  - intros ClientId UnixTimestamp Slot st'. subst st'.
    cbn [server_step fst snd OnClientConnected fmap option_fmap option_map].
    unfold GetClientCount. cbn [ConnectedClients]. rewrite TMap_Add_size.
    f_equal. symmetry. apply Z.ltb_lt.
    destruct (TMap_Contains (ConnectedClients S') ClientId) eqn:HK; [|lia].
    apply TMap_Contains_size in HK. lia.
  - intros ClientId st'. subst st'.
    cbn [server_step fst snd OnClientDisconnected]. cbn [ConnectedClients].
    unfold GetClientCount in *. cbn [ConnectedClients].
    destruct (Z.eqb_spec
                (Z.of_nat (size (TMap_Remove (ConnectedClients S') ClientId).2))
                0%Z) as [Hz|Hn0].
    + cbn [fmap option_fmap option_map FAegisBridgeModule.IsBridgeConnected
           FAegisBridgeModule.SetBridgeConnected
           FAegisBridgeModule.bBridgeConnected].
      by rewrite Hz.
    + cbn [fmap option_fmap option_map]. rewrite (proj2 (Z.ltb_lt _ _)) by lia.
      apply Hinv. rewrite TMap_Remove_size in Hn0.
      destruct (TMap_Contains (ConnectedClients S') ClientId); lia.
  - intros Port ClientId UnixTimestamp Slot st'. subst st'.
    cbn [server_run fold_left server_step fst snd OnClientConnected].
    unfold Initialize, Shutdown, GetClientCount.
    destruct (bIsRunning S') eqn:Hrun;
      cbn [bIsRunning negb fst snd ConnectedClients]; rewrite ?Hrun;
      cbn [bIsRunning negb fst snd ConnectedClients];
      (split; [done|]); unfold TMap_Empty; by rewrite map_size_empty.
Qed.

End ServerFacts.

Section BroadcastFacts.
Context `{JsonIO}.
Import UAegisWebSocketServer.

Lemma server_run_wf events Bridge :
  TMap_wf (ConnectedClients (server_run events (New, Bridge)).1).
Proof.
  induction events as [|e events IH] using rev_ind; [apply TMap_wf_Empty|].
  rewrite server_run_snoc.
  destruct (server_run events (New, Bridge)) as [S' B']. cbn [fst] in IH.
  destruct e; cbn [server_step fst snd].
  - unfold Initialize. by destruct (bIsRunning S').
  - unfold Shutdown. destruct (bIsRunning S'); [apply TMap_wf_Empty|done].
  - by apply TMap_wf_Add.
  - by apply TMap_wf_Remove.
Qed.

Lemma TMap_Pairs_keys_NoDup {V} (m : TMap V) :
  TMap_wf m -> NoDup (KeyFold <$> (TMap_Pairs m).*1).
Proof.
  intros Hwf. unfold TMap_Pairs.
  replace (KeyFold <$> (snd <$> map_to_list m).*1) with ((map_to_list m).*1);
    [apply NoDup_fst_map_to_list|].
  rewrite <- !list_fmap_compose. apply Forall_fmap_ext_1, Forall_forall.
  intros [i [k v]] Hin%elem_of_map_to_list. simpl. by apply (Hwf _ _ _ Hin).
Qed.

Lemma TMap_Iterate_keys_NoDup {V} (Slot : FString -> nat) (m : TMap V) :
  TMap_wf m -> NoDup (KeyFold <$> (TMap_Iterate Slot m).*1).
Proof.
  intros Hwf. rewrite TMap_Iterate_Permutation.
  by apply TMap_Pairs_keys_NoDup.
Qed.

Lemma BroadcastEvent_Addressed EventType Data UnixTimestamp Slot self :
  Addressed (BroadcastEvent EventType Data UnixTimestamp Slot self)
  = if bIsRunning self
    then (TMap_Iterate Slot (ConnectedClients self)).*1 else [].
Proof.
  unfold Addressed, BroadcastEvent. destruct (bIsRunning self); [|done].
  cbn [negb]. rewrite <- list_fmap_compose. by apply Forall_fmap_ext_1, Forall_forall.
Qed.

(** X16. On a server that has seen any startups, shutdowns, connections and
    disconnections, [BroadcastEvent] makes no call to [SendToClient] while
    the server is not running.  While it is running it makes exactly one
    call per connected client, every call carries the same serialized event
    and goes to a connected client, and every connected client id is
    addressed (up to the case of ASCII letters). *)
Theorem BroadcastEvent_reaches_each_client
    (events : list ServerEvent) (Bridge : option FAegisBridgeModule.t)
    (EventType : FString) (Data : option Json.Object) (UnixTimestamp : Z)
    (Slot : FString -> nat) :
  let Server := (server_run events (New, Bridge)).1 in
  let calls := BroadcastEvent EventType Data UnixTimestamp Slot Server in
  if bIsRunning Server then
    Z.of_nat (length calls) = GetClientCount Server
    /\ NoDup (KeyFold <$> Addressed calls)
    /\ (forall ClientId Message,
          SendToClient ClientId Message Server = true
          <-> exists c, c ∈ Addressed calls /\ c == ClientId = true)
    /\ (forall c Message,
          (c, Message) ∈ calls ->
          Message
          = Json_Serialize (EventMessage EventType Data UnixTimestamp)
          /\ SendToClient c Message Server = true)
  else calls = [].
Proof.
  intros Server calls.
  pose proof (server_run_wf events Bridge) as Hwf. fold Server in Hwf.
  pose proof (BroadcastEvent_Addressed EventType Data UnixTimestamp Slot
                Server) as HAddr. fold calls in HAddr.
  assert (forall ClientId Message,
            SendToClient ClientId Message Server = true
            <-> exists c, c ∈ (TMap_Iterate Slot (ConnectedClients Server)).*1
                          /\ c == ClientId = true) as Hsend.
  { intros ClientId Message. unfold SendToClient.
    rewrite TMap_Contains_Find, bool_decide_eq_true, TMap_Pairs_Find by done.
    setoid_rewrite TMap_Iterate_Permutation.
    split.
    - intros (k & v & Hin & Hk). exists k. split; [|done].
      apply list_elem_of_fmap. by exists (k, v).
    - intros (c & [[k v] [-> Hin]]%list_elem_of_fmap & Hc). by exists k, v. }
  destruct (bIsRunning Server) eqn:Hrun; [|subst calls; unfold BroadcastEvent;
    by rewrite Hrun].
  rewrite HAddr. split; [|split; [|split]].
  - subst calls. unfold BroadcastEvent, GetClientCount. rewrite Hrun. cbn [negb].
    by rewrite length_fmap, TMap_Iterate_length.
  - by apply TMap_Iterate_keys_NoDup.
  - apply Hsend.
  - intros c Message Hin. subst calls. unfold BroadcastEvent in Hin.
    rewrite Hrun in Hin. cbn [negb] in Hin.
    apply list_elem_of_fmap in Hin as ([k v] & [= -> ->] & Hin).
    split; [done|]. apply Hsend. exists k. split; [|apply FString_eq_refl].
    apply list_elem_of_fmap. by exists (k, v).
Qed.

(** X17. Which clients [SendToClient] finds: after [OnClientConnected]
    the new client, under any spelling of its id that differs in the case
    of ASCII letters only, and those it found before; after
    [OnClientDisconnected] those it found before except that client.  The
    welcome event of [OnClientConnected] is sent to the new client, under
    the id as given, when the server is running; when it is not, the client
    is recorded but nothing is sent. *)
Theorem SendToClient_finds_connected
    (ClientId ClientId' Message : FString) (UnixTimestamp : Z)
    (Slot : FString -> nat)
    (Bridge : option FAegisBridgeModule.t) (self : t) :
  let r := OnClientConnected ClientId UnixTimestamp Slot Bridge self in
  SendToClient ClientId' Message r.1.1
  = (ClientId == ClientId') || SendToClient ClientId' Message self
  /\ SendToClient ClientId' Message (OnClientDisconnected ClientId Bridge self).1
     = negb (ClientId == ClientId') && SendToClient ClientId' Message self
  /\ (if bIsRunning self then ClientId ∈ Addressed r.2 else r.2 = [])
  /\ bIsRunning r.1.1 = bIsRunning self.
Proof.
  intros r. subst r. cbn [OnClientConnected OnClientDisconnected fst snd].
  rewrite BroadcastEvent_Addressed. cbn [bIsRunning ConnectedClients].
  unfold SendToClient. cbn [ConnectedClients].
  rewrite !TMap_Contains_Find, TMap_Find_Add, TMap_Find_Remove.
  split; [|split; [|split; [|done]]].
  - destruct (ClientId == ClientId'); [|done]. by apply bool_decide_eq_true_2.
  - destruct (ClientId == ClientId'); [|done]. by apply bool_decide_eq_false_2.
  - destruct (bIsRunning self) eqn:Hrun; [|done].
    apply list_elem_of_fmap. exists (ClientId, true). split; [done|].
    apply TMap_Iterate_elem_of.
    apply TMap_Pairs_lookup. exists (KeyFold ClientId). unfold TMap_Add.
    by rewrite lookup_insert_eq.
Qed.

End BroadcastFacts.

(** ** Restoring a world state *)

Section RestoreFacts.
Context `{JsonIO} `{!EditorOps}.

Lemma RestoreWorldState_entity_seed EntityValue bPreserveGUIDs E this n :
  (RestoreWorldState_entity EntityValue bPreserveGUIDs (E, this, n)).1.2 = this
  \/ bPreserveGUIDs = true
     /\ exists GUID EntityPath EntityType UtcNow,
          GUID <> []
          /\ (RestoreWorldState_entity EntityValue bPreserveGUIDs
                (E, this, n)).1.2
             = run_call this
                 (CallRegisterGUID GUID EntityPath EntityType (TEXT "{}")
                    UtcNow).
Proof.
  unfold RestoreWorldState_entity.
  destruct (Json.TryGetObject EntityValue) as [EntityObj|]; [|by left].
  destruct (match Json.TryGetObjectField EntityObj (TEXT "transform") with
            | Some _ => _ | None => _ end) as [[Location Rotation] Scale].
  destruct (match FindObject_UClass _ E with Some _ => _ | None => _ end)
    as [[ActorClass|] E1]; [|by left].
  destruct (World_SpawnActor ActorClass Location Rotation _ E1)
    as [[Actor|] E2]; [|by left].
  destruct bPreserveGUIDs; [|by left]. cbn [andb].
  case_bool_decide as HG; [by left|]. right. split; [done|].
  cbn [negb fst snd run_call]. by eexists _, _, _, _.
Qed.

Lemma RestoreWorldState_loop_seed EntityArray bPreserveGUIDs st :
  exists calls,
    (fold_left
       (fun st EntityValue =>
          RestoreWorldState_entity EntityValue bPreserveGUIDs st)
       EntityArray st).1.2
    = run_calls calls st.1.2
    /\ Forall (fun c => exists GUID EntityPath EntityType UtcNow,
                 c = CallRegisterGUID GUID EntityPath EntityType (TEXT "{}")
                       UtcNow
                 /\ GUID <> []) calls
    /\ (bPreserveGUIDs = false -> calls = [])
    /\ (length calls <= length EntityArray)%nat.
Proof.
  revert st. induction EntityArray as [|EntityValue rest IH]; intros st.
  - exists []. by repeat split.
  - cbn [fold_left].
    destruct (IH (RestoreWorldState_entity EntityValue bPreserveGUIDs st))
      as (calls & Heq & Hall & Hno & Hlen).
    destruct st as [[E this] n]. cbn [fst snd].
    destruct (RestoreWorldState_entity_seed EntityValue bPreserveGUIDs E this n)
      as [Hsame|(Hb & GUID & EntityPath & EntityType & UtcNow & HG & Hreg)].
    + exists calls. rewrite Heq, Hsame. cbn [length]. repeat split; auto; lia.
    + exists (CallRegisterGUID GUID EntityPath EntityType (TEXT "{}") UtcNow
                :: calls).
      rewrite Heq, Hreg. split; [done|]. split; [|split].
      * constructor; [|done]. by eexists _, _, _, _.
      * intros ->. done.
      * cbn [length]. lia.
Qed.

(** X18. [RestoreWorldState] changes the seed subsystem only by
    [RegisterGUID] calls with a GUID that is not empty and metadata ["{}"],
    at most one per entity, and by none when [bPreserveGUIDs] is false or
    when it returns false.  It returns true exactly when there is an editor
    world and [Entities] reads as a JSON array, also when no entity could be
    restored; when it returns false the editor is left as it was.
    [SnapshotId] and [MergeMode] make no difference. *)
Theorem RestoreWorldState_registers_only
    (GEditor : option UEditorEngine)
    (SnapshotId Entities MergeMode : FString) (bPreserveGUIDs : bool)
    (E : EditorState) (this : UAegisSeedSubsystem) :
  let r :=
    RestoreWorldState GEditor SnapshotId Entities MergeMode bPreserveGUIDs E
      this in
  let EntityArray := Json_DeserializeValue Entities ≫= Json.TryGetArray in
  (exists calls,
      r.2 = run_calls calls this
      /\ Forall (fun c => exists GUID EntityPath EntityType UtcNow,
                   c = CallRegisterGUID GUID EntityPath EntityType (TEXT "{}")
                         UtcNow
                   /\ GUID <> []) calls
      /\ (bPreserveGUIDs = false -> calls = [])
      /\ (r.1.1 = false -> calls = [])
      /\ (length calls <= length (default [] EntityArray))%nat)
  /\ r.1.1 = bool_decide (is_Some (GEditor_World GEditor)
                          /\ is_Some EntityArray)
  /\ (r.1.1 = false -> r.1.2 = E)
  /\ r = RestoreWorldState GEditor [] Entities [] bPreserveGUIDs E this.
Proof.
  intros r EntityArray. subst r EntityArray. unfold RestoreWorldState.
  assert (forall (P Q : Prop) `{!Decision P} `{!Decision Q},
            ~ P \/ ~ Q -> false = bool_decide (P /\ Q)) as Hfalse.
  { intros P Q ? ? HPQ. symmetry. apply bool_decide_eq_false_2. tauto. }
  destruct (GEditor_World GEditor) as [World|].
  2: { split; [exists []; repeat split; first [done|simpl; lia|constructor]|].
       split; [|done]. apply Hfalse. left. by intros [? ?]. }
  destruct (Json_DeserializeValue Entities) as [JsonValue|];
    cbn [mbind option_bind].
  2: { split; [exists []; repeat split; first [done|simpl; lia|constructor]|].
       split; [|done]. apply Hfalse. right. by intros [? ?]. }
  destruct (Json.TryGetArray JsonValue) as [EntityArray|].
  2: { split; [exists []; repeat split; first [done|simpl; lia|constructor]|].
       split; [|done]. apply Hfalse. right. by intros [? ?]. }
  destruct (RestoreWorldState_loop_seed EntityArray bPreserveGUIDs
              (GEditor_BeginTransaction (TEXT "AEGIS Restore World State") E,
               this, 0%Z)) as (calls & Heq & Hall & Hno & Hlen).
  destruct (fold_left _ EntityArray _) as [[E' this'] n].
  cbn [fst snd] in *. split; [|split; [|done]].
  - exists calls. by repeat split.
  - symmetry. apply bool_decide_eq_true_2. by split; eexists.
Qed.

End RestoreFacts.

(** ** The plugin validator *)

Section ValidatorFacts.
Import UAegisPluginValidator.
Context `{PluginHost}.

Lemma CollectMissing_spec (RequiredPlugins : list FRequiredPluginInfo) P :
  (P ∈ (CollectMissing RequiredPlugins).1
   <-> P ∈ RequiredPlugins /\ bRequired P = true
       /\ IsPluginEnabled (PluginName P) = false)
  /\ (P ∈ (CollectMissing RequiredPlugins).2
      <-> P ∈ RequiredPlugins /\ bRequired P = false
          /\ IsPluginEnabled (PluginName P) = false).
Proof.
  induction RequiredPlugins as [|Q rest [IH1 IH2]]; cbn [CollectMissing].
  - cbn [fst snd]. split; (split; [by intros ?%elem_of_nil
                                  |by intros [?%elem_of_nil _]]).
  - destruct (CollectMissing rest) as [MissingRequired MissingOptional].
    cbn [fst snd] in IH1, IH2.
    destruct (IsPluginEnabled (PluginName Q)) eqn:HQ, (bRequired Q) eqn:HR;
      cbn [negb fst snd]; rewrite ?elem_of_cons, ?IH1, ?IH2, ?elem_of_cons;
      split; intuition (subst; congruence).
Qed.

Lemma CollectMissing_required (RequiredPlugins : list FRequiredPluginInfo) :
  (0 <? length (CollectMissing RequiredPlugins).1)%nat
  = negb (forallb (fun P => negb (bRequired P) || IsPluginEnabled (PluginName P))
            RequiredPlugins).
Proof.
  induction RequiredPlugins as [|Q rest IH]; [done|].
  cbn [CollectMissing forallb].
  destruct (CollectMissing rest) as [MissingRequired MissingOptional].
  cbn [fst] in IH.
  destruct (IsPluginEnabled (PluginName Q)), (bRequired Q); cbn; try done.
  all: by rewrite ?orb_true_r.
Qed.

Lemma EnablePlugins_effects MissingPlugins bNeedsRestart e :
  e ∈ (EnablePlugins MissingPlugins bNeedsRestart).2 ->
  exists P, P ∈ MissingPlugins /\ e = SetPluginEnabled (PluginName P).
Proof.
  revert bNeedsRestart.
  induction MissingPlugins as [|Q rest IH]; intros bNeedsRestart;
    cbn [EnablePlugins].
  - by intros ?%elem_of_nil.
  - destruct (EnablePlugin (PluginName Q)) as [bEnabled eff] eqn:HE.
    specialize (IH (if bEnabled then true else bNeedsRestart)).
    destruct (EnablePlugins rest _) as [b' eff']. cbn [snd] in *.
    rewrite elem_of_app. intros [Hin|Hin].
    + exists Q. split; [by left|]. unfold EnablePlugin in HE.
      destruct (match FindPlugin (PluginName Q) with
                | Some _ => _ | None => _ end);
        injection HE as <- <-; [|by apply elem_of_nil in Hin].
      by apply list_elem_of_singleton in Hin.
    + destruct (IH Hin) as (P & HP & ->). exists P. split; [by right|done].
Qed.

Lemma EnablePlugins_restart MissingPlugins bNeedsRestart :
  (EnablePlugins MissingPlugins bNeedsRestart).1 = true ->
  bNeedsRestart = true
  \/ exists Name,
       SetPluginEnabled Name ∈ (EnablePlugins MissingPlugins bNeedsRestart).2
       /\ SetPluginEnabled_Succeeds Name = true.
Proof.
  revert bNeedsRestart.
  induction MissingPlugins as [|Q rest IH]; intros bNeedsRestart;
    cbn [EnablePlugins]; [by left|].
  destruct (EnablePlugin (PluginName Q)) as [bEnabled eff] eqn:HE.
  specialize (IH (if bEnabled then true else bNeedsRestart)).
  destruct (EnablePlugins rest _) as [b' eff']. cbn [fst snd] in *.
  intros Hb. destruct (IH Hb) as [Hr|(Name & Hin & HS)].
  - destruct bEnabled; [|by left]. right. exists (PluginName Q).
    unfold EnablePlugin in HE.
    destruct (match FindPlugin (PluginName Q) with
              | Some _ => _ | None => _ end); [|done].
    injection HE as HS <-. split; [|done]. apply elem_of_app. left.
    by apply list_elem_of_singleton.
  - right. exists Name. split; [|done]. apply elem_of_app. by right.
Qed.

Lemma ShowMissingPluginsDialog_effects
    (MissingPlugins : list FRequiredPluginInfo) :
  let Message := MissingPluginsMessage (PluginListOf MissingPlugins) in
  let eff := ShowMissingPluginsDialog MissingPlugins in
  MessageDialog_YesNo Message MissingPluginsTitle ∈ eff
  /\ (forall Name,
        SetPluginEnabled Name ∈ eff ->
        MessageDialog_AnswersYes Message MissingPluginsTitle = true
        /\ exists P, P ∈ MissingPlugins /\ Name = PluginName P)
  /\ (RestartEditor ∈ eff ->
      MessageDialog_AnswersYes RestartMessage RestartTitle = true
      /\ exists Name,
           SetPluginEnabled Name ∈ eff
           /\ SetPluginEnabled_Succeeds Name = true).
Proof.
  intros Message eff. subst eff. unfold ShowMissingPluginsDialog.
  fold Message. split; [by left|].
  destruct (MessageDialog_AnswersYes Message MissingPluginsTitle).
  2: { split.
       - intros Name [Hd|Hn]%elem_of_cons; [done|].
         by apply list_elem_of_singleton in Hn.
       - intros [Hd|Hn]%elem_of_cons; [done|].
         by apply list_elem_of_singleton in Hn. }
  pose proof (EnablePlugins_effects MissingPlugins false) as Heff.
  pose proof (EnablePlugins_restart MissingPlugins false) as Hres.
  destruct (EnablePlugins MissingPlugins false) as [bNeedsRestart eff].
  cbn [fst snd] in Heff, Hres.
  assert (forall e,
            e ∈ (if bNeedsRestart
                 then MessageDialog_YesNo RestartMessage RestartTitle
                      :: (if MessageDialog_AnswersYes RestartMessage RestartTitle
                          then [RestartEditor] else [])
                 else []) ->
            bNeedsRestart = true
            /\ (e = MessageDialog_YesNo RestartMessage RestartTitle
                \/ e = RestartEditor
                   /\ MessageDialog_AnswersYes RestartMessage RestartTitle
                      = true)) as Htail.
  { intros e. destruct bNeedsRestart; [|by intros ?%elem_of_nil].
    intros [->|Hin]%elem_of_cons; [by split; [|left]|].
    destruct (MessageDialog_AnswersYes RestartMessage RestartTitle);
      [|by apply elem_of_nil in Hin].
    apply list_elem_of_singleton in Hin. split; [done|]. by right. }
  split.
  - intros Name [Hd|[Hin|Hin]%elem_of_app]%elem_of_cons; [done| |].
    + split; [done|]. destruct (Heff _ Hin) as (P & HP & [= ->]). by exists P.
    + by destruct (Htail _ Hin) as [_ [?|[? _]]].
  - intros [Hd|[Hin|Hin]%elem_of_app]%elem_of_cons; [done| |].
    + by destruct (Heff _ Hin) as (P & _ & ?).
    + destruct (Htail _ Hin) as [-> [?|[_ Hyes]]]; [done|]. split; [done|].
      destruct (Hres eq_refl) as [?|(Name & HName & HS)]; [done|].
      exists Name. split; [|done]. right. apply elem_of_app. by left.
Qed.

Lemma ValidateRequiredPlugins_unfold :
  ValidateRequiredPlugins
  = let Missing := CollectMissing GetRequiredPlugins in
    let eff1 :=
      if (0 <? length Missing.2)%nat then
        ShowNotification (OptionalPlugins (OptionalListOf Missing.2)) false
      else [] in
    if (0 <? length Missing.1)%nat
    then (false, eff1 ++ ShowMissingPluginsDialog Missing.1)
    else (true, eff1).
Proof.
  unfold ValidateRequiredPlugins.
  by destruct (CollectMissing GetRequiredPlugins).
Qed.

(** X19. [ValidateRequiredPlugins] returns true exactly when RemoteControl,
    WebSocketNetworking and PCG are enabled: HoudiniEngine makes no
    difference, and neither do the answers to the dialogs, so a validation
    that has just enabled the missing plugins still returns false.  A
    plugin is enabled only after the user said yes to the dialog, and only
    if it is one of those three and is not enabled; the editor is restarted
    only after a yes to the restart dialog and after some plugin was
    enabled with success.  When it returns true it has opened no dialog. *)
Theorem ValidateRequiredPlugins_result :
  let r := ValidateRequiredPlugins in
  r.1 = IsPluginEnabled (TEXT "RemoteControl")
        && IsPluginEnabled (TEXT "WebSocketNetworking")
        && IsPluginEnabled (TEXT "PCG")
  /\ (forall Name,
        SetPluginEnabled Name ∈ r.2 ->
        r.1 = false
        /\ IsPluginEnabled Name = false
        /\ Name ∈ [TEXT "RemoteControl"; TEXT "WebSocketNetworking";
                   TEXT "PCG"]
        /\ exists Message,
             MessageDialog_YesNo Message MissingPluginsTitle ∈ r.2
             /\ MessageDialog_AnswersYes Message MissingPluginsTitle = true)
  /\ (RestartEditor ∈ r.2 ->
      MessageDialog_AnswersYes RestartMessage RestartTitle = true
      /\ exists Name,
           SetPluginEnabled Name ∈ r.2
           /\ SetPluginEnabled_Succeeds Name = true)
  /\ (r.1 = true ->
      forall e, e ∈ r.2 ->
        exists Message ExpireDuration Image,
          e = AddNotification Message ExpireDuration Image).
Proof.
  intros r. subst r. rewrite ValidateRequiredPlugins_unfold. cbn zeta.
  pose proof (CollectMissing_required GetRequiredPlugins) as Hreq.
  pose proof (fun P => proj1 (CollectMissing_spec GetRequiredPlugins P))
    as Hspec.
  destruct (ShowMissingPluginsDialog_effects
              (CollectMissing GetRequiredPlugins).1) as (Hdlg & Hset & Hrst).
  cbn zeta in Hdlg, Hset, Hrst.
  set (MR := (CollectMissing GetRequiredPlugins).1) in *.
  set (MO := (CollectMissing GetRequiredPlugins).2) in *.
  assert (forall e,
            e ∈ (if (0 <? length MO)%nat
                 then ShowNotification (OptionalPlugins (OptionalListOf MO))
                        false
                 else []) ->
            exists Message ExpireDuration Image,
              e = AddNotification Message ExpireDuration Image) as Hopt.
  { intros e. destruct (0 <? length MO)%nat; [|by intros ?%elem_of_nil].
    intros ->%list_elem_of_singleton. by eexists _, _, _. }
  assert (forallb
            (fun P => negb (bRequired P) || IsPluginEnabled (PluginName P))
            GetRequiredPlugins
          = IsPluginEnabled (TEXT "RemoteControl")
            && IsPluginEnabled (TEXT "WebSocketNetworking")
            && IsPluginEnabled (TEXT "PCG")) as Hall.
  { unfold GetRequiredPlugins.
    cbn [forallb PluginName bRequired negb orb].
    by rewrite andb_true_r, !andb_assoc. }
  rewrite Hall in Hreq. clear Hall. symmetry in Hreq.
  destruct (0 <? length MR)%nat; cbn [fst snd].
  - split; [by apply negb_true_iff in Hreq|].
    split; [|split; [|done]].
    + intros Name [Hin|Hin]%elem_of_app;
        [by destruct (Hopt _ Hin) as (? & ? & ? & ?)|].
      destruct (Hset _ Hin) as (Hyes & P & HP & ->).
      apply Hspec in HP as (HP & HR & HE).
      split; [done|]. split; [done|]. split.
      * unfold GetRequiredPlugins in HP.
        rewrite !elem_of_cons in HP.
        destruct HP as [->|[->|[->|[->|HP]]]]; cbn [PluginName].
        -- by left.
        -- right. by left.
        -- right. right. by left.
        -- done.
        -- by apply elem_of_nil in HP.
      * eexists. split; [|exact Hyes]. apply elem_of_app. by right.
    + intros [Hin|Hin]%elem_of_app;
        [by destruct (Hopt _ Hin) as (? & ? & ? & ?)|].
      destruct (Hrst Hin) as (Hyes & Name & HName & HS).
      split; [done|]. exists Name. split; [|done]. apply elem_of_app.
      by right.
  - split; [by apply negb_false_iff in Hreq|].
    split; [|split].
    + intros Name Hin. by destruct (Hopt _ Hin) as (? & ? & ? & ?).
    + intros Hin. by destruct (Hopt _ Hin) as (? & ? & ? & ?).
    + intros _. apply Hopt.
Qed.

(** X20. [EnablePlugin] asks the project manager only for a plugin that
    the plugin manager finds, by [FindPlugin] or among the discovered
    plugins by name (up to the case of ASCII letters); for any other name
    it returns false and does nothing.  For a plugin that is found it
    returns what the project manager answers, whether or not the plugin is
    enabled already. *)
Theorem EnablePlugin_only_known (Name : FString) :
  let Found :=
    is_Some (FindPlugin Name)
    \/ exists P, P ∈ GetDiscoveredPlugins
                  /\ Plugin_GetName P == Name = true in
  (Found
   /\ EnablePlugin Name
      = (SetPluginEnabled_Succeeds Name, [SetPluginEnabled Name]))
  \/ (~ Found
      /\ EnablePlugin Name = (false, [])
      /\ IsPluginEnabled Name = false).
Proof.
  assert (forall L,
            is_Some (SearchDiscovered L Name)
            <-> exists P, P ∈ L /\ Plugin_GetName P == Name = true) as HS.
  { induction L as [|Q L IH]; cbn [SearchDiscovered].
    - split; [by intros [? ?]|by intros (? & ?%elem_of_nil & _)].
    - destruct (Plugin_GetName Q == Name) eqn:HQ.
      + split; [|by eexists]. intros _. exists Q. split; [by left|done].
      + rewrite IH. split.
        * intros (P & HP & HN). exists P. split; [by right|done].
        * intros (P & [->|HP]%elem_of_cons & HN); [congruence|by exists P]. }
  intros Found. subst Found. unfold EnablePlugin, IsPluginEnabled.
  destruct (FindPlugin Name) as [Plugin|].
  { left. split; [|done]. left. by eexists. }
  specialize (HS GetDiscoveredPlugins).
  destruct (SearchDiscovered GetDiscoveredPlugins Name) as [Plugin|].
  - left. split; [|done]. right. apply HS. by eexists.
  - right. split; [|done].
    intros [[? ?]|HP]; [done|]. apply HS in HP. by destruct HP.
Qed.

End ValidatorFacts.

(** ** Requests without parameters, and export followed by import *)

Section RequestFacts.
Context `{JsonIO} `{!WorldInfo} `{StringSearch} `{SecureHash}.

(** X22. A ["RegisterGUID"] request to the seed subsystem whose parameters
    are empty or do not read as a JSON object is not rejected: it calls
    [RegisterGUID] with an empty GUID, path and type and metadata ["{}"],
    and answers with what that call returns.  On a fresh seed subsystem
    that call succeeds. *)
Theorem HandleRequest_RegisterGUID_without_parameters
    (Editor : UEditorEngine) (AegisSubsystem : option unit)
    (ObjectPath FunctionName Parameters : FString) (UtcNow : Z)
    (Seed : UAegisSeedSubsystem) (self : UAegisRemoteControlHandler.t) :
  FString_Contains ObjectPath (TEXT "AegisSubsystem") = false ->
  FString_Contains ObjectPath (TEXT "AegisSeedSubsystem") = true ->
  FunctionName == TEXT "RegisterGUID" = true ->
  Parameters = [] \/ Json_DeserializeObject Parameters = None ->
  UAegisRemoteControlHandler.HandleRequest (Some Editor) AegisSubsystem
    ObjectPath FunctionName Parameters UtcNow (Some Seed) self
  = (Json_Serialize
       [(TEXT "success",
         Json.VBoolean
           (RegisterGUID [] [] [] (TEXT "{}") UtcNow Seed).1)],
     Some (RegisterGUID [] [] [] (TEXT "{}") UtcNow Seed).2, self)
  /\ (RegisterGUID [] [] [] (TEXT "{}") UtcNow NewSubsystem).1 = true.
Proof.
  intros HA HS HF HP. split; [|done].
  unfold UAegisRemoteControlHandler.HandleRequest.
  rewrite HA, HS. cbn [EditorSubsystem_Get].
  assert (FunctionName == TEXT "GenerateGUID" = false) as HG.
  { apply FString_eq_false. apply FString_eq_true in HF. rewrite HF.
    by vm_compute. }
  rewrite HG, HF.
  assert ((if negb (bool_decide (Parameters = []))
           then Json_DeserializeObject Parameters else None) = None) as ->.
  { destruct HP as [-> | ->]; [done|]. by destruct (negb _). }
  cbn [UAegisRemoteControlHandler.ParamString].
  change (TEXT "") with (@nil N).
  by destruct (RegisterGUID [] [] [] (TEXT "{}") UtcNow Seed).
Qed.

End RequestFacts.

Lemma HandleRequest_RegisterGUID_without_parameters_witness :
  (@UAegisRemoteControlHandler.HandleRequest ExampleDouble ExampleJsonIO
     ExampleWorldInfo ExampleStringSearch EngineSHA1
     (Some {| EditorWorld := None |}) None
     (TEXT "/Script/AegisBridge.AegisSeedSubsystem") (TEXT "registerguid") []
     0 (Some NewSubsystem) {| UAegisRemoteControlHandler.bIsReady := false |}).1.1
  = TEXT "{}".
Proof.
  refine (f_equal (fun r => r.1.1)
            (proj1 (@HandleRequest_RegisterGUID_without_parameters
                      ExampleDouble ExampleJsonIO ExampleWorldInfo
                      ExampleStringSearch EngineSHA1
                      {| EditorWorld := None |} None
                      (TEXT "/Script/AegisBridge.AegisSeedSubsystem")
                      (TEXT "registerguid") [] 0 NewSubsystem
                      {| UAegisRemoteControlHandler.bIsReady := false |}
                      _ _ _ _))).
  - by vm_compute.
  - by vm_compute.
  - by vm_compute.
  - by left.
Defined.

Section FileFacts.
Context `{FileLoader}.

(** X23. If the file helper reads back what it has written, then
    [ImportSnapshot] of the path of a successful [ExportSnapshot] returns
    the exported data, whatever [bCompress] and [SnapshotId] were, and
    neither call changes the subsystem object. *)
Theorem ImportSnapshot_reads_ExportSnapshot
    (SnapshotId SnapshotData OutputPath : FString) (bCompress : bool)
    (Files : FileSystem) (this : UAegisSeedSubsystem) :
  (forall String Filename Files0,
     (FFileHelper_SaveStringToFile String Filename Files0).1 = true ->
     FFileHelper_LoadFileToString Filename
       (FFileHelper_SaveStringToFile String Filename Files0).2
     = Some String) ->
  (ExportSnapshot SnapshotId SnapshotData OutputPath bCompress Files this).1.1
  = true ->
  ImportSnapshot OutputPath
    (ExportSnapshot SnapshotId SnapshotData OutputPath bCompress Files this).1.2
    (ExportSnapshot SnapshotId SnapshotData OutputPath bCompress Files this).2
  = (SnapshotData, this).
Proof.
  intros Hlaw. unfold ExportSnapshot, ImportSnapshot.
  specialize (Hlaw SnapshotData OutputPath Files).
  destruct (FFileHelper_SaveStringToFile SnapshotData OutputPath Files)
    as [[] Files']; cbn [fst snd] in *; [|done].
  intros _. by rewrite Hlaw.
Qed.

End FileFacts.

Lemma ImportSnapshot_reads_ExportSnapshot_witness :
  @ImportSnapshot ExampleFiles ExampleLoader (TEXT "/tmp/s.json")
    (@ExportSnapshot ExampleFiles (TEXT "s1") (TEXT "{}") (TEXT "/tmp/s.json")
       true [] NewSubsystem).1.2
    (@ExportSnapshot ExampleFiles (TEXT "s1") (TEXT "{}") (TEXT "/tmp/s.json")
       true [] NewSubsystem).2
  = (TEXT "{}", NewSubsystem).
Proof.
  apply (@ImportSnapshot_reads_ExportSnapshot ExampleFiles ExampleLoader).
  - intros String Filename Files0 _. cbn.
    by rewrite bool_decide_eq_true_2.
  - reflexivity.
Defined.

(** ** Selecting actors *)

Lemma wrap_int32_succ (z : Z) :
  wrap_int32 (wrap_int32 z + 1) = wrap_int32 (z + 1).
Proof.
  unfold wrap_int32. f_equal.
  replace ((z + 2147483648) mod 4294967296 - 2147483648 + 1 + 2147483648)%Z
    with ((z + 2147483648) mod 4294967296 + 1)%Z by lia.
  rewrite Zplus_mod_idemp_l. f_equal. lia.
Qed.

Lemma SelectActors_loop_spec GEditor ActorPaths (z : Z) :
  SelectActors_loop GEditor ActorPaths (wrap_int32 z)
  = (wrap_int32
       (z + Z.of_nat (length (omap (FindActorByPath GEditor) ActorPaths))),
     SelectActor <$> omap (FindActorByPath GEditor) ActorPaths).
Proof.
  revert z. induction ActorPaths as [|ActorPath rest IH]; intros z;
    cbn [SelectActors_loop omap list_omap].
  - cbn [length fmap list_fmap]. by rewrite Z.add_0_r.
  - destruct (FindActorByPath GEditor ActorPath) as [Actor|].
    + rewrite wrap_int32_succ, IH. cbn [length fmap list_fmap].
      do 2 f_equal. lia.
    + apply IH.
Qed.

Section SelectFacts.
Context `{JsonIO}.

(** X24. [SelectActors] selects, in the order of the paths, the actor that
    [FindActorByPath] finds for each path, and [selectedCount] and the
    message give the number of paths that found an actor: a path given
    twice counts twice, a path that finds nothing is skipped without an
    error.  The selection is cleared first unless [bAddToSelection], also
    when no path finds an actor.  Without an editor it fails with
    [NO_EDITOR] and calls nothing. *)
Theorem SelectActors_counts_paths
    (Editor : UEditorEngine) (ActorPaths : list FString)
    (bAddToSelection : bool) :
  let r := SelectActors (Some Editor) ActorPaths bAddToSelection in
  let Found := omap (FindActorByPath (Some Editor)) ActorPaths in
  let Count := wrap_int32 (Z.of_nat (length Found)) in
  r.2 = (if bAddToSelection then [] else [SelectNone])
          ++ (SelectActor <$> Found)
  /\ r.1 = MakeSuccess
             (TEXT "Selected " ++ FormatInt Count ++ TEXT " actors")
             (Some [(TEXT "selectedCount", Json.VNumber (double_of_Z Count))])
  /\ (length Found <= length ActorPaths)%nat
  /\ ((Z.of_nat (length ActorPaths) < 2147483648)%Z ->
      Count = Z.of_nat (length Found))
  /\ (EditorWorld Editor = None -> Found = [])
  /\ SelectActors None ActorPaths bAddToSelection
     = (MakeError (TEXT "Editor not available") (TEXT "NO_EDITOR"), []).
Proof.
  intros r Found Count.
  assert (length Found <= length ActorPaths)%nat as Hlen.
  { subst Found. clear. induction ActorPaths as [|p rest IH]; [done|].
    cbn [omap list_omap].
    destruct (FindActorByPath (Some Editor) p); cbn [length]; lia. }
  split; [|split; [|split; [done|split; [|split; [|done]]]]].
  - subst r. unfold SelectActors.
    change 0%Z with (wrap_int32 0) at 1. rewrite SelectActors_loop_spec.
    cbn [snd]. by destruct bAddToSelection.
  - subst r. unfold SelectActors.
    change 0%Z with (wrap_int32 0) at 1. rewrite SelectActors_loop_spec.
    cbn [fst]. rewrite Z.add_0_l. fold Found. fold Count.
    by f_equal.
  - intros Hbound. subst Count. apply wrap_int32_id. lia.
  - intros HW. subst Found. clear -HW.
    induction ActorPaths as [|p rest IH]; [done|].
    cbn [omap list_omap]. unfold FindActorByPath at 1. by rewrite HW.
Qed.

End SelectFacts.
